(** * Queue management system: ordering engine, token lifecycle, counters

    Shallow embedding of the Mongoose models, services and controllers of
    the repository:

    - [src/models/Project.js], [src/models/Queue.js] and
      [src/services/queueService.js] (the project queue with its
      position-shifting [updateMany] calls);
    - the project controller's handlers that add a project to a queue,
      remove it and delete it;
    - [src/models/Token.js], the Counter model and
      [src/controllers/tokenController.js],
      [src/controllers/customerController.js] (the token subsystem).

    Modelling conventions.
    - A MongoDB collection is a [list] of documents in natural (insertion)
      order; [_id]s are natural numbers.
    - JavaScript numbers that hold counts, priorities and positions are [Z];
      a field that may be [null]/[undefined] is an [option].
    - Strings ([status], [type], token numbers) are [string]s compared with
      [String.eqb], exactly as the source compares them with [===].
    - [new Date()] is a parameter [now] (milliseconds since the epoch, the
      server running in UTC).
    - An [async] method that saves documents becomes a function from the
      collections to the new collections; a thrown [Error] / [AppError]
      becomes [Err]. Database calls are assumed to succeed, the unique
      index on token numbers apart, and schema validation on save
      ([required], [enum], [min]/[max]) is not modelled: a document is stored
      as the code assigned it. The one exception is the [status] enum of
      the Token schema, which [serveToken]'s value is not in. *)

From Stdlib Require Import ZArith String Ascii Bool Lia.
From Stdlib Require Import List Permutation.
Import ListNotations.
Open Scope string_scope.
Open Scope Z_scope.

Set Implicit Arguments.

(** ** Results of fallible operations *)

Inductive result (A : Type) : Type :=
| Ok (a : A)
| Err (message : string).

Arguments Ok {A} a.
Arguments Err {A} message.

Definition bind {A B : Type} (r : result A) (k : A -> result B) : result B :=
  match r with
  | Ok a => k a
  | Err m => Err m
  end.

Notation "x <- r ;; k" := (bind r (fun x => k))
  (at level 61, r at next level, right associativity).

Definition ObjectId := nat.

Definition oid_eqb (a b : ObjectId) : bool := Nat.eqb a b.

(** [a.toString() === b.toString()] on a nullable reference. *)
Definition ref_is (r : option ObjectId) (i : ObjectId) : bool :=
  match r with
  | Some j => oid_eqb j i
  | None => false
  end.

(** ** Collection primitives *)

Section Collection.
Variable Doc : Type.
Variable doc_id : Doc -> ObjectId.

(** [Model.findById(id)] *)
Definition findById (i : ObjectId) (coll : list Doc) : option Doc :=
  find (fun d => oid_eqb (doc_id d) i) coll.

(** [Model.updateMany(filter, update)] *)
Definition updateMany (filter : Doc -> bool) (update : Doc -> Doc)
  (coll : list Doc) : list Doc :=
  map (fun d => if filter d then update d else d) coll.

(** [Model.countDocuments(filter)] *)
Definition countDocuments (filter : Doc -> bool) (coll : list Doc) : Z :=
  Z.of_nat (length (List.filter filter coll)).

(** [doc.save()]: the stored document with this [_id] is replaced; a
    document that is not stored yet is inserted. *)
Definition save (d : Doc) (coll : list Doc) : list Doc :=
  if existsb (fun x => oid_eqb (doc_id x) (doc_id d)) coll
  then map (fun x => if oid_eqb (doc_id x) (doc_id d) then d else x) coll
  else coll ++ [d].

(** [Model.findOne(filter).sort(...)]: the first document, in the given
    strict order [before], among those matching; documents that compare
    equal keep their natural order. *)
Fixpoint firstBy (before : Doc -> Doc -> bool) (best : Doc) (rest : list Doc) : Doc :=
  match rest with
  | [] => best
  | d :: rest' => firstBy before (if before d best then d else best) rest'
  end.

Definition findOneSorted (filter : Doc -> bool) (before : Doc -> Doc -> bool)
  (coll : list Doc) : option Doc :=
  match List.filter filter coll with
  | [] => None
  | d :: rest => Some (firstBy before d rest)
  end.

End Collection.

(** Ascending order on a nullable number: [null] sorts before every number. *)
Definition optZ_ltb (a b : option Z) : bool :=
  match a, b with
  | None, None => false
  | None, Some _ => true
  | Some _, None => false
  | Some x, Some y => x <? y
  end.

(** A comparison query operator ([$gte], [$gt]) never matches [null]. *)
Definition optZ_geb (a : option Z) (k : Z) : bool :=
  match a with
  | Some x => k <=? x
  | None => false
  end.

Definition optZ_gtb (a : option Z) (k : Z) : bool :=
  match a with
  | Some x => k <? x
  | None => false
  end.

(** [$inc] on a numeric field; a missing field is left as it is here because
    every caller filters on the field being a number. *)
Definition optZ_inc (d : Z) (a : option Z) : option Z :=
  match a with
  | Some x => Some (x + d)
  | None => None
  end.

Definition str_in (s : string) (l : list string) : bool :=
  existsb (String.eqb s) l.

(** ** src/models/Project.js *)

Module Project.

Record t : Type := mk {
  _id : ObjectId;
  priority : Z;
  status : string;
  queuePosition : option Z;
  queueId : option ObjectId;
  category : string;
  tags : list string;
  startedAt : option Z;
  createdAt : Z;
  archived : bool
}.

Definition set_queuePosition (v : option Z) (p : t) : t :=
  mk (_id p) (priority p) (status p) v (queueId p) (category p) (tags p)
     (startedAt p) (createdAt p) (archived p).

Definition set_queueId (v : option ObjectId) (p : t) : t :=
  mk (_id p) (priority p) (status p) (queuePosition p) v (category p) (tags p)
     (startedAt p) (createdAt p) (archived p).

Definition set_status (v : string) (p : t) : t :=
  mk (_id p) (priority p) v (queuePosition p) (queueId p) (category p) (tags p)
     (startedAt p) (createdAt p) (archived p).

Definition set_startedAt (v : option Z) (p : t) : t :=
  mk (_id p) (priority p) (status p) (queuePosition p) (queueId p) (category p)
     (tags p) v (createdAt p) (archived p).

(** [{ $inc: { queuePosition: d } }] *)
Definition inc_queuePosition (d : Z) (p : t) : t :=
  set_queuePosition (optZ_inc d (queuePosition p)) p.

End Project.

(** ** src/models/Queue.js *)

Module Queue.

Record AcceptanceCriteria : Type := mkCriteria {
  categories : list string;
  minPriority : Z;
  maxPriority : Z;
  tags : list string
}.

Record Permissions : Type := mkPermissions {
  owners : list ObjectId;
  managers : list ObjectId;
  workers : list ObjectId;
  viewers : list ObjectId
}.

Record t : Type := mk {
  _id : ObjectId;
  type : string;
  capacity : Z;
  status : string;
  concurrency : Z;
  autoStart : bool;
  currentSize : Z;
  processing : Z;
  lastProcessedAt : option Z;
  acceptanceCriteria : AcceptanceCriteria;
  permissions : Permissions;
  createdBy : ObjectId;
  archived : bool
}.

Definition set_currentSize (v : Z) (q : t) : t :=
  mk (_id q) (type q) (capacity q) (status q) (concurrency q) (autoStart q) v
     (processing q) (lastProcessedAt q) (acceptanceCriteria q) (permissions q)
     (createdBy q) (archived q).

Definition set_processing (v : Z) (at_ : option Z) (q : t) : t :=
  mk (_id q) (type q) (capacity q) (status q) (concurrency q) (autoStart q)
     (currentSize q) v at_ (acceptanceCriteria q) (permissions q)
     (createdBy q) (archived q).

Record Acceptance : Type := mkAcceptance {
  canAccept : bool;
  reason : string
}.

(** [queueSchema.methods.canAcceptProject] *)
Definition canAcceptProject (q : t) (project : Project.t) : Acceptance :=
  if capacity q <=? currentSize q then
    mkAcceptance false "Queue is at full capacity"
  else if negb (status q =? "active")%string then
    mkAcceptance false "Queue is not active"
  else if (Project.priority project <? minPriority (acceptanceCriteria q))
          || (maxPriority (acceptanceCriteria q) <? Project.priority project) then
    mkAcceptance false "Project priority is outside acceptable range"
  else if negb (Nat.eqb (length (categories (acceptanceCriteria q))) 0)
          && negb (str_in (Project.category project) (categories (acceptanceCriteria q))) then
    mkAcceptance false "Project category is not accepted by this queue"
  else if negb (Nat.eqb (length (tags (acceptanceCriteria q))) 0)
          && negb (existsb (fun tag => str_in tag (tags (acceptanceCriteria q)))
                     (Project.tags project)) then
    mkAcceptance false "Project does not have required tags"
  else
    mkAcceptance true "Project meets all acceptance criteria".

(** The three queries and updates of [addProject], one per queue type. *)
Definition lifoFilter (q : t) (p : Project.t) : bool :=
  ref_is (Project.queueId p) (_id q) && optZ_geb (Project.queuePosition p) 1.

Definition higherPriorityFilter (q : t) (project p : Project.t) : bool :=
  ref_is (Project.queueId p) (_id q)
  && (Project.priority project <? Project.priority p)
  && (Project.status p =? "queued")%string.

Definition lowerPriorityFilter (q : t) (project : Project.t) (position : Z)
  (p : Project.t) : bool :=
  ref_is (Project.queueId p) (_id q)
  && (Project.priority p <=? Project.priority project)
  && optZ_geb (Project.queuePosition p) position.

Definition isPriorityType (ty : string) : bool :=
  (ty =? "priority")%string || (ty =? "weighted")%string.

(** [queueSchema.methods.addProject]: returns the position, the saved queue
    and the project collection after the [updateMany] and [project.save()]. *)
Definition addProject (q : t) (project : Project.t) (projects : list Project.t)
  : result (Z * t * list Project.t) :=
  let acceptanceCheck := canAcceptProject q project in
  if negb (canAccept acceptanceCheck) then Err (reason acceptanceCheck)
  else
    let q1 := set_currentSize (currentSize q + 1) q in
    let '(position, projects1) :=
      if (type q =? "fifo")%string then (currentSize q1, projects)
      else if (type q =? "lifo")%string then
        (1, updateMany (lifoFilter q) (Project.inc_queuePosition 1) projects)
      else if isPriorityType (type q) then
        let higherPriorityCount :=
          countDocuments (higherPriorityFilter q project) projects in
        let position := higherPriorityCount + 1 in
        (position,
         updateMany (lowerPriorityFilter q project position)
           (Project.inc_queuePosition 1) projects)
      else (currentSize q1, projects) in
    let project1 :=
      Project.set_status "queued"
        (Project.set_queuePosition (Some position)
           (Project.set_queueId (Some (_id q)) project)) in
    Ok (position, q1, save Project._id project1 projects1).

Definition removeFilter (q : t) (project p : Project.t) : bool :=
  ref_is (Project.queueId p) (_id q)
  && match Project.queuePosition project with
     | Some r => optZ_gtb (Project.queuePosition p) r
     | None => false
     end.

(** [queueSchema.methods.removeProject]; a project without [queueId], on
    which [project.queueId.toString()] throws, is refused as well. *)
Definition removeProject (q : t) (project : Project.t) (projects : list Project.t)
  : result (t * list Project.t) :=
  if negb (ref_is (Project.queueId project) (_id q)) then
    Err "Project is not in this queue"
  else
    let projects1 :=
      updateMany (removeFilter q project) (Project.inc_queuePosition (-1)) projects in
    let q1 := set_currentSize (Z.max 0 (currentSize q - 1)) q in
    let project1 :=
      Project.set_queuePosition None (Project.set_queueId None project) in
    Ok (q1, save Project._id project1 projects1).

Definition queuedIn (q : t) (p : Project.t) : bool :=
  ref_is (Project.queueId p) (_id q) && (Project.status p =? "queued")%string.

Definition byPositionAsc (a b : Project.t) : bool :=
  optZ_ltb (Project.queuePosition a) (Project.queuePosition b).

Definition byPositionDesc (a b : Project.t) : bool :=
  optZ_ltb (Project.queuePosition b) (Project.queuePosition a).

Definition byPriorityDescCreatedAsc (a b : Project.t) : bool :=
  (Project.priority b <? Project.priority a)
  || ((Project.priority a =? Project.priority b)
      && (Project.createdAt a <? Project.createdAt b)).

(** [queueSchema.methods.getNextProject] *)
Definition getNextProject (q : t) (projects : list Project.t) : option Project.t :=
  if (type q =? "fifo")%string || isPriorityType (type q) then
    findOneSorted (queuedIn q) byPositionAsc projects
  else if (type q =? "lifo")%string then
    findOneSorted (queuedIn q) byPositionDesc projects
  else
    findOneSorted (queuedIn q) byPriorityDescCreatedAsc projects.

End Queue.

(** ** src/services/queueService.js *)

Module QueueService.

(** The two collections the service reads and writes. *)
Record State : Type := mkState {
  queues : list Queue.t;
  projects : list Project.t
}.

(** [processNextProject(queueId)]: [None] stands for the [null] result. *)
Definition processNextProject (queueId : ObjectId) (now : Z) (st : State)
  : State * option Project.t :=
  match findById Queue._id queueId (queues st) with
  | None => (st, None)
  | Some queue =>
    if negb (Queue.status queue =? "active")%string then (st, None)
    else if Queue.concurrency queue <=? Queue.processing queue then (st, None)
    else
      match Queue.getNextProject queue (projects st) with
      | None => (st, None)
      | Some nextProject =>
        let nextProject1 :=
          Project.set_startedAt (Some now)
            (Project.set_status "in_progress" nextProject) in
        let queue1 :=
          Queue.set_processing (Queue.processing queue + 1) (Some now) queue in
        (mkState (save Queue._id queue1 (queues st))
                 (save Project._id nextProject1 (projects st)),
         Some nextProject1)
      end
  end.

(** [addProjectToQueue(queueId, projectId, userId)]. The auto-assignment
    branch only writes the project's assignee and the worker's workload,
    which are not part of this model. *)
Definition addProjectToQueue (queueId projectId : ObjectId) (now : Z) (st : State)
  : result (State * Z) :=
  match findById Queue._id queueId (queues st),
        findById Project._id projectId (projects st) with
  | None, _ => Err "Queue not found or archived"
  | Some queue, oproject =>
    if Queue.archived queue then Err "Queue not found or archived"
    else
      match oproject with
      | None => Err "Project not found or archived"
      | Some project =>
        if Project.archived project then Err "Project not found or archived"
        else
          match Project.queueId project with
          | Some _ => Err "Project is already in a queue"
          | None =>
            let acceptanceCheck := Queue.canAcceptProject queue project in
            if negb (Queue.canAccept acceptanceCheck)
            then Err (Queue.reason acceptanceCheck)
            else
              r <- Queue.addProject queue project (projects st) ;;
              let '(position, queue1, projects1) := r in
              let st1 := mkState (save Queue._id queue1 (queues st)) projects1 in
              if Queue.autoStart queue1
                 && (Queue.processing queue1 <? Queue.concurrency queue1)
              then Ok (fst (processNextProject queueId now st1), position)
              else Ok (st1, position)
          end
      end
  end.

(** [removeProjectFromQueue(queueId, projectId, userId)] *)
Definition removeProjectFromQueue (queueId projectId : ObjectId) (st : State)
  : result State :=
  match findById Queue._id queueId (queues st) with
  | None => Err "Queue not found"
  | Some queue =>
    match findById Project._id projectId (projects st) with
    | None => Err "Project not found"
    | Some project =>
      if negb (ref_is (Project.queueId project) queueId)
      then Err "Project is not in this queue"
      else
        r <- Queue.removeProject queue project (projects st) ;;
        let '(queue1, projects1) := r in
        Ok (mkState (save Queue._id queue1 (queues st)) projects1)
    end
  end.

Definition oid_in (i : ObjectId) (l : list ObjectId) : bool :=
  existsb (oid_eqb i) l.

(** [getQueueById(queueId, userId)]: the queue, when the user may see it. *)
Definition getQueueById (queueId userId : ObjectId) (st : State) : option Queue.t :=
  find (fun q =>
          oid_eqb (Queue._id q) queueId
          && negb (Queue.archived q)
          && (oid_eqb (Queue.createdBy q) userId
              || oid_in userId (Queue.owners (Queue.permissions q))
              || oid_in userId (Queue.managers (Queue.permissions q))
              || oid_in userId (Queue.workers (Queue.permissions q))
              || oid_in userId (Queue.viewers (Queue.permissions q))))
       (queues st).

(** One [updateOne] of the [bulkWrite]: the first document matching
    [{ _id: projectId, queueId: queue._id }] gets [queuePosition: index + 1]. *)
Fixpoint updateOne (filter : Project.t -> bool) (update : Project.t -> Project.t)
  (coll : list Project.t) : list Project.t :=
  match coll with
  | [] => []
  | p :: rest =>
    if filter p then update p :: rest else p :: updateOne filter update rest
  end.

Definition reorderFilter (queue : Queue.t) (projectId : ObjectId) (p : Project.t) : bool :=
  oid_eqb (Project._id p) projectId && ref_is (Project.queueId p) (Queue._id queue).

(** The ordered [bulkWrite] of [projectOrder.map((projectId, index) => ...)],
    [index] counting from the given start. *)
Fixpoint bulkWrite (queue : Queue.t) (projectOrder : list ObjectId) (index : Z)
  (coll : list Project.t) : list Project.t :=
  match projectOrder with
  | [] => coll
  | projectId :: rest =>
    bulkWrite queue rest (index + 1)
      (updateOne (reorderFilter queue projectId)
         (Project.set_queuePosition (Some (index + 1))) coll)
  end.

(** A user id as the caller hands it over: the JSDoc of the service asks
    for a string, the routes pass [req.user._id], an ObjectId. A query casts
    either to the same id; the permission tests below tell them apart. *)
Inductive UserId : Type :=
| IdString (i : ObjectId)
| IdObject (i : ObjectId).

Definition idOf (userId : UserId) : ObjectId :=
  match userId with
  | IdString i => i
  | IdObject i => i
  end.

(** [queue.createdBy.toString() === userId]: strict equality of a string
    with an ObjectId is false. *)
Definition isCreator (queue : Queue.t) (userId : UserId) : bool :=
  match userId with
  | IdString i => oid_eqb (Queue.createdBy queue) i
  | IdObject _ => false
  end.

(** [queue.permissions.owners.includes(userId)], likewise for the managers:
    [getQueueById] has populated these arrays, their elements are user
    documents, and no user document equals an id. *)
Definition includes (users : list ObjectId) (userId : UserId) : bool := false.

(** [reorderQueue(queueId, projectOrder, userId)] *)
Definition reorderQueue (queueId : ObjectId) (projectOrder : list ObjectId)
  (userId : UserId) (st : State) : result (State * list ObjectId) :=
  match getQueueById queueId (idOf userId) st with
  | None => Err "Queue not found or access denied"
  | Some queue =>
    let canReorder :=
      isCreator queue userId
      || includes (Queue.owners (Queue.permissions queue)) userId
      || includes (Queue.managers (Queue.permissions queue)) userId in
    if negb canReorder then Err "Insufficient permissions to reorder queue"
    else
      Ok (mkState (queues st) (bulkWrite queue projectOrder 0 (projects st)),
          projectOrder)
  end.

(** A request to the service, and the run of a sequence of requests: a
    request that throws leaves both collections as they were. *)
Inductive Request : Type :=
| AddProject (queueId projectId : ObjectId)
| RemoveProject (queueId projectId : ObjectId).

Definition step (now : Z) (st : State) (r : Request) : State :=
  match r with
  | AddProject queueId projectId =>
    match addProjectToQueue queueId projectId now st with
    | Ok (st1, _) => st1
    | Err _ => st
    end
  | RemoveProject queueId projectId =>
    match removeProjectFromQueue queueId projectId st with
    | Ok st1 => st1
    | Err _ => st
    end
  end.

Definition run (now : Z) (rs : list Request) (st : State) : State :=
  fold_left (step now) rs st.

(** The waiting set of a queue: its projects in status [queued]. *)
Definition waitingSet (q : Queue.t) (st : State) : list Project.t :=
  List.filter (Queue.queuedIn q) (projects st).

End QueueService.

(** The integers [start, start+1, ..., start+n-1]. *)
Fixpoint Zrange (start : Z) (n : nat) : list Z :=
  match n with
  | O => []
  | S n' => start :: Zrange (start + 1) n'
  end.

(** The last place of [i] in the list, counted from [index]: the write of
    an ordered [bulkWrite] that wins. *)
Fixpoint lastIndexFrom (index : Z) (i : ObjectId) (l : list ObjectId) : option Z :=
  match l with
  | [] => None
  | x :: rest =>
    match lastIndexFrom (index + 1) i rest with
    | Some k => Some k
    | None => if oid_eqb x i then Some index else None
    end
  end.

(** ** JavaScript string and date helpers used by the token models *)

(** [String(n)] for a non-negative integer. *)
Fixpoint digits (d : Decimal.uint) : string :=
  match d with
  | Decimal.Nil => ""
  | Decimal.D0 d' => String "0" (digits d')
  | Decimal.D1 d' => String "1" (digits d')
  | Decimal.D2 d' => String "2" (digits d')
  | Decimal.D3 d' => String "3" (digits d')
  | Decimal.D4 d' => String "4" (digits d')
  | Decimal.D5 d' => String "5" (digits d')
  | Decimal.D6 d' => String "6" (digits d')
  | Decimal.D7 d' => String "7" (digits d')
  | Decimal.D8 d' => String "8" (digits d')
  | Decimal.D9 d' => String "9" (digits d')
  end.

Definition decimal (n : N) : string := digits (N.to_uint n).

(** A JavaScript number that is a non-negative integer or [NaN]. *)
Definition jsString (n : option N) : string :=
  match n with
  | Some k => decimal k
  | None => "NaN"
  end.

Fixpoint zeros (n : nat) : string :=
  match n with
  | O => ""
  | S n' => String "0" (zeros n')
  end.

(** [s.padStart(width, '0')] *)
Definition padStart (width : nat) (s : string) : string :=
  zeros (width - String.length s) ++ s.

Definition digitValue (c : ascii) : option N :=
  let n := N_of_ascii c in
  if ((48 <=? n) && (n <=? 57))%N then Some (n - 48)%N else None.

Fixpoint parseDigits (acc : N) (s : string) : N :=
  match s with
  | EmptyString => acc
  | String c s' =>
    match digitValue c with
    | Some d => parseDigits (acc * 10 + d)%N s'
    | None => acc
    end
  end.

(** [parseInt(s)] on a string without sign or leading blanks: the leading
    decimal digits, [NaN] ([None]) when there is none. *)
Definition parseInt (s : string) : option N :=
  match s with
  | EmptyString => None
  | String c _ =>
    match digitValue c with
    | Some _ => Some (parseDigits 0 s)
    | None => None
    end
  end.

(** [s.split('-').pop()]: what follows the last dash. *)
Fixpoint lastSegment (acc s : string) : string :=
  match s with
  | EmptyString => acc
  | String c s' =>
    if Ascii.eqb c "-" then lastSegment "" s'
    else lastSegment (acc ++ String c "") s'
  end.

Definition upperAscii (c : ascii) : ascii :=
  let n := N_of_ascii c in
  if ((97 <=? n) && (n <=? 122))%N then ascii_of_N (n - 32) else c.

(** [s.toUpperCase()], the setter of an [uppercase: true] schema string. *)
Fixpoint toUpperCase (s : string) : string :=
  match s with
  | EmptyString => ""
  | String c s' => String (upperAscii c) (toUpperCase s')
  end.

Definition msPerDay : Z := 86400000.

(** Midnight of the day of [date]: [new Date(date).setHours(0, 0, 0, 0)]. *)
Definition startOfDay (date : Z) : Z := date - date mod msPerDay.

(** [new Date().setHours(23, 59, 59, 999)] *)
Definition endOfDay (date : Z) : Z := startOfDay date + msPerDay - 1.

(** The civil date of a day number counted from 1970-01-01. *)
Definition civilFromDays (days : Z) : Z * Z * Z :=
  let z := days + 719468 in
  let era := z / 146097 in
  let doe := z - era * 146097 in
  let yoe := (doe - doe / 1460 + doe / 36524 - doe / 146096) / 365 in
  let doy := doe - (365 * yoe + yoe / 4 - yoe / 100) in
  let mp := (5 * doy + 2) / 153 in
  let d := doy - (153 * mp + 2) / 5 + 1 in
  let m := if mp <? 10 then mp + 3 else mp - 9 in
  let y := yoe + era * 400 + (if m <=? 2 then 1 else 0) in
  (y, m, d).

(** [date.toISOString().slice(0, 10).replace(/-/g, '')] for the years
    0..9999. *)
Definition dateStr (date : Z) : string :=
  let '(y, m, d) := civilFromDays (date / msPerDay) in
  padStart 4 (decimal (Z.to_N y)) ++ padStart 2 (decimal (Z.to_N m))
  ++ padStart 2 (decimal (Z.to_N d)).

(** [Math.round((later - earlier) / (1000 * 60))] *)
Definition minutesBetween (later earlier : Z) : Z :=
  (later - earlier + 30000) / 60000.

(** ** src/models/Department.js and src/models/Customer.js, as far as the
    token code reads them *)

Module Department.

Record t : Type := mk {
  _id : ObjectId;
  code : string;
  archived : bool;
  status : string
}.

(** [departmentSchema.virtual('isOpen')]. For an [active] department the
    getter calls [toLocaleDateString('en', { weekday: 'lowercase' })];
    ['lowercase'] is no value of the [weekday] option, and the call throws a
    [RangeError] whatever the date. *)
Definition isOpen (d : t) : result bool :=
  if negb (status d =? "active")%string then Ok false
  else Err "Value lowercase out of range for Intl.DateTimeFormat options property weekday".

(** [department.isActive]: the Department schema declares no such path and
    no such virtual, so the read gives [undefined]. *)
Definition isActive (d : t) : bool := false.

End Department.

Module Customer.

Record HistoryEntry : Type := mkEntry {
  tokenNumber : string;
  department : ObjectId;
  counter : ObjectId;
  status : string
}.

Record t : Type := mk {
  _id : ObjectId;
  priority : Z;
  archived : bool;
  tokenHistory : list HistoryEntry
}.

Definition push_tokenHistory (e : HistoryEntry) (c : t) : t :=
  mk (_id c) (priority c) (archived c) (tokenHistory c ++ [e]).

End Customer.

(** ** src/models/Token.js *)

Module Token.

Record TransferRecord : Type := mkTransfer {
  fromDepartment : ObjectId;
  toDepartment : ObjectId;
  fromCounter : option ObjectId;
  toCounter : option ObjectId;
  reason : string;
  transferredBy : ObjectId
}.

Record t : Type := mk {
  _id : ObjectId;
  tokenNumber : string;
  displayNumber : string;
  customer : ObjectId;
  department : ObjectId;
  serviceType : string;
  counter : option ObjectId;
  priority : Z;
  queuePosition : option Z;
  status : string;
  issuedAt : Z;
  calledAt : option Z;
  serviceStartedAt : option Z;
  completedAt : option Z;
  serviceTime : Z;
  transferHistory : list TransferRecord;
  notifiedCalled : bool;
  createdBy : ObjectId;
  lastModifiedBy : option ObjectId;
  businessDate : Z
}.

(** [tokenSchema.virtual('isActive')] *)
Definition isActive (tk : t) : bool :=
  str_in (status tk) ["waiting"; "called"; "in_service"].

(** [tokenSchema.methods.callToken] *)
Definition callToken (counterId : ObjectId) (userId : option ObjectId) (now : Z)
  (tk : t) : t :=
  mk (_id tk) (tokenNumber tk) (displayNumber tk) (customer tk) (department tk)
     (serviceType tk) (Some counterId) (priority tk) (queuePosition tk)
     "called" (issuedAt tk) (Some now) (serviceStartedAt tk) (completedAt tk)
     (serviceTime tk) (transferHistory tk) true (createdBy tk) userId
     (businessDate tk).

(** [tokenSchema.methods.transferToken] *)
Definition transferToken (newDepartment : ObjectId) (newCounter : option ObjectId)
  (reason : string) (userId : ObjectId) (tk : t) : t :=
  let transferRecord :=
    mkTransfer (department tk) newDepartment (counter tk) newCounter reason userId in
  mk (_id tk) (tokenNumber tk) (displayNumber tk) (customer tk) newDepartment
     (serviceType tk) newCounter (priority tk) (queuePosition tk)
     "transferred" (issuedAt tk) (calledAt tk) (serviceStartedAt tk)
     (completedAt tk) (serviceTime tk) (transferHistory tk ++ [transferRecord])
     (notifiedCalled tk) (createdBy tk) (Some userId) (businessDate tk).

Definition onDay (date : Z) (tk : t) : bool :=
  (startOfDay date <=? businessDate tk)
  && (businessDate tk <? startOfDay date + msPerDay).

(** The query of [generateTokenNumber]: the token numbers that start with
    the prefix (department codes match [/^[A-Z0-9]+$/], so the regular
    expression [^prefix] is a plain prefix test), on the day of [date]. *)
Definition numberedFor (pre : string) (date : Z) (tk : t) : bool :=
  String.prefix pre (tokenNumber tk) && onDay date tk.

(** [.sort({ tokenNumber: -1 })]: MongoDB compares strings byte by byte. *)
Definition byTokenNumberDesc (a b : t) : bool :=
  String.ltb (tokenNumber b) (tokenNumber a).

(** [tokenSchema.statics.generateTokenNumber] *)
Definition generateTokenNumber (departments : list Department.t) (tokens : list t)
  (department : ObjectId) (date : Z) : result (string * string) :=
  match findById Department._id department departments with
  | None => Err "Department not found"
  | Some dept =>
    let pre := Department.code dept ++ "-" ++ dateStr date ++ "-" in
    let lastToken := findOneSorted (numberedFor pre date) byTokenNumberDesc tokens in
    let nextNumber :=
      match lastToken with
      | None => Some 1%N
      | Some last =>
        match parseInt (lastSegment "" (tokenNumber last)) with
        | Some lastNumber => Some (lastNumber + 1)%N
        | None => None
        end
      end in
    Ok (pre ++ padStart 3 (jsString nextNumber),
        Department.code dept ++ padStart 3 (jsString nextNumber))
  end.

(** The [businessDate] window every "today" query uses. *)
Definition today (now : Z) (tk : t) : bool :=
  (startOfDay now <=? businessDate tk) && (businessDate tk <? endOfDay now).

Definition inQueueOf (departmentId : ObjectId) (now : Z) (tk : t) : bool :=
  oid_eqb (department tk) departmentId
  && str_in (status tk) ["waiting"; "called"]
  && today now tk.

(** A new [ObjectId], different from every stored one. *)
Definition freshId (tokens : list t) : ObjectId :=
  S (fold_right Nat.max O (map _id tokens)).

(** The unique index on [tokenNumber]. *)
Definition numberTaken (number : string) (tokens : list t) : bool :=
  existsb (fun tk => (tokenNumber tk =? number)%string) tokens.

(** [tokenSchema.statics.generateToken]: the saved token and the collection
    that holds it; [token.save()] is refused when the number is taken. *)
Definition generateToken (departments : list Department.t) (tokens : list t)
  (departmentId : ObjectId) (counterId : option ObjectId) (customerId : ObjectId)
  (priority : Z) (userId : ObjectId) (now : Z) : result (t * list t) :=
  r <- generateTokenNumber departments tokens departmentId now ;;
  let '(tokenNumber, displayNumber) := r in
  let queueCount := countDocuments (inQueueOf departmentId now) tokens in
  let token :=
    mk (freshId tokens) (toUpperCase tokenNumber) displayNumber customerId
       departmentId "general" counterId priority (Some (queueCount + 1))
       "waiting" now None None None 0 [] false userId None (startOfDay now) in
  if numberTaken (toUpperCase tokenNumber) tokens
  then Err "E11000 duplicate key error"
  else Ok (token, save _id token tokens).

(** The waiting set of a department on the day of [now]. *)
Definition waitingIn (departmentId : ObjectId) (now : Z) (tk : t) : bool :=
  oid_eqb (department tk) departmentId
  && (status tk =? "waiting")%string
  && today now tk.

End Token.

(** ** The Counter model (counterSchema) *)

Module Counter.

Record t : Type := mk {
  _id : ObjectId;
  department : ObjectId;
  status : string;
  currentOperator : option ObjectId;
  currentToken : option ObjectId;
  lastTokenCalledAt : option Z;
  archived : bool
}.

(** [counterSchema.virtual('isAvailable')] *)
Definition isAvailable (c : t) : bool :=
  (status c =? "active")%string
  && match currentToken c with Some _ => false | None => true end.

(** [counterSchema.statics.findAvailable] *)
Definition findAvailable (departmentId : ObjectId) (counters : list t) : list t :=
  List.filter (fun c =>
    oid_eqb (department c) departmentId
    && (status c =? "active")%string
    && match currentToken c with Some _ => false | None => true end
    && negb (archived c)) counters.

(** [.sort({ priority: -1, queuePosition: 1 })] *)
Definition byPriorityDescPositionAsc (a b : Token.t) : bool :=
  (Token.priority b <? Token.priority a)
  || ((Token.priority a =? Token.priority b)
      && optZ_ltb (Token.queuePosition a) (Token.queuePosition b)).

(** The [findOne] of [callNextToken]. *)
Definition nextWaiting (c : t) (now : Z) (tokens : list Token.t) : option Token.t :=
  findOneSorted (Token.waitingIn (department c) now) byPriorityDescPositionAsc tokens.

(** [counterSchema.methods.callNextToken]: the counter and the token
    collection after the call, and the token called ([None] for [null]). *)
Definition callNextToken (c : t) (now : Z) (tokens : list Token.t)
  : t * list Token.t * option Token.t :=
  match nextWaiting c now tokens with
  | None => (c, tokens, None)
  | Some nextToken =>
    let called := Token.callToken (_id c) (currentOperator c) now nextToken in
    let c1 :=
      mk (_id c) (department c) "busy" (currentOperator c)
         (Some (Token._id nextToken)) (Some now) (archived c) in
    (c1, save Token._id called tokens, Some called)
  end.

End Counter.

(** ** The collections of the token subsystem and the HTTP handlers *)

Record TokenState : Type := mkTokenState {
  tokens : list Token.t;
  counters : list Counter.t;
  customers : list Customer.t;
  departments : list Department.t
}.

(** What a handler answers: [res.status(code).json(data)] or
    [next(new AppError(message, statusCode))]. *)
Inductive Response (A : Type) : Type :=
| Json (code : Z) (data : A)
| AppError (message : string) (statusCode : Z).

Arguments Json {A} code data.
Arguments AppError {A} message statusCode.

(** *** src/controllers/tokenController.js

    Properties the handlers assign that the Token schema does not declare
    ([servedAt], [cancelledAt], [cancelledBy], [cancellationReason],
    [completionNotes], [rating], [calledBy]) are not stored, and the
    [findByIdAndUpdate] calls of [updateCustomerStats] and
    [updateDepartmentStats] increment [statistics.*] paths that are not part
    of this model. *)

Module TokenController.

Definition set_token (tk : Token.t) (st : TokenState) : TokenState :=
  mkTokenState (save Token._id tk (tokens st)) (counters st) (customers st)
    (departments st).

(** [completeToken]: [token.servedAt] is never stored, so the service time
    the handler computes is 0; the pre-save hook recomputes it when
    [serviceStartedAt] is set. *)
Definition completeToken (tokenId : ObjectId) (now : Z) (st : TokenState)
  : TokenState * Response Token.t :=
  match findById Token._id tokenId (tokens st) with
  | None => (st, AppError "Token not found" 404)
  | Some token =>
    if negb (Token.status token =? "serving")%string
    then (st, AppError "Token is not being served" 400)
    else
      let serviceTime :=
        match Token.serviceStartedAt token with
        | Some started => minutesBetween now started
        | None => 0
        end in
      let token1 :=
        Token.mk (Token._id token) (Token.tokenNumber token)
          (Token.displayNumber token) (Token.customer token)
          (Token.department token) (Token.serviceType token)
          (Token.counter token) (Token.priority token)
          (Token.queuePosition token) "completed" (Token.issuedAt token)
          (Token.calledAt token) (Token.serviceStartedAt token) (Some now)
          serviceTime (Token.transferHistory token) (Token.notifiedCalled token)
          (Token.createdBy token) (Token.lastModifiedBy token)
          (Token.businessDate token) in
      (set_token token1 st, Json 200 token1)
  end.

(** [cancelToken] *)
Definition cancelToken (tokenId : ObjectId) (st : TokenState)
  : TokenState * Response Token.t :=
  match findById Token._id tokenId (tokens st) with
  | None => (st, AppError "Token not found" 404)
  | Some token =>
    if negb (str_in (Token.status token) ["waiting"; "called"])
    then (st, AppError "Token cannot be cancelled" 400)
    else
      let token1 :=
        Token.mk (Token._id token) (Token.tokenNumber token)
          (Token.displayNumber token) (Token.customer token)
          (Token.department token) (Token.serviceType token)
          (Token.counter token) (Token.priority token)
          (Token.queuePosition token) "cancelled" (Token.issuedAt token)
          (Token.calledAt token) (Token.serviceStartedAt token)
          (Token.completedAt token) (Token.serviceTime token)
          (Token.transferHistory token) (Token.notifiedCalled token)
          (Token.createdBy token) (Token.lastModifiedBy token)
          (Token.businessDate token) in
      (set_token token1 st, Json 200 token1)
  end.

(** [transferToken]: the pushed history entry
    [{ from: { department, counter }, to: { department, counter }, ... }]
    is kept with its four references. *)
Definition transferToken (tokenId targetDepartmentId : ObjectId)
  (targetCounterId : option ObjectId) (reason : string) (userId : ObjectId)
  (st : TokenState) : TokenState * Response Token.t :=
  match findById Token._id tokenId (tokens st) with
  | None => (st, AppError "Token not found" 404)
  | Some token =>
    if (Token.status token =? "completed")%string
       || (Token.status token =? "cancelled")%string
    then (st, AppError "Token cannot be transferred" 400)
    else
      let oldDepartment := Token.department token in
      let oldCounter := Token.counter token in
      let token1 :=
        Token.mk (Token._id token) (Token.tokenNumber token)
          (Token.displayNumber token) (Token.customer token)
          targetDepartmentId (Token.serviceType token)
          targetCounterId (Token.priority token)
          (Token.queuePosition token) "waiting" (Token.issuedAt token)
          (Token.calledAt token) (Token.serviceStartedAt token)
          (Token.completedAt token) (Token.serviceTime token)
          (Token.transferHistory token
           ++ [Token.mkTransfer oldDepartment targetDepartmentId oldCounter
                 targetCounterId reason userId])
          (Token.notifiedCalled token)
          (Token.createdBy token) (Token.lastModifiedBy token)
          (Token.businessDate token) in
      (set_token token1 st, Json 200 token1)
  end.

End TokenController.

(** *** src/controllers/customerController.js *)

Module CustomerController.

Definition activeTokenOf (customerId : ObjectId) (now : Z) (tk : Token.t) : bool :=
  oid_eqb (Token.customer tk) customerId
  && str_in (Token.status tk) ["waiting"; "called"; "in_service"]
  && Token.today now tk.

(** [exports.generateToken]; [priority] is the optional body field. The
    handler's [catch] answers every thrown error, the [RangeError] of
    [department.isOpen] included, with status 500. *)
Definition generateToken (customerId departmentId : ObjectId) (priority : option Z)
  (userId : ObjectId) (now : Z) (st : TokenState)
  : TokenState * Response Token.t :=
  match findById Customer._id customerId (customers st) with
  | None => (st, AppError "Customer not found" 404)
  | Some customer =>
    if Customer.archived customer then (st, AppError "Customer not found" 404)
    else
      match findById Department._id departmentId (departments st) with
      | None => (st, AppError "Department not found" 404)
      | Some department =>
        if Department.archived department
        then (st, AppError "Department not found" 404)
        else
          match Department.isOpen department with
          | Err _ => (st, AppError "Error generating token" 500)
          | Ok false => (st, AppError "Department is currently closed" 400)
          | Ok true =>
            match Counter.findAvailable departmentId (counters st) with
            | [] => (st, AppError "No available counters in this department" 400)
            | counter0 :: _ =>
              match List.filter (activeTokenOf customerId now) (tokens st) with
              | _ :: _ =>
                (st, AppError "Customer already has an active token" 400)
              | [] =>
                let effectivePriority :=
                  match priority with
                  | Some p => if p =? 0 then Customer.priority customer else p
                  | None => Customer.priority customer
                  end in
                match Token.generateToken (departments st) (tokens st)
                        departmentId (Some (Counter._id counter0)) customerId
                        effectivePriority userId now with
                | Err _ => (st, AppError "Error generating token" 500)
                | Ok (token, tokens1) =>
                  let customer1 :=
                    Customer.push_tokenHistory
                      (Customer.mkEntry (Token.tokenNumber token) departmentId
                         (Counter._id counter0) "waiting") customer in
                  (mkTokenState tokens1 (counters st)
                     (save Customer._id customer1 (customers st))
                     (departments st),
                   Json 201 token)
                end
              end
            end
          end
      end
  end.

End CustomerController.

(** ** Issuing tokens, one request after the other *)

Module Issuance.

Record Request : Type := mkRequest {
  departmentId : ObjectId;
  counterId : option ObjectId;
  customerId : ObjectId;
  priority : Z;
  userId : ObjectId
}.

(** One call of [Token.generateToken]; a call that throws stores nothing. *)
Definition step (depts : list Department.t) (now : Z) (tks : list Token.t)
  (r : Request) : list Token.t :=
  match Token.generateToken depts tks (departmentId r) (counterId r)
          (customerId r) (priority r) (userId r) now with
  | Ok (_, tks1) => tks1
  | Err _ => tks
  end.

Definition run (depts : list Department.t) (now : Z) (rs : list Request)
  (tks : list Token.t) : list Token.t :=
  fold_left (step depts now) rs tks.

(** All stored tokens are waiting tokens of the day of [now], and those of
    each department carry 1, 2, ... in the order they were stored. *)
Definition Inv (now : Z) (tks : list Token.t) : Prop :=
  (forall tk, In tk tks ->
     Token.status tk = "waiting" /\ Token.businessDate tk = startOfDay now)
  /\ forall d : ObjectId,
       map Token.queuePosition (List.filter (Token.inQueueOf d now) tks)
       = map Some (Zrange 1 (length (List.filter (Token.inQueueOf d now) tks))).

End Issuance.

(** ** Sample data: one morning at two departments *)

Module Sample.

(** 2024-12-01, 10:00 UTC. *)
Definition now : Z := 1733047200000.

Definition deptCS : Department.t := Department.mk 1%nat "CS" false "active".
Definition deptHR : Department.t := Department.mk 2%nat "HR" false "active".

Definition alice : Customer.t := Customer.mk 11%nat 5 false [].
Definition bob : Customer.t := Customer.mk 12%nat 5 false [].
Definition carol : Customer.t := Customer.mk 13%nat 5 false [].

Definition idleCounter : Counter.t :=
  Counter.mk 21%nat 1%nat "active" (Some 31%nat) None None false.

Definition busyCounter : Counter.t :=
  Counter.mk 22%nat 1%nat "busy" (Some 32%nat) (Some 7%nat) (Some (now - 60000)) false.


Definition opening : TokenState :=
  mkTokenState [] [idleCounter] [alice; bob; carol] [deptCS; deptHR].

(** A token numbered [seq] of the department with code [code], as
    [Token.generateToken] stores it on this day. *)
Definition token (i : ObjectId) (code : string) (seq : N)
  (customer department : ObjectId) (priority position : Z) (status : string)
  : Token.t :=
  Token.mk i (code ++ "-20241201-" ++ padStart 3 (decimal seq))
    (code ++ padStart 3 (decimal seq)) customer department "general" None
    priority (Some position) status now None None None 0 [] false 31%nat None
    (startOfDay now).

Definition tokenA : Token.t := token 1%nat "CS" 1 11%nat 1%nat 5 1 "waiting".
Definition tokenB : Token.t := token 2%nat "CS" 2 12%nat 1%nat 5 2 "waiting".
Definition tokenC : Token.t := token 3%nat "CS" 3 13%nat 1%nat 5 3 "waiting".
Definition tokenX : Token.t := token 4%nat "HR" 1 13%nat 2%nat 5 1 "waiting".


Definition threeWaiting : TokenState :=
  mkTokenState [tokenA; tokenB; tokenC] [idleCounter] [alice; bob; carol]
    [deptCS; deptHR].

Definition twoDepartments : TokenState :=
  mkTokenState [tokenA; tokenB; tokenX] [idleCounter] [alice; bob; carol]
    [deptCS; deptHR].

(** What the handlers leave in the token collection. *)
Definition after {A : Type} (r : TokenState * Response A) : TokenState := fst r.

(** The desk of that morning holding the tokens [tks]. *)
Definition desk (tks : list Token.t) : TokenState :=
  mkTokenState tks [idleCounter] [alice; bob; carol] [deptCS; deptHR].

(** A direct call of [Token.generateToken] for the department CS and its
    counter, and the collection after a sequence of such calls. *)
Definition issue (customerId : ObjectId) (priority : Z) : Issuance.Request :=
  Issuance.mkRequest 1%nat (Some 21%nat) customerId priority 31%nat.

Definition issued (rs : list Issuance.Request) (tks : list Token.t)
  : list Token.t :=
  Issuance.run [deptCS; deptHR] now rs tks.

(** The queue positions of a department's waiting tokens, in natural order. *)
Definition waitingPositions (departmentId : ObjectId) (st : TokenState) : list (option Z) :=
  map Token.queuePosition
    (List.filter (Token.waitingIn departmentId now) (tokens st)).


(** The thousand tokens CS-20241201-001 .. CS-20241201-1000 of one day. *)
Definition numbered (i : nat) : Token.t :=
  token i "CS" (N.of_nat i) 11%nat 1%nat 5 (Z.of_nat i) "completed".

Definition thousand : list Token.t := map numbered (seq 1 1000).

(** The project queue of the priority example. *)
Definition project (i : ObjectId) (priority : Z) : Project.t :=
  Project.mk i priority "pending" None None "general" [] None 0 false.

Definition anyProject : Queue.AcceptanceCriteria := Queue.mkCriteria [] 1 10 [].

Definition queue (type : string) : Queue.t :=
  Queue.mk 1%nat type 1000 "active" 1 false 0 0 None anyProject
    (Queue.mkPermissions [41%nat] [] [] []) 41%nat false.

Definition projectA : Project.t := project 51%nat 3.
Definition projectB : Project.t := project 52%nat 8.
Definition projectC : Project.t := project 53%nat 5.

Definition emptyQueue (type : string) : QueueService.State :=
  QueueService.mkState [queue type] [projectA; projectB; projectC].

(** The same queue holding A, B and C at positions 1, 2 and 3. *)
Definition queued (i : ObjectId) (priority position : Z) : Project.t :=
  Project.mk i priority "queued" (Some position) (Some 1%nat) "general" []
    None 0 false.

Definition queuedA : Project.t := queued 51%nat 5 1.
Definition queuedB : Project.t := queued 52%nat 5 2.
Definition queuedC : Project.t := queued 53%nat 5 3.

Definition fullQueue : QueueService.State :=
  QueueService.mkState [Queue.set_currentSize 3 (queue "fifo")]
    [queuedA; queuedB; queuedC].

(** [getNextProject] of the stored queue. *)
Definition nextOf (queueId : ObjectId) (st : QueueService.State) : option Project.t :=
  match findById Queue._id queueId (QueueService.queues st) with
  | Some q => Queue.getNextProject q (QueueService.projects st)
  | None => None
  end.

Definition positionOf (i : ObjectId) (st : QueueService.State) : option (option Z) :=
  option_map Project.queuePosition (findById Project._id i (QueueService.projects st)).

End Sample.

(** ** The contiguity invariant of a project queue *)

Module Contiguity.

Definition memberOf (queueId : ObjectId) (p : Project.t) : bool :=
  ref_is (Project.queueId p) queueId.

(** The projects a queue holds. *)
Definition members (queueId : ObjectId) (ps : list Project.t) : list Project.t :=
  List.filter (memberOf queueId) ps.

(** The listed projects carry the positions [start], [start + 1], ... *)
Fixpoint numberedFrom (start : Z) (l : list Project.t) : Prop :=
  match l with
  | [] => True
  | p :: l' => Project.queuePosition p = Some start /\ numberedFrom (start + 1) l'
  end.

(** No project comes before one of higher priority. *)
Fixpoint nonIncreasing (l : list Project.t) : Prop :=
  match l with
  | [] => True
  | p :: l' =>
    Forall (fun x => Project.priority x <= Project.priority p) l'
    /\ nonIncreasing l'
  end.

(** The queue's projects, listed in some order, are numbered 1, 2, ..., the
    queue's size statistic counts them, all are [queued], and in a priority
    queue the order is by priority. *)
Definition QueueInv (q : Queue.t) (ps : list Project.t) : Prop :=
  exists order : list Project.t,
    Permutation order (members (Queue._id q) ps)
    /\ numberedFrom 1 order
    /\ Queue.currentSize q = Z.of_nat (length order)
    /\ Forall (fun p => Project.status p = "queued") order
    /\ (Queue.isPriorityType (Queue.type q) = true -> nonIncreasing order).

Definition StateInv (st : QueueService.State) : Prop :=
  NoDup (map Project._id (QueueService.projects st))
  /\ NoDup (map Queue._id (QueueService.queues st))
  /\ forall q, In q (QueueService.queues st) ->
       Queue.autoStart q = false /\ QueueInv q (QueueService.projects st).

(** Where the runs start: distinct identifiers, queues that do not start
    projects by themselves, and nothing enqueued yet. *)
Definition Initial (st : QueueService.State) : Prop :=
  NoDup (map Project._id (QueueService.projects st))
  /\ NoDup (map Queue._id (QueueService.queues st))
  /\ (forall q, In q (QueueService.queues st) ->
        Queue.autoStart q = false /\ Queue.currentSize q = 0)
  /\ (forall p, In p (QueueService.projects st) -> Project.queueId p = None).

(** The per-document effect of [updateMany(filter, { $inc: ... })]. *)
Definition shifted (f : Project.t -> bool) (d : Z) (p : Project.t) : Project.t :=
  if f p then Project.inc_queuePosition d p else p.

(** The project as [addProject] saves it. *)
Definition enqueued (q : Queue.t) (position : Z) (project : Project.t) : Project.t :=
  Project.set_status "queued"
    (Project.set_queuePosition (Some position)
       (Project.set_queueId (Some (Queue._id q)) project)).

(** The project as [removeProject] saves it. *)
Definition dequeued (project : Project.t) : Project.t :=
  Project.set_queuePosition None (Project.set_queueId None project).

(** [{ priority: { $gt: project.priority } }] *)
Definition higherThan (project p : Project.t) : bool :=
  Project.priority project <? Project.priority p.

End Contiguity.

(** ** More of src/models/Queue.js and src/services/queueService.js *)

Module QueueAdmin.

(** [queueSchema.virtual('availableSlots')] *)
Definition availableSlots (q : Queue.t) : Z :=
  Z.max 0 (Queue.capacity q - Queue.currentSize q).

(** [queueSchema.virtual('processingCapacity')] *)
Definition processingCapacity (q : Queue.t) : Z :=
  Z.max 0 (Queue.concurrency q - Queue.processing q).

Definition set_status (v : string) (q : Queue.t) : Queue.t :=
  Queue.mk (Queue._id q) (Queue.type q) (Queue.capacity q) v
    (Queue.concurrency q) (Queue.autoStart q) (Queue.currentSize q)
    (Queue.processing q) (Queue.lastProcessedAt q)
    (Queue.acceptanceCriteria q) (Queue.permissions q) (Queue.createdBy q)
    (Queue.archived q).

Definition with_queues (qs : list Queue.t) (st : QueueService.State)
  : QueueService.State :=
  QueueService.mkState qs (QueueService.projects st).

(** [pauseQueue(queueId, userId)] *)
Definition pauseQueue (queueId userId : ObjectId) (st : QueueService.State)
  : result QueueService.State :=
  match QueueService.getQueueById queueId userId st with
  | None => Err "Queue not found or access denied"
  | Some queue =>
    Ok (with_queues (save Queue._id (set_status "paused" queue)
                       (QueueService.queues st)) st)
  end.

(** The [while] loop of [resumeQueue]: the test reads the queue object
    loaded before the loop, whose [stats.processing] no call updates, so the
    loop is left when [processNextProject] answers [null]. [fuel] bounds the
    number of rounds. *)
Fixpoint resumeLoop (fuel : nat) (queue : Queue.t) (queueId : ObjectId) (now : Z)
  (st : QueueService.State) : option QueueService.State :=
  if Queue.processing queue <? Queue.concurrency queue then
    match fuel with
    | O => None
    | S fuel' =>
      match QueueService.processNextProject queueId now st with
      | (st1, Some _) => resumeLoop fuel' queue queueId now st1
      | (st1, None) => Some st1
      end
    end
  else Some st.

(** [resumeQueue(queueId, userId)]; [None] when the fuel does not suffice. *)
Definition resumeQueue (fuel : nat) (queueId userId : ObjectId) (now : Z)
  (st : QueueService.State) : option (result QueueService.State) :=
  match QueueService.getQueueById queueId userId st with
  | None => Some (Err "Queue not found or access denied")
  | Some queue =>
    let queue1 := set_status "active" queue in
    match resumeLoop fuel queue1 queueId now
            (with_queues (save Queue._id queue1 (QueueService.queues st)) st) with
    | Some st1 => Some (Ok st1)
    | None => None
    end
  end.

(** The update of [archiveQueue]'s [updateMany]:
    [{ status: 'pending', queueId: null, queuePosition: null }]. *)
Definition released (p : Project.t) : Project.t :=
  Project.set_status "pending"
    (Project.set_queuePosition None (Project.set_queueId None p)).

(** [archiveQueue(queueId, userId)]; the [archivedAt] timestamp, which no
    code reads, is not part of the queue record here. *)
Definition archiveQueue (queueId : ObjectId) (userId : QueueService.UserId)
  (st : QueueService.State) : result QueueService.State :=
  match QueueService.getQueueById queueId (QueueService.idOf userId) st with
  | None => Err "Queue not found or access denied"
  | Some queue =>
    let canArchive :=
      QueueService.isCreator queue userId
      || QueueService.includes (Queue.owners (Queue.permissions queue)) userId in
    if negb canArchive then Err "Insufficient permissions to archive queue"
    else
      let projects1 :=
        updateMany (Queue.queuedIn queue) released (QueueService.projects st) in
      let queue1 :=
        Queue.mk (Queue._id queue) (Queue.type queue) (Queue.capacity queue)
          "disabled" (Queue.concurrency queue) (Queue.autoStart queue)
          (Queue.currentSize queue) (Queue.processing queue)
          (Queue.lastProcessedAt queue) (Queue.acceptanceCriteria queue)
          (Queue.permissions queue) (Queue.createdBy queue) true in
      Ok (QueueService.mkState
            (save Queue._id queue1 (QueueService.queues st)) projects1)
  end.

(** The size statistic respects the capacity. *)
Definition fits (q : Queue.t) : Prop :=
  Queue.currentSize q <= Queue.capacity q /\ 0 <= Queue.capacity q.

End QueueAdmin.

(** ** The project controller's queue handlers *)

Module ProjectController.

(** [Model.deleteOne()] of a loaded document. *)
Definition deleteOne (i : ObjectId) (ps : list Project.t) : list Project.t :=
  List.filter (fun p => negb (oid_eqb (Project._id p) i)) ps.

(** [addToQueue]: an error thrown by the service is passed to the error
    handler, answered here with status 500. *)
Definition addToQueue (queueId projectId : ObjectId) (now : Z)
  (st : QueueService.State) : QueueService.State * Response Z :=
  match QueueService.addProjectToQueue queueId projectId now st with
  | Ok (st1, position) => (st1, Json 200 position)
  | Err msg => (st, AppError msg 500)
  end.

(** [removeFromQueue] *)
Definition removeFromQueue (projectId : ObjectId) (st : QueueService.State)
  : QueueService.State * Response unit :=
  match findById Project._id projectId (QueueService.projects st) with
  | None => (st, AppError "Project not found" 404)
  | Some project =>
    match Project.queueId project with
    | None => (st, AppError "Project is not in a queue" 400)
    | Some queueId =>
      match QueueService.removeProjectFromQueue queueId projectId st with
      | Ok st1 => (st1, Json 200 tt)
      | Err msg => (st, AppError msg 500)
      end
    end
  end.

(** [deleteProject]; [canDelete] is the outcome of the handler's access
    check (admin role or creator of the project). A project whose queue is
    not found is deleted without any removal. *)
Definition deleteProject (canDelete : bool) (projectId : ObjectId)
  (st : QueueService.State) : QueueService.State * Response unit :=
  match findById Project._id projectId (QueueService.projects st) with
  | None => (st, AppError "Project not found" 404)
  | Some project =>
    if negb canDelete then (st, AppError "Access denied" 403)
    else
      match Project.queueId project with
      | None =>
        (QueueService.mkState (QueueService.queues st)
           (deleteOne projectId (QueueService.projects st)), Json 200 tt)
      | Some queueId =>
        match findById Queue._id queueId (QueueService.queues st) with
        | None =>
          (QueueService.mkState (QueueService.queues st)
             (deleteOne projectId (QueueService.projects st)), Json 200 tt)
        | Some queue =>
          match Queue.removeProject queue project (QueueService.projects st) with
          | Err msg => (st, AppError msg 500)
          | Ok (queue1, projects1) =>
            (QueueService.mkState
               (save Queue._id queue1 (QueueService.queues st))
               (deleteOne projectId projects1), Json 200 tt)
          end
        end
      end
  end.

Inductive Request : Type :=
| AddToQueue (queueId projectId : ObjectId)
| RemoveFromQueue (projectId : ObjectId)
| DeleteProject (canDelete : bool) (projectId : ObjectId).

Definition step (now : Z) (st : QueueService.State) (r : Request)
  : QueueService.State :=
  match r with
  | AddToQueue queueId projectId => fst (addToQueue queueId projectId now st)
  | RemoveFromQueue projectId => fst (removeFromQueue projectId st)
  | DeleteProject canDelete projectId => fst (deleteProject canDelete projectId st)
  end.

Definition run (now : Z) (rs : list Request) (st : QueueService.State)
  : QueueService.State :=
  fold_left (step now) rs st.

End ProjectController.

(** ** The token handlers, one request after the other *)

Module TokenDesk.

(** [callToken] of src/controllers/tokenController.js; [calledBy] is not a
    path of the Token schema and is not stored. The counter is only read. *)
Definition callToken (tokenId counterId : ObjectId) (now : Z) (st : TokenState)
  : TokenState * Response Token.t :=
  match findById Token._id tokenId (tokens st) with
  | None => (st, AppError "Token not found" 404)
  | Some token =>
    if negb (Token.status token =? "waiting")%string
    then (st, AppError "Token is not in waiting status" 400)
    else
      match findById Counter._id counterId (counters st) with
      | None => (st, AppError "Counter not available" 400)
      | Some counter =>
        if negb (Counter.status counter =? "active")%string
        then (st, AppError "Counter not available" 400)
        else
          let token1 :=
            Token.mk (Token._id token) (Token.tokenNumber token)
              (Token.displayNumber token) (Token.customer token)
              (Token.department token) (Token.serviceType token)
              (Some counterId) (Token.priority token)
              (Token.queuePosition token) "called" (Token.issuedAt token)
              (Some now) (Token.serviceStartedAt token)
              (Token.completedAt token) (Token.serviceTime token)
              (Token.transferHistory token) (Token.notifiedCalled token)
              (Token.createdBy token) (Token.lastModifiedBy token)
              (Token.businessDate token) in
          (TokenController.set_token token1 st, Json 200 token1)
      end
  end.

(** The [enum] of the [status] path of the Token schema. *)
Definition statusEnum : list string :=
  ["waiting"; "called"; "in_service"; "completed"; "cancelled"; "no_show";
   "transferred"].

(** [serveToken] of src/controllers/tokenController.js; [servedAt] is not
    a path of the Token schema, and [servedBy] is a field no handler reads,
    which this record does not carry. [token.save()] validates the status
    against the enum; the validation error goes to [next], answered here
    with status 500, and nothing is stored. *)
Definition serveToken (tokenId : ObjectId) (st : TokenState)
  : TokenState * Response Token.t :=
  match findById Token._id tokenId (tokens st) with
  | None => (st, AppError "Token not found" 404)
  | Some token =>
    if negb (Token.status token =? "called")%string
    then (st, AppError "Token must be called first" 400)
    else
      let token1 :=
        Token.mk (Token._id token) (Token.tokenNumber token)
          (Token.displayNumber token) (Token.customer token)
          (Token.department token) (Token.serviceType token)
          (Token.counter token) (Token.priority token)
          (Token.queuePosition token) "serving" (Token.issuedAt token)
          (Token.calledAt token) (Token.serviceStartedAt token)
          (Token.completedAt token) (Token.serviceTime token)
          (Token.transferHistory token) (Token.notifiedCalled token)
          (Token.createdBy token) (Token.lastModifiedBy token)
          (Token.businessDate token) in
      if negb (str_in (Token.status token1) statusEnum)
      then (st, AppError "Token validation failed: status" 500)
      else (TokenController.set_token token1 st, Json 200 token1)
  end.

(** [generateToken] of src/controllers/tokenController.js (POST
    /api/tokens). [department.isActive] is undefined, so every request for
    an existing customer ends at the department test; the statement that
    would follow, [department.operatingHours.find(...)], calls a method
    the [operatingHours] object does not have. *)
Definition generateToken (customerId departmentId : ObjectId) (st : TokenState)
  : TokenState * Response Token.t :=
  match findById Customer._id customerId (customers st) with
  | None => (st, AppError "Customer not found" 404)
  | Some _ =>
    match findById Department._id departmentId (departments st) with
    | None => (st, AppError "Department not found or inactive" 404)
    | Some department =>
      if negb (Department.isActive department)
      then (st, AppError "Department not found or inactive" 404)
      else (st, AppError "department.operatingHours.find is not a function" 500)
    end
  end.

(** [callNextToken] invoked on the stored counter [counterId]; the method
    saves the token and the counter itself. *)
Definition callNext (counterId : ObjectId) (now : Z) (st : TokenState)
  : TokenState :=
  match findById Counter._id counterId (counters st) with
  | None => st
  | Some counter =>
    match Counter.callNextToken counter now (tokens st) with
    | (counter1, tokens1, Some _) =>
      mkTokenState tokens1 (save Counter._id counter1 (counters st))
        (customers st) (departments st)
    | (_, _, None) => st
    end
  end.

Inductive Request : Type :=
| Issue (customerId departmentId : ObjectId) (priority : option Z)
        (userId : ObjectId)
| Generate (customerId departmentId : ObjectId)
| Call (tokenId counterId : ObjectId)
| CallNext (counterId : ObjectId)
| Serve (tokenId : ObjectId)
| Complete (tokenId : ObjectId)
| Cancel (tokenId : ObjectId)
| Transfer (tokenId targetDepartmentId : ObjectId)
           (targetCounterId : option ObjectId) (reason : string)
           (userId : ObjectId).

(** One request, received at the time [fst r]. *)
Definition step (st : TokenState) (r : Z * Request) : TokenState :=
  let now := fst r in
  match snd r with
  | Issue customerId departmentId priority userId =>
    fst (CustomerController.generateToken customerId departmentId priority
           userId now st)
  | Generate customerId departmentId =>
    fst (generateToken customerId departmentId st)
  | Call tokenId counterId => fst (callToken tokenId counterId now st)
  | CallNext counterId => callNext counterId now st
  | Serve tokenId => fst (serveToken tokenId st)
  | Complete tokenId => fst (TokenController.completeToken tokenId now st)
  | Cancel tokenId => fst (TokenController.cancelToken tokenId st)
  | Transfer tokenId targetDepartmentId targetCounterId reason userId =>
    fst (TokenController.transferToken tokenId targetDepartmentId
           targetCounterId reason userId st)
  end.

Definition run (rs : list (Z * Request)) (st : TokenState) : TokenState :=
  fold_left step rs st.


(** What is printed on the ticket at issuance. *)
Definition ticket (tk : Token.t) : string * ObjectId * Z * option Z * Z * Z :=
  (Token.tokenNumber tk, Token.customer tk, Token.priority tk,
   Token.queuePosition tk, Token.issuedAt tk, Token.businessDate tk).

(** [completed] and [cancelled], the states no handler leaves. *)
Definition closed (tk : Token.t) : bool :=
  (Token.status tk =? "completed")%string
  || (Token.status tk =? "cancelled")%string.


(** What every handler keeps of the stored tokens: the identifiers stay
    distinct, no token is dropped, no ticket is rewritten, and a closed
    token is left as it is. *)
Definition Kept (st st1 : TokenState) : Prop :=
  NoDup (map Token._id (tokens st)) ->
  NoDup (map Token._id (tokens st1))
  /\ forall (i : ObjectId) (tk : Token.t),
       findById Token._id i (tokens st) = Some tk ->
       exists tk' : Token.t,
         findById Token._id i (tokens st1) = Some tk'
         /\ ticket tk' = ticket tk
         /\ (closed tk = true -> tk' = tk).

End TokenDesk.

(** ** Sample runs of the project queue and of the token desk *)

Module Scenario.

(** A and B are added to the sample queue, then C. *)
Definition addAB : list QueueService.Request :=
  [QueueService.AddProject 1%nat 51%nat; QueueService.AddProject 1%nat 52%nat].

Definition addABC : list QueueService.Request :=
  addAB ++ [QueueService.AddProject 1%nat 53%nat].

Definition afterAB (type : string) : QueueService.State :=
  QueueService.run 0 addAB (Sample.emptyQueue type).

Definition afterABC (type : string) : QueueService.State :=
  QueueService.run 0 addABC (Sample.emptyQueue type).

(** The sample queue as it is stored when it holds [n] projects. *)
Definition holding (n : Z) (type : string) : Queue.t :=
  Queue.set_currentSize n (Sample.queue type).

(** A, B and C are added through the controller, then B is deleted. *)
Definition addThenDelete : list ProjectController.Request :=
  [ProjectController.AddToQueue 1%nat 51%nat;
   ProjectController.AddToQueue 1%nat 52%nat;
   ProjectController.AddToQueue 1%nat 53%nat;
   ProjectController.DeleteProject true 52%nat].

(** The full sample queue after [pauseQueue] and after [archiveQueue]. *)
Definition paused : QueueService.State :=
  QueueService.mkState
    [QueueAdmin.set_status "paused" (holding 3 "fifo")]
    [Sample.queuedA; Sample.queuedB; Sample.queuedC].

Definition archived : QueueService.State :=
  match QueueAdmin.archiveQueue 1%nat (QueueService.IdString 41%nat)
          Sample.fullQueue with
  | Ok st => st
  | Err _ => Sample.fullQueue
  end.

(** A lifo queue holding A, B and C, and a project D that is in no queue. *)
Definition projectD : Project.t := Sample.project 54%nat 5.

Definition withD : list Project.t :=
  [Sample.queuedA; Sample.queuedB; Sample.queuedC; projectD].

(** A morning at the desk: A is cancelled, the counter calls the next
    token, which is B, and is asked to serve it; C is transferred to HR. *)
Definition morning : list (Z * TokenDesk.Request) :=
  [(Sample.now, TokenDesk.Cancel 1%nat);
   (Sample.now + 60000, TokenDesk.CallNext 21%nat);
   (Sample.now + 120000, TokenDesk.Serve 2%nat);
   (Sample.now + 180000,
    TokenDesk.Transfer 3%nat 2%nat None "wrong desk" 31%nat)].

Definition cancelledA : Token.t :=
  Sample.token 1%nat "CS" 1 11%nat 1%nat 5 1 "cancelled".


End Scenario.

(** * Properties *)

Unset Implicit Arguments.
Open Scope list_scope.
Import Contiguity.

(** ** Collections *)

Section CollectionFacts.
Variable Doc : Type.
Variable doc_id : Doc -> ObjectId.

Lemma oid_eqb_eq (a b : ObjectId) : oid_eqb a b = true <-> a = b.
Proof. apply Nat.eqb_eq. Qed.

Lemma oid_eqb_neq (a b : ObjectId) : oid_eqb a b = false <-> a <> b.
Proof. apply Nat.eqb_neq. Qed.

Lemma findById_id (i : ObjectId) (coll : list Doc) (d : Doc) :
  findById doc_id i coll = Some d -> doc_id d = i /\ In d coll.
Proof.
  unfold findById. intros H. apply find_some in H. destruct H as [Hin Heq].
  apply oid_eqb_eq in Heq. auto.
Qed.

Lemma findById_map_other (i : ObjectId) (g : Doc -> Doc) (coll : list Doc) :
  (forall d, doc_id (g d) = doc_id d) ->
  findById doc_id i (map g coll) = option_map g (findById doc_id i coll).
Proof.
  intros Hg. unfold findById. induction coll as [|d coll IH]; simpl.
  - reflexivity.
  - rewrite Hg. destruct (oid_eqb (doc_id d) i); simpl; auto.
Qed.

Lemma findById_app_none (i : ObjectId) (coll more : list Doc) :
  findById doc_id i more = None ->
  findById doc_id i (coll ++ more) = findById doc_id i coll.
Proof.
  unfold findById. intros Hm. induction coll as [|d coll IH]; simpl.
  - exact Hm.
  - destruct (oid_eqb (doc_id d) i); auto.
Qed.

Lemma findById_replace_other (i : ObjectId) (d : Doc) (coll : list Doc) :
  i <> doc_id d ->
  findById doc_id i
    (map (fun x => if oid_eqb (doc_id x) (doc_id d) then d else x) coll)
  = findById doc_id i coll.
Proof.
  intros Hne. unfold findById. induction coll as [|x coll IH]; simpl.
  - reflexivity.
  - destruct (oid_eqb (doc_id x) (doc_id d)) eqn:Hx.
    + apply oid_eqb_eq in Hx.
      assert (Hd : oid_eqb (doc_id d) i = false)
        by (apply oid_eqb_neq; congruence).
      assert (Hx' : oid_eqb (doc_id x) i = false)
        by (apply oid_eqb_neq; congruence).
      rewrite Hd, Hx'. exact IH.
    + destruct (oid_eqb (doc_id x) i); auto.
Qed.

(** Saving a document does not touch the others. *)
Lemma findById_save_other (i : ObjectId) (d : Doc) (coll : list Doc) :
  i <> doc_id d ->
  findById doc_id i (save doc_id d coll) = findById doc_id i coll.
Proof.
  intros Hne. unfold save.
  destruct (existsb (fun x => oid_eqb (doc_id x) (doc_id d)) coll).
  - apply findById_replace_other; assumption.
  - apply findById_app_none. unfold findById. simpl.
    assert (Hd : oid_eqb (doc_id d) i = false)
      by (apply oid_eqb_neq; congruence).
    rewrite Hd. reflexivity.
Qed.

(** A saved document is found under its [_id]. *)
Lemma findById_save_same (d : Doc) (coll : list Doc) :
  findById doc_id (doc_id d) (save doc_id d coll) = Some d.
Proof.
  assert (Hd : oid_eqb (doc_id d) (doc_id d) = true) by now apply oid_eqb_eq.
  unfold save, findById.
  destruct (existsb (fun x => oid_eqb (doc_id x) (doc_id d)) coll) eqn:E.
  - induction coll as [|x coll IH]; simpl in *; [discriminate|].
    destruct (oid_eqb (doc_id x) (doc_id d)) eqn:Ex; simpl.
    + now rewrite Hd.
    + rewrite Ex. now apply IH.
  - induction coll as [|x coll IH]; simpl in *.
    + now rewrite Hd.
    + apply orb_false_iff in E. destruct E as [Ex E]. rewrite Ex. now apply IH.
Qed.

Lemma filter_none (f : Doc -> bool) (coll : list Doc) :
  (forall d, In d coll -> f d = false) -> List.filter f coll = [].
Proof.
  induction coll as [|d coll IH]; simpl; intros H.
  - reflexivity.
  - rewrite (H d (or_introl eq_refl)). apply IH. intros x Hx. apply H. now right.
Qed.

End CollectionFacts.

(** ** The token lifecycle handlers *)

(** C6. Completing a token that is still [waiting] is refused with the
    handler's status-guard error (AppError 400, "Token is not being
    served"), and neither the token nor anything else in the collections
    is written. *)
Theorem completeToken_rejects_waiting :
  forall (tokenId : ObjectId) (now : Z) (st : TokenState) (token : Token.t),
    findById Token._id tokenId (tokens st) = Some token ->
    Token.status token = "waiting" ->
    TokenController.completeToken tokenId now st
    = (st, AppError "Token is not being served" 400).
Proof.
  intros tokenId now st token Hfind Hstatus.
  unfold TokenController.completeToken. rewrite Hfind, Hstatus. reflexivity.
Qed.

Lemma completeToken_rejects_waiting_witness :
  findById Token._id 2%nat (tokens Sample.threeWaiting) = Some Sample.tokenB
  /\ Token.status Sample.tokenB = "waiting"
  /\ TokenController.completeToken 2%nat Sample.now Sample.threeWaiting
     = (Sample.threeWaiting, AppError "Token is not being served" 400).
Proof.
  split; [reflexivity|]. split; [reflexivity|].
  apply (@completeToken_rejects_waiting 2%nat Sample.now Sample.threeWaiting
           Sample.tokenB); reflexivity.
Defined.

(** C10. With no waiting token of the counter's department on the current
    business date, [callNextToken] returns [null] and writes nothing: the
    counter (so its currentToken, status and lastTokenCalledAt) and the
    token collection are returned as they were. *)
Theorem callNextToken_nothing_waiting :
  forall (c : Counter.t) (now : Z) (tks : list Token.t),
    (forall tk, In tk tks -> Token.waitingIn (Counter.department c) now tk = false) ->
    Counter.callNextToken c now tks = (c, tks, None).
Proof.
  intros c now tks Hnone.
  unfold Counter.callNextToken, Counter.nextWaiting, findOneSorted.
  rewrite (filter_none _ _ _ Hnone). reflexivity.
Qed.

Lemma callNextToken_nothing_waiting_witness :
  (forall tk, In tk [Sample.tokenX] ->
     Token.waitingIn (Counter.department Sample.busyCounter) Sample.now tk = false)
  /\ Counter.callNextToken Sample.busyCounter Sample.now [Sample.tokenX]
     = (Sample.busyCounter, [Sample.tokenX], None).
Proof.
  assert (H : forall tk, In tk [Sample.tokenX] ->
     Token.waitingIn (Counter.department Sample.busyCounter) Sample.now tk = false).
  { intros tk [<-|[]]. reflexivity. }
  split; [exact H|].
  apply (@callNextToken_nothing_waiting Sample.busyCounter Sample.now
           [Sample.tokenX] H).
Defined.

(** C8, as the claim states it, fails: a counter that already holds token 7
    calls the next waiting token all the same. *)
Lemma callNextToken_busy_counter_calls :
  Counter.currentToken Sample.busyCounter = Some 7%nat
  /\ option_map Token._id
       (snd (Counter.callNextToken Sample.busyCounter Sample.now
               [Sample.tokenA; Sample.tokenB])) = Some 1%nat
  /\ map Token.status
       (snd (fst (Counter.callNextToken Sample.busyCounter Sample.now
                    [Sample.tokenA; Sample.tokenB]))) = ["called"; "waiting"]
  /\ Counter.currentToken
       (fst (fst (Counter.callNextToken Sample.busyCounter Sample.now
                    [Sample.tokenA; Sample.tokenB]))) = Some 1%nat.
Proof. vm_compute. repeat split. Qed.

(** C8, amended. [callNextToken] has no busy check: for a counter whose
    currentToken is non-null it still picks the department's next waiting
    token, marks it [called] for this counter, and overwrites currentToken
    with it; no error is raised. *)
Theorem callNextToken_overwrites_currentToken :
  forall (c : Counter.t) (held : ObjectId) (now : Z) (tks : list Token.t)
         (nextToken : Token.t),
    Counter.currentToken c = Some held ->
    Counter.nextWaiting c now tks = Some nextToken ->
    exists (c1 : Counter.t) (called : Token.t),
      Counter.callNextToken c now tks
      = (c1, save Token._id called tks, Some called)
      /\ Token._id called = Token._id nextToken
      /\ Token.status called = "called"
      /\ Token.counter called = Some (Counter._id c)
      /\ Counter.currentToken c1 = Some (Token._id nextToken)
      /\ Counter.status c1 = "busy"
      /\ Counter.lastTokenCalledAt c1 = Some now.
Proof.
  intros c held now tks nextToken _ Hnext.
  unfold Counter.callNextToken. rewrite Hnext.
  eexists. eexists. split; [reflexivity|].
  simpl. repeat split.
Qed.

Lemma callNextToken_overwrites_currentToken_witness :
  Counter.currentToken Sample.busyCounter = Some 7%nat
  /\ Counter.nextWaiting Sample.busyCounter Sample.now
       [Sample.tokenA; Sample.tokenB] = Some Sample.tokenA
  /\ exists (c1 : Counter.t) (called : Token.t),
      Counter.callNextToken Sample.busyCounter Sample.now
        [Sample.tokenA; Sample.tokenB]
      = (c1, save Token._id called [Sample.tokenA; Sample.tokenB], Some called)
      /\ Token._id called = Token._id Sample.tokenA
      /\ Token.status called = "called"
      /\ Token.counter called = Some (Counter._id Sample.busyCounter)
      /\ Counter.currentToken c1 = Some (Token._id Sample.tokenA)
      /\ Counter.status c1 = "busy"
      /\ Counter.lastTokenCalledAt c1 = Some Sample.now.
Proof.
  split; [reflexivity|]. split; [reflexivity|].
  apply (@callNextToken_overwrites_currentToken Sample.busyCounter 7%nat
           Sample.now [Sample.tokenA; Sample.tokenB] Sample.tokenA);
    reflexivity.
Defined.

(** C5, as the claim states it, fails: transferring waiting token A (CS,
    position 1) to HR leaves B alone in CS at position 2, which is not
    compacted, and puts A into HR with its old position 1, the position
    token X already has there. *)
Lemma transferToken_no_resequencing :
  Sample.waitingPositions 1%nat Sample.twoDepartments = [Some 1; Some 2]
  /\ Sample.waitingPositions 2%nat Sample.twoDepartments = [Some 1]
  /\ Sample.waitingPositions 1%nat
       (Sample.after (TokenController.transferToken 1%nat 2%nat None "wrong desk"
                        31%nat Sample.twoDepartments)) = [Some 2]
  /\ Sample.waitingPositions 2%nat
       (Sample.after (TokenController.transferToken 1%nat 2%nat None "wrong desk"
                        31%nat Sample.twoDepartments)) = [Some 1; Some 1].
Proof. vm_compute. repeat split. Qed.

(** C5, amended. Transferring a [waiting] token through the handler moves it
    to the target department with status [waiting] (so it leaves the origin's
    waiting set and joins the destination's), but no queue position is
    written: the token keeps the position it had and every other token of
    either department is stored unchanged. *)
Theorem transferToken_moves_without_positions :
  forall (tokenId target : ObjectId) (targetCounter : option ObjectId)
         (reason : string) (userId : ObjectId) (st : TokenState) (token : Token.t),
    findById Token._id tokenId (tokens st) = Some token ->
    Token.status token = "waiting" ->
    exists token1 : Token.t,
      TokenController.transferToken tokenId target targetCounter reason userId st
      = (TokenController.set_token token1 st, Json 200 token1)
      /\ Token._id token1 = tokenId
      /\ Token.status token1 = "waiting"
      /\ Token.department token1 = target
      /\ Token.queuePosition token1 = Token.queuePosition token
      /\ forall i : ObjectId, i <> tokenId ->
           findById Token._id i (tokens (TokenController.set_token token1 st))
           = findById Token._id i (tokens st).
Proof.
  intros tokenId target targetCounter reason userId st token Hfind Hstatus.
  destruct (findById_id _ _ _ _ _ Hfind) as [Hid _].
  unfold TokenController.transferToken. rewrite Hfind, Hstatus. simpl.
  eexists. split; [reflexivity|]. simpl.
  repeat split; try assumption.
  intros i Hi. apply findById_save_other. simpl. congruence.
Qed.

Lemma transferToken_moves_without_positions_witness :
  findById Token._id 1%nat (tokens Sample.twoDepartments) = Some Sample.tokenA
  /\ Token.status Sample.tokenA = "waiting"
  /\ exists token1 : Token.t,
      TokenController.transferToken 1%nat 2%nat None "wrong desk" 31%nat
        Sample.twoDepartments
      = (TokenController.set_token token1 Sample.twoDepartments, Json 200 token1)
      /\ Token._id token1 = 1%nat
      /\ Token.status token1 = "waiting"
      /\ Token.department token1 = 2%nat
      /\ Token.queuePosition token1 = Token.queuePosition Sample.tokenA
      /\ forall i : ObjectId, i <> 1%nat ->
           findById Token._id i
             (tokens (TokenController.set_token token1 Sample.twoDepartments))
           = findById Token._id i (tokens Sample.twoDepartments).
Proof.
  split; [reflexivity|]. split; [reflexivity|].
  apply (@transferToken_moves_without_positions 1%nat 2%nat None "wrong desk"
           31%nat Sample.twoDepartments Sample.tokenA); reflexivity.
Defined.

(** The model's own [transferToken] writes no position either, and leaves
    the token in status [transferred]. *)
Lemma transferToken_method_effect :
  forall (newDepartment : ObjectId) (newCounter : option ObjectId)
         (reason : string) (userId : ObjectId) (tk : Token.t),
    Token.status (Token.transferToken newDepartment newCounter reason userId tk)
    = "transferred"
    /\ Token.department (Token.transferToken newDepartment newCounter reason userId tk)
       = newDepartment
    /\ Token.queuePosition (Token.transferToken newDepartment newCounter reason userId tk)
       = Token.queuePosition tk.
Proof. intros. repeat split. Qed.


(** C7. Once CS-20241201-1000 exists the generator returns it again: the
    last token is chosen by comparing token numbers as strings, where
    "...-999" sorts after "...-1000", so the next number is 999 + 1 for
    ever after, and every further issuance of the day runs into the unique
    index. *)
Theorem generateTokenNumber_repeats_after_999 :
  In "CS-20241201-1000" (map Token.tokenNumber Sample.thousand)
  /\ Token.generateTokenNumber [Sample.deptCS] Sample.thousand 1%nat Sample.now
     = Ok ("CS-20241201-1000", "CS1000")
  /\ Token.generateToken [Sample.deptCS] Sample.thousand 1%nat None 12%nat 5
       31%nat Sample.now
     = Err "E11000 duplicate key error".
Proof.
  split; [|split].
  - apply (in_map Token.tokenNumber Sample.thousand (Sample.numbered 1000)).
    unfold Sample.thousand. apply in_map. apply in_seq. lia.
  - vm_compute. reflexivity.
  - vm_compute. reflexivity.
Qed.

(** Below 999 the generator counts on: after 001..003 comes 004. *)
Example generateTokenNumber_counts_on :
  Token.generateTokenNumber [Sample.deptCS]
    [Sample.tokenA; Sample.tokenB; Sample.tokenC] 1%nat Sample.now
  = Ok ("CS-20241201-004", "CS004").
Proof. vm_compute. reflexivity. Qed.

(** Issuance places a token by arrival: whatever its priority, the new
    token gets the number of waiting or called tokens of the department that
    day, plus one. *)
Lemma generateToken_position :
  forall (depts : list Department.t) (tks : list Token.t)
         (departmentId : ObjectId) (counterId : option ObjectId)
         (customerId : ObjectId) (priority : Z) (userId : ObjectId) (now : Z)
         (tk : Token.t) (tks1 : list Token.t),
    Token.generateToken depts tks departmentId counterId customerId priority
      userId now = Ok (tk, tks1) ->
    Token.queuePosition tk
    = Some (countDocuments (Token.inQueueOf departmentId now) tks + 1)
    /\ Token.status tk = "waiting"
    /\ Token.priority tk = priority.
Proof.
  intros depts tks departmentId counterId customerId priority userId now tk tks1.
  unfold Token.generateToken.
  destruct (Token.generateTokenNumber depts tks departmentId now)
    as [[tokenNumber displayNumber]|msg]; simpl; [|discriminate].
  destruct (Token.numberTaken (toUpperCase tokenNumber) tks); [discriminate|].
  intros H. injection H as <- _. repeat split.
Qed.

(** C1, as the claim states it, fails on the token operations. With A, B
    and C waiting at 1, 2, 3, the call of the next token takes A and leaves
    B and C at 2 and 3. And when [Token.generateToken] issues A and B, A is
    cancelled and [Token.generateToken] issues C, the waiting set of the
    department is B and C, both at position 2. *)
Lemma token_positions_collide :
  map Token.queuePosition
    (List.filter (Token.waitingIn 1%nat Sample.now)
       (snd (fst (Counter.callNextToken Sample.idleCounter Sample.now
                    (tokens Sample.threeWaiting)))))
  = [Some 2; Some 3]
  /\ Sample.waitingPositions 1%nat
       (Sample.desk
          (Sample.issued [Sample.issue 13%nat 5]
             (tokens
                (Sample.after
                   (TokenController.cancelToken 1%nat
                      (Sample.desk
                         (Sample.issued
                            [Sample.issue 11%nat 5; Sample.issue 12%nat 5]
                            [])))))))
     = [Some 2; Some 2].
Proof. split; vm_compute; reflexivity. Qed.

(** C3, as the claim states it, fails on tokens: issued in this order by
    [Token.generateToken], A (priority 3) is stored at position 1 and B
    (priority 8) at position 2; issuance never looks at the priority. *)
Lemma token_issuance_ignores_priority :
  map (fun tk => (Token.priority tk, Token.queuePosition tk))
    (Sample.issued [Sample.issue 11%nat 3; Sample.issue 12%nat 8] [])
  = [(3, Some 1); (8, Some 2)].
Proof. vm_compute. reflexivity. Qed.

(** C4, as the claim states it, fails on tokens: with A, B, C waiting at
    1, 2, 3, cancelling B leaves C at position 3. *)
Lemma cancelToken_leaves_gap :
  Sample.waitingPositions 1%nat Sample.threeWaiting = [Some 1; Some 2; Some 3]
  /\ Sample.waitingPositions 1%nat
       (Sample.after (TokenController.cancelToken 2%nat Sample.threeWaiting))
     = [Some 1; Some 3].
Proof. vm_compute. split; reflexivity. Qed.

(** ** The project queue: saving and filtering *)

Section SaveFacts.
Variable Doc : Type.
Variable doc_id : Doc -> ObjectId.

Lemma existsb_id_in (d : Doc) (coll : list Doc) :
  In d coll -> existsb (fun x => oid_eqb (doc_id x) (doc_id d)) coll = true.
Proof.
  intros Hin. apply existsb_exists. exists d. split; [assumption|].
  now apply oid_eqb_eq.
Qed.

Lemma save_stored (d x : Doc) (coll : list Doc) :
  In x coll -> doc_id x = doc_id d ->
  save doc_id d coll
  = map (fun y => if oid_eqb (doc_id y) (doc_id d) then d else y) coll.
Proof.
  intros Hin Hid. unfold save.
  assert (H : existsb (fun y => oid_eqb (doc_id y) (doc_id d)) coll = true).
  { apply existsb_exists. exists x. split; [assumption|]. now apply oid_eqb_eq. }
  now rewrite H.
Qed.

Lemma map_id_replace (d : Doc) (coll : list Doc) :
  map doc_id (map (fun y => if oid_eqb (doc_id y) (doc_id d) then d else y) coll)
  = map doc_id coll.
Proof.
  induction coll as [|y coll IH]; simpl; [reflexivity|].
  rewrite IH. destruct (oid_eqb (doc_id y) (doc_id d)) eqn:E; [|reflexivity].
  apply oid_eqb_eq in E. now rewrite E.
Qed.

Lemma in_replace (d x : Doc) (coll : list Doc) :
  In x (map (fun y => if oid_eqb (doc_id y) (doc_id d) then d else y) coll) ->
  x = d \/ (In x coll /\ doc_id x <> doc_id d).
Proof.
  intros H. apply in_map_iff in H. destruct H as [y [Hy Hin]].
  destruct (oid_eqb (doc_id y) (doc_id d)) eqn:E.
  - left. congruence.
  - right. subst x. split; [assumption|]. now apply oid_eqb_neq.
Qed.

Lemma NoDup_id_eq (a b : Doc) (coll : list Doc) :
  NoDup (map doc_id coll) -> In a coll -> In b coll -> doc_id a = doc_id b -> a = b.
Proof.
  induction coll as [|y coll IH]; simpl; intros Hnd Ha Hb Hid; [contradiction|].
  inversion Hnd as [|? ? Hnotin Hnd']; subst.
  destruct Ha as [->|Ha], Hb as [->|Hb]; auto.
  - exfalso. apply Hnotin. rewrite Hid. now apply in_map.
  - exfalso. apply Hnotin. rewrite <- Hid. now apply in_map.
Qed.

End SaveFacts.

Section FilterFacts.
Variable A : Type.

Lemma filter_map_same (m : A -> bool) (g : A -> A) (l : list A) :
  (forall x, In x l -> m (g x) = m x /\ (m x = true -> g x = x)) ->
  List.filter m (map g l) = List.filter m l.
Proof.
  induction l as [|x l IH]; simpl; intros H; [reflexivity|].
  destruct (H x (or_introl eq_refl)) as [Hm Hfix].
  rewrite Hm. destruct (m x) eqn:E.
  - rewrite (Hfix eq_refl). f_equal. apply IH. intros y Hy. apply H. now right.
  - apply IH. intros y Hy. apply H. now right.
Qed.

Lemma filter_map_keep (m : A -> bool) (h : A -> A) (l : list A) :
  (forall x, m (h x) = m x) ->
  List.filter m (map h l) = map h (List.filter m l).
Proof.
  intros H. induction l as [|x l IH]; simpl; [reflexivity|].
  rewrite H. destruct (m x); simpl; now rewrite IH.
Qed.

Lemma filter_and (a b : A -> bool) (l : list A) :
  List.filter (fun x => a x && b x) l = List.filter b (List.filter a l).
Proof.
  induction l as [|x l IH]; simpl; [reflexivity|].
  destruct (a x); simpl; [destruct (b x)|]; now rewrite IH.
Qed.

Lemma Permutation_filter_length (f : A -> bool) (l l' : list A) :
  Permutation l l' -> length (List.filter f l) = length (List.filter f l').
Proof.
  intros H. induction H; simpl.
  - reflexivity.
  - destruct (f x); simpl; now rewrite IHPermutation.
  - destruct (f x), (f y); reflexivity.
  - congruence.
Qed.

End FilterFacts.

(** ** Numbered lists of projects *)

Lemma numberedFrom_app (s : Z) (l1 l2 : list Project.t) :
  numberedFrom s (l1 ++ l2)
  <-> numberedFrom s l1 /\ numberedFrom (s + Z.of_nat (length l1)) l2.
Proof.
  revert s. induction l1 as [|p l1 IH]; intros s; simpl.
  - rewrite Z.add_0_r. tauto.
  - rewrite IH. replace (s + 1 + Z.of_nat (length l1))
      with (s + Z.pos (Pos.of_succ_nat (length l1))) by lia. tauto.
Qed.

Lemma numberedFrom_positions (s : Z) (l : list Project.t) :
  numberedFrom s l ->
  map Project.queuePosition l = map Some (Zrange s (length l)).
Proof.
  revert s. induction l as [|p l IH]; intros s; simpl.
  - reflexivity.
  - intros [Hp Hl]. rewrite Hp, (IH _ Hl). reflexivity.
Qed.

Lemma numberedFrom_bounds (s : Z) (l : list Project.t) :
  numberedFrom s l ->
  Forall (fun p => exists k, Project.queuePosition p = Some k
                             /\ s <= k < s + Z.of_nat (length l)) l.
Proof.
  revert s. induction l as [|p l IH]; intros s; simpl.
  - constructor.
  - intros [Hp Hl]. constructor.
    + exists s. split; [assumption|lia].
    + eapply Forall_impl; [|apply (IH _ Hl)].
      intros x [k [Hk Hb]]. exists k. split; [assumption|lia].
Qed.

Lemma numberedFrom_shift (d s : Z) (l : list Project.t) :
  numberedFrom s l -> numberedFrom (s + d) (map (Project.inc_queuePosition d) l).
Proof.
  revert s. induction l as [|p l IH]; intros s; simpl.
  - trivial.
  - intros [Hp Hl]. split.
    + rewrite Hp. reflexivity.
    + replace (s + d + 1) with (s + 1 + d) by lia. now apply IH.
Qed.

Lemma map_when_all (f : Project.t -> bool) (u : Project.t -> Project.t)
  (l : list Project.t) :
  Forall (fun p => f p = true) l ->
  map (fun p => if f p then u p else p) l = map u l.
Proof.
  intros H. apply map_ext_in. intros p Hp.
  rewrite Forall_forall in H. now rewrite (H p Hp).
Qed.

Lemma map_when_none (f : Project.t -> bool) (u : Project.t -> Project.t)
  (l : list Project.t) :
  Forall (fun p => f p = false) l ->
  map (fun p => if f p then u p else p) l = l.
Proof.
  intros H. rewrite <- (map_id l) at 2. apply map_ext_in. intros p Hp.
  rewrite Forall_forall in H. now rewrite (H p Hp).
Qed.

Lemma nonIncreasing_app (l1 l2 : list Project.t) :
  nonIncreasing (l1 ++ l2)
  <-> nonIncreasing l1 /\ nonIncreasing l2
      /\ Forall (fun a => Forall (fun b => Project.priority b <= Project.priority a) l2) l1.
Proof.
  induction l1 as [|p l1 IH]; simpl.
  - split; [intros H; repeat split; auto|tauto].
  - rewrite IH, Forall_app. split.
    + intros [[H1 H2] [H3 [H4 H5]]]. repeat split; auto.
    + intros [[H1 H3] [H4 H5]]. inversion H5; subst. repeat split; auto.
Qed.

Lemma nonIncreasing_map (h : Project.t -> Project.t) (l : list Project.t) :
  (forall p, Project.priority (h p) = Project.priority p) ->
  nonIncreasing l -> nonIncreasing (map h l).
Proof.
  intros Hh. induction l as [|p l IH]; simpl; [trivial|].
  intros [H1 H2]. split; [|now apply IH].
  rewrite Forall_map. eapply Forall_impl; [|exact H1].
  intros x Hx. simpl in Hx. now rewrite !Hh.
Qed.

(** A list sorted by priority splits into the projects of higher priority
    than [x] and the rest. *)
Lemma nonIncreasing_split (x : Z) (l : list Project.t) :
  nonIncreasing l ->
  exists o1 o2, l = o1 ++ o2
    /\ Forall (fun p => x < Project.priority p) o1
    /\ Forall (fun p => Project.priority p <= x) o2.
Proof.
  induction l as [|p l IH]; simpl.
  - intros _. exists [], []. repeat split; constructor.
  - intros [Hle Hl]. destruct (Z_lt_le_dec x (Project.priority p)) as [Hlt|Hge].
    + destruct (IH Hl) as [o1 [o2 [-> [H1 H2]]]].
      exists (p :: o1), o2. repeat split; auto.
    + exists [], (p :: l). repeat split; auto.
      constructor; [assumption|].
      eapply Forall_impl; [|exact Hle]. intros y Hy. simpl in Hy. lia.
Qed.

Lemma filter_all (A : Type) (f : A -> bool) (l : list A) :
  Forall (fun x => f x = true) l -> List.filter f l = l.
Proof.
  induction l as [|x l IH]; simpl; intros H; [reflexivity|].
  inversion H; subst. rewrite H2. f_equal. now apply IH.
Qed.

Lemma filter_nothing (A : Type) (f : A -> bool) (l : list A) :
  Forall (fun x => f x = false) l -> List.filter f l = [].
Proof.
  intros H. apply filter_none. now apply Forall_forall.
Qed.

(** ** What [updateMany] and [save] do to the members of a queue *)


Lemma updateMany_shifted (f : Project.t -> bool) (d : Z) (ps : list Project.t) :
  updateMany f (Project.inc_queuePosition d) ps = map (shifted f d) ps.
Proof. reflexivity. Qed.

Lemma shifted_id f d p : Project._id (shifted f d p) = Project._id p.
Proof. unfold shifted. now destruct (f p). Qed.

Lemma shifted_member f d i p : memberOf i (shifted f d p) = memberOf i p.
Proof. unfold shifted. now destruct (f p). Qed.

Lemma shifted_priority f d p : Project.priority (shifted f d p) = Project.priority p.
Proof. unfold shifted. now destruct (f p). Qed.

Lemma shifted_status f d p : Project.status (shifted f d p) = Project.status p.
Proof. unfold shifted. now destruct (f p). Qed.

Lemma replace_split (h : Project.t -> Project.t) (project1 project : Project.t)
  (l1 l2 : list Project.t) :
  (forall p, Project._id (h p) = Project._id p) ->
  NoDup (map Project._id (l1 ++ project :: l2)) ->
  Project._id project1 = Project._id project ->
  map (fun y => if oid_eqb (Project._id y) (Project._id project1) then project1 else y)
      (map h (l1 ++ project :: l2))
  = map h l1 ++ project1 :: map h l2.
Proof.
  intros Hh Hnd Hid.
  rewrite map_app in Hnd. simpl in Hnd.
  pose proof (NoDup_remove_2 _ _ _ Hnd) as Hnotin.
  assert (Hother : forall l, (forall p, In p l -> Project._id p <> Project._id project) ->
            map (fun y => if oid_eqb (Project._id y) (Project._id project1)
                          then project1 else y) (map h l) = map h l).
  { intros l Hl. rewrite map_map. apply map_ext_in. intros p Hp.
    assert (E : oid_eqb (Project._id (h p)) (Project._id project1) = false).
    { apply oid_eqb_neq. rewrite Hh, Hid. now apply Hl. }
    now rewrite E. }
  rewrite !map_app. simpl. rewrite !Hother.
  - assert (E : oid_eqb (Project._id (h project)) (Project._id project1) = true).
    { apply oid_eqb_eq. now rewrite Hh, Hid. }
    now rewrite E.
  - intros p Hp Heq. apply Hnotin. apply in_or_app. right.
    rewrite <- Heq. now apply in_map.
  - intros p Hp Heq. apply Hnotin. apply in_or_app. left.
    rewrite <- Heq. now apply in_map.
Qed.

Lemma save_after_map (h : Project.t -> Project.t) (project1 project : Project.t)
  (ps : list Project.t) :
  (forall p, Project._id (h p) = Project._id p) ->
  In project ps ->
  Project._id project1 = Project._id project ->
  save Project._id project1 (map h ps)
  = map (fun y => if oid_eqb (Project._id y) (Project._id project1) then project1 else y)
        (map h ps).
Proof.
  intros Hh Hin Hid. apply save_stored with (x := h project).
  - now apply in_map.
  - now rewrite Hh.
Qed.

(** Enqueueing: the queue gains the saved project, its other members are
    the old ones after the update. *)
Lemma members_after_add (i : ObjectId) (h : Project.t -> Project.t)
  (project1 project : Project.t) (ps : list Project.t) :
  NoDup (map Project._id ps) ->
  In project ps ->
  Project._id project1 = Project._id project ->
  memberOf i project = false ->
  memberOf i project1 = true ->
  (forall p, Project._id (h p) = Project._id p) ->
  (forall p, memberOf i (h p) = memberOf i p) ->
  Permutation (members i (save Project._id project1 (map h ps)))
              (project1 :: map h (members i ps)).
Proof.
  intros Hnd Hin Hid Hout Hmem Hh Hm.
  rewrite (save_after_map _ _ _ _ Hh Hin Hid).
  destruct (in_split _ _ Hin) as [l1 [l2 ->]].
  rewrite (replace_split _ _ _ _ _ Hh Hnd Hid).
  unfold members. rewrite !filter_app. simpl. rewrite Hmem, Hout.
  rewrite !(filter_map_keep _ _ _ _ Hm), map_app.
  symmetry. apply Permutation_middle.
Qed.

(** Dequeueing: the queue loses the saved project, its other members are
    the old ones after the update. *)
Lemma members_after_remove (i : ObjectId) (h : Project.t -> Project.t)
  (project1 project : Project.t) (ps : list Project.t) :
  NoDup (map Project._id ps) ->
  In project ps ->
  Project._id project1 = Project._id project ->
  memberOf i project = true ->
  memberOf i project1 = false ->
  (forall p, Project._id (h p) = Project._id p) ->
  (forall p, memberOf i (h p) = memberOf i p) ->
  exists m1 m2,
    members i ps = m1 ++ project :: m2
    /\ members i (save Project._id project1 (map h ps)) = map h (m1 ++ m2).
Proof.
  intros Hnd Hin Hid Hmem Hout Hh Hm.
  rewrite (save_after_map _ _ _ _ Hh Hin Hid).
  destruct (in_split _ _ Hin) as [l1 [l2 ->]].
  rewrite (replace_split _ _ _ _ _ Hh Hnd Hid).
  exists (members i l1), (members i l2).
  unfold members. rewrite !filter_app. simpl. rewrite Hmem, Hout.
  rewrite !(filter_map_keep _ _ _ _ Hm), map_app. split; reflexivity.
Qed.

(** A queue is not concerned by writes to projects it does not hold. *)
Lemma members_elsewhere (i : ObjectId) (h : Project.t -> Project.t)
  (project1 project : Project.t) (ps : list Project.t) :
  NoDup (map Project._id ps) ->
  In project ps ->
  Project._id project1 = Project._id project ->
  memberOf i project = false ->
  memberOf i project1 = false ->
  (forall p, Project._id (h p) = Project._id p) ->
  (forall p, memberOf i (h p) = memberOf i p) ->
  (forall p, memberOf i p = true -> h p = p) ->
  members i (save Project._id project1 (map h ps)) = members i ps.
Proof.
  intros Hnd Hin Hid Hout Hout1 Hh Hm Hfix.
  rewrite (save_after_map _ _ _ _ Hh Hin Hid).
  destruct (in_split _ _ Hin) as [l1 [l2 ->]].
  rewrite (replace_split _ _ _ _ _ Hh Hnd Hid).
  unfold members. rewrite !filter_app. simpl. rewrite Hout, Hout1.
  rewrite !(filter_map_keep _ _ _ _ Hm).
  assert (Hsame : forall l, map h (List.filter (memberOf i) l) = List.filter (memberOf i) l).
  { intros l. rewrite <- (map_id (List.filter (memberOf i) l)) at 2.
    apply map_ext_in. intros p Hp. apply filter_In in Hp. now apply Hfix. }
  now rewrite !Hsame.
Qed.

Lemma ids_after_save (h : Project.t -> Project.t) (project1 project : Project.t)
  (ps : list Project.t) :
  (forall p, Project._id (h p) = Project._id p) ->
  In project ps ->
  Project._id project1 = Project._id project ->
  map Project._id (save Project._id project1 (map h ps)) = map Project._id ps.
Proof.
  intros Hh Hin Hid. rewrite (save_after_map _ _ _ _ Hh Hin Hid).
  rewrite map_id_replace, map_map. apply map_ext. exact Hh.
Qed.

(** ** Enqueueing keeps the invariant *)


Lemma memberOf_refl (i : ObjectId) (p : Project.t) :
  Project.queueId p = Some i -> memberOf i p = true.
Proof. unfold memberOf, ref_is. intros ->. now apply oid_eqb_eq. Qed.

Lemma memberOf_other (i j : ObjectId) (p : Project.t) :
  memberOf i p = true -> i <> j -> memberOf j p = false.
Proof.
  unfold memberOf, ref_is. destruct (Project.queueId p) as [k|]; [|discriminate].
  intros H Hne. apply oid_eqb_eq in H. apply oid_eqb_neq. congruence.
Qed.

Lemma order_members (i : ObjectId) (order ps : list Project.t) :
  Permutation order (members i ps) ->
  Forall (fun p => memberOf i p = true) order.
Proof.
  intros Hperm. apply Forall_forall. intros p Hp.
  apply (Permutation_in _ Hperm) in Hp. apply filter_In in Hp. tauto.
Qed.

Lemma add_keeps_invariant (q : Queue.t) (project : Project.t) (ps : list Project.t)
  (f : Project.t -> bool) (d position : Z) (order order' : list Project.t) :
  NoDup (map Project._id ps) ->
  In project ps ->
  Project.queueId project = None ->
  Permutation order (members (Queue._id q) ps) ->
  Queue.currentSize q = Z.of_nat (length order) ->
  Forall (fun p => Project.status p = "queued") order ->
  Permutation order' (enqueued q position project :: map (shifted f d) order) ->
  numberedFrom 1 order' ->
  (Queue.isPriorityType (Queue.type q) = true -> nonIncreasing order') ->
  QueueInv (Queue.set_currentSize (Queue.currentSize q + 1) q)
    (save Project._id (enqueued q position project) (map (shifted f d) ps)).
Proof.
  intros Hnd Hin Hnone Hperm Hsize Hqueued Hperm' Hnum Hsorted.
  exists order'. simpl. repeat split.
  - rewrite Hperm'. symmetry.
    rewrite members_after_add with (project := project); auto.
    + apply perm_skip, Permutation_map. now symmetry.
    + unfold memberOf. now rewrite Hnone.
    + apply memberOf_refl. reflexivity.
    + intros p. apply shifted_id.
    + intros p. apply shifted_member.
  - assumption.
  - rewrite (Permutation_length Hperm'). simpl. rewrite length_map. lia.
  - eapply Permutation_Forall; [symmetry; exact Hperm'|].
    constructor; [reflexivity|]. rewrite Forall_map.
    eapply Forall_impl; [|exact Hqueued]. intros p Hp. simpl.
    now rewrite shifted_status.
  - assumption.
Qed.

Lemma add_elsewhere (q : Queue.t) (project : Project.t) (ps : list Project.t)
  (f : Project.t -> bool) (d position : Z) (i : ObjectId) :
  NoDup (map Project._id ps) ->
  In project ps ->
  Project.queueId project = None ->
  (forall p, f p = true -> memberOf (Queue._id q) p = true) ->
  i <> Queue._id q ->
  members i (save Project._id (enqueued q position project) (map (shifted f d) ps))
  = members i ps.
Proof.
  intros Hnd Hin Hnone Hf Hne.
  apply members_elsewhere with (project := project); auto.
  - unfold memberOf. now rewrite Hnone.
  - apply memberOf_other with (i := Queue._id q); [|congruence].
    apply memberOf_refl. reflexivity.
  - intros p. apply shifted_id.
  - intros p. apply shifted_member.
  - intros p Hp. unfold shifted. destruct (f p) eqn:E; [|reflexivity].
    apply Hf in E. rewrite (memberOf_other _ i _ E) in Hp; congruence.
Qed.

Lemma map_shifted_never (d : Z) (l : list Project.t) :
  map (shifted (fun _ => false) d) l = l.
Proof. unfold shifted. apply map_id. Qed.

(** The three ways [addProject] places the new project. *)

Lemma order_append (q : Queue.t) (project : Project.t) (order : list Project.t) :
  numberedFrom 1 order ->
  Queue.currentSize q = Z.of_nat (length order) ->
  numberedFrom 1 (order ++ [enqueued q (Queue.currentSize q + 1) project]).
Proof.
  intros Hnum Hsize. apply numberedFrom_app. split; [assumption|].
  split; [|exact I]. unfold enqueued. cbn [Project.queuePosition Project.set_status Project.set_queuePosition].
  f_equal. lia.
Qed.

Lemma order_push (q : Queue.t) (project : Project.t) (order : list Project.t) :
  Forall (fun p => memberOf (Queue._id q) p = true) order ->
  numberedFrom 1 order ->
  map (shifted (Queue.lifoFilter q) 1) order = map (Project.inc_queuePosition 1) order
  /\ numberedFrom 1 (enqueued q 1 project :: map (Project.inc_queuePosition 1) order).
Proof.
  intros Hmem Hnum. split.
  - apply map_when_all. pose proof (numberedFrom_bounds _ _ Hnum) as Hb.
    rewrite Forall_forall in *. intros p Hp.
    destruct (Hb p Hp) as [k [Hk Hrange]].
    unfold Queue.lifoFilter. fold (memberOf (Queue._id q) p).
    rewrite (Hmem p Hp), Hk. simpl. apply Z.leb_le. lia.
  - simpl. split; [reflexivity|].
    change 2 with (1 + 1). now apply numberedFrom_shift.
Qed.


Lemma higher_count (q : Queue.t) (project : Project.t) (order ps : list Project.t) :
  Permutation order (members (Queue._id q) ps) ->
  Forall (fun p => Project.status p = "queued") order ->
  countDocuments (Queue.higherPriorityFilter q project) ps
  = Z.of_nat (length (List.filter (higherThan project) order)).
Proof.
  intros Hperm Hqueued. unfold countDocuments. f_equal.
  rewrite (filter_ext (Queue.higherPriorityFilter q project)
             (fun p => memberOf (Queue._id q) p
                       && (higherThan project p
                           && (Project.status p =? "queued")%string))).
  2:{ intros p. unfold Queue.higherPriorityFilter, memberOf, higherThan.
      now rewrite andb_assoc. }
  rewrite filter_and. fold (members (Queue._id q) ps).
  rewrite <- (Permutation_filter_length _ _ _ _ Hperm).
  f_equal. apply filter_ext_in. intros p Hp.
  rewrite Forall_forall in Hqueued. rewrite (Hqueued p Hp). simpl.
  apply andb_true_r.
Qed.

Lemma order_insert (q : Queue.t) (project : Project.t) (order : list Project.t) :
  Forall (fun p => memberOf (Queue._id q) p = true) order ->
  numberedFrom 1 order ->
  nonIncreasing order ->
  let position := Z.of_nat (length (List.filter (higherThan project) order)) + 1 in
  exists o1 o2,
    map (shifted (Queue.lowerPriorityFilter q project position) 1) order
    = o1 ++ map (Project.inc_queuePosition 1) o2
    /\ numberedFrom 1 (o1 ++ enqueued q position project
                          :: map (Project.inc_queuePosition 1) o2)
    /\ nonIncreasing (o1 ++ enqueued q position project
                         :: map (Project.inc_queuePosition 1) o2).
Proof.
  intros Hmem Hnum Hsorted position.
  destruct (nonIncreasing_split (Project.priority project) _ Hsorted)
    as [o1 [o2 [-> [Hhigh Hlow]]]].
  assert (Hpos : position = 1 + Z.of_nat (length o1)).
  { unfold position. rewrite filter_app.
    rewrite (filter_all _ (higherThan project) o1).
    - rewrite (filter_nothing _ (higherThan project) o2).
      + rewrite app_nil_r. lia.
      + eapply Forall_impl; [|exact Hlow]. intros p Hp. simpl in Hp.
        apply Z.ltb_ge. exact Hp.
    - eapply Forall_impl; [|exact Hhigh]. intros p Hp. simpl in Hp.
      apply Z.ltb_lt. exact Hp. }
  apply numberedFrom_app in Hnum. destruct Hnum as [Hnum1 Hnum2].
  apply nonIncreasing_app in Hsorted. destruct Hsorted as [Hs1 [Hs2 Hcross]].
  apply Forall_app in Hmem. destruct Hmem as [Hmem1 Hmem2].
  exists o1, o2. split; [|split].
  - rewrite map_app. f_equal.
    + apply map_when_none. eapply Forall_impl; [|exact Hhigh].
      intros p Hp. simpl in Hp. unfold Queue.lowerPriorityFilter.
      assert (E : (Project.priority p <=? Project.priority project) = false)
        by (apply Z.leb_gt; exact Hp).
      rewrite E. now rewrite andb_false_r.
    + apply map_when_all. pose proof (numberedFrom_bounds _ _ Hnum2) as Hb.
      rewrite Forall_forall in *. intros p Hp.
      destruct (Hb p Hp) as [k [Hk Hrange]].
      unfold Queue.lowerPriorityFilter. fold (memberOf (Queue._id q) p).
      rewrite (Hmem2 p Hp), Hk. simpl.
      assert (E : (Project.priority p <=? Project.priority project) = true)
        by (apply Z.leb_le; apply (Hlow p Hp)).
      rewrite E. simpl. apply Z.leb_le. lia.
  - apply numberedFrom_app. split; [assumption|]. split.
    + unfold enqueued.
      cbn [Project.queuePosition Project.set_status Project.set_queuePosition].
      now rewrite Hpos.
    + now apply numberedFrom_shift.
  - apply nonIncreasing_app. split; [assumption|]. split.
    + split.
      * rewrite Forall_map. eapply Forall_impl; [|exact Hlow].
        intros p Hp. exact Hp.
      * apply nonIncreasing_map; [reflexivity|assumption].
    + rewrite Forall_forall in *. intros a Ha. constructor.
      * simpl. pose proof (Hhigh a Ha). simpl in *. lia.
      * rewrite Forall_map. apply Forall_forall. intros b Hb'.
        simpl. pose proof (Hhigh a Ha). pose proof (Hlow b Hb'). simpl in *. lia.
Qed.

Lemma isPriorityType_fifo (ty : string) :
  (ty =? "fifo")%string = true -> Queue.isPriorityType ty = false.
Proof. intros H. apply String.eqb_eq in H. now subst ty. Qed.

Lemma isPriorityType_lifo (ty : string) :
  (ty =? "lifo")%string = true -> Queue.isPriorityType ty = false.
Proof. intros H. apply String.eqb_eq in H. now subst ty. Qed.

(** How [addProject] writes: one [updateMany] shifting some members of the
    queue, then the project saved at its position, which leaves the members
    numbered 1, 2, ... in a suitable order. *)
Lemma addProject_shape (q : Queue.t) (project : Project.t) (ps : list Project.t)
  (position : Z) (q1 : Queue.t) (ps1 order : list Project.t) :
  Permutation order (members (Queue._id q) ps) ->
  numberedFrom 1 order ->
  Queue.currentSize q = Z.of_nat (length order) ->
  Forall (fun p => Project.status p = "queued") order ->
  (Queue.isPriorityType (Queue.type q) = true -> nonIncreasing order) ->
  Queue.addProject q project ps = Ok (position, q1, ps1) ->
  exists (f : Project.t -> bool) (d : Z) (order' : list Project.t),
    ps1 = save Project._id (enqueued q position project) (map (shifted f d) ps)
    /\ q1 = Queue.set_currentSize (Queue.currentSize q + 1) q
    /\ (forall p, f p = true -> memberOf (Queue._id q) p = true)
    /\ Permutation order' (enqueued q position project :: map (shifted f d) order)
    /\ numberedFrom 1 order'
    /\ (Queue.isPriorityType (Queue.type q) = true -> nonIncreasing order').
Proof.
  intros Hperm Hnum Hsize Hqueued Hsorted Hadd.
  pose proof (order_members _ _ _ Hperm) as Hmem.
  unfold Queue.addProject in Hadd.
  destruct (negb (Queue.canAccept (Queue.canAcceptProject q project)));
    [discriminate|].
  fold (enqueued q) in Hadd.
  destruct (Queue.type q =? "fifo")%string eqn:Efifo;
    [|destruct (Queue.type q =? "lifo")%string eqn:Elifo;
      [|destruct (Queue.isPriorityType (Queue.type q)) eqn:Eprio]];
    simpl in Hadd; injection Hadd as <- <- <-.
  - (* fifo: appended *)
    exists (fun _ => false), 0,
      (order ++ [enqueued q (Queue.currentSize q + 1) project]).
    rewrite !map_shifted_never.
    split; [reflexivity|]. split; [reflexivity|]. split; [|split; [|split]].
    + discriminate.
    + symmetry. apply Permutation_cons_append.
    + now apply order_append.
    + rewrite (isPriorityType_fifo _ Efifo). discriminate.
  - (* lifo: pushed in front *)
    destruct (order_push q project order Hmem Hnum) as [Hmap Hnum'].
    exists (Queue.lifoFilter q), 1,
      (enqueued q 1 project :: map (Project.inc_queuePosition 1) order).
    split; [reflexivity|]. split; [reflexivity|]. split; [|split; [|split]].
    + intros p Hp. unfold Queue.lifoFilter in Hp.
      apply andb_true_iff in Hp. tauto.
    + now rewrite Hmap.
    + exact Hnum'.
    + rewrite (isPriorityType_lifo _ Elifo). discriminate.
  - (* priority, weighted: inserted behind the higher priorities *)
    rewrite (higher_count q project order ps Hperm Hqueued).
    destruct (order_insert q project order Hmem Hnum (Hsorted eq_refl))
      as [o1 [o2 [Hmap [Hnum' Hsorted']]]].
    eexists. exists 1. eexists. split; [reflexivity|].
    split; [reflexivity|]. split; [|split; [|split]].
    + intros p Hp. unfold Queue.lowerPriorityFilter in Hp.
      apply andb_true_iff in Hp. destruct Hp as [Hp _].
      apply andb_true_iff in Hp. tauto.
    + rewrite Hmap. symmetry. apply Permutation_middle.
    + exact Hnum'.
    + intros _. exact Hsorted'.
  - (* any other type: appended *)
    exists (fun _ => false), 0,
      (order ++ [enqueued q (Queue.currentSize q + 1) project]).
    rewrite !map_shifted_never.
    split; [reflexivity|]. split; [reflexivity|]. split; [|split; [|split]].
    + discriminate.
    + symmetry. apply Permutation_cons_append.
    + now apply order_append.
    + discriminate.
Qed.

(** [addProject] keeps the invariant of its queue and does not disturb the
    members of any other queue. *)
Lemma addProject_keeps (q : Queue.t) (project : Project.t) (ps : list Project.t)
  (position : Z) (q1 : Queue.t) (ps1 : list Project.t) :
  NoDup (map Project._id ps) ->
  In project ps ->
  Project.queueId project = None ->
  QueueInv q ps ->
  Queue.addProject q project ps = Ok (position, q1, ps1) ->
  QueueInv q1 ps1
  /\ q1 = Queue.set_currentSize (Queue.currentSize q + 1) q
  /\ map Project._id ps1 = map Project._id ps
  /\ forall i, i <> Queue._id q -> members i ps1 = members i ps.
Proof.
  intros Hnd Hin Hnone [order [Hperm [Hnum [Hsize [Hqueued Hsorted]]]]] Hadd.
  destruct (addProject_shape q project ps position q1 ps1 order Hperm Hnum Hsize
              Hqueued Hsorted Hadd)
    as [f [d [order' [-> [-> [Hf [Hperm' [Hnum' Hsorted']]]]]]]].
  split; [|split; [reflexivity|split]].
  - now apply add_keeps_invariant with (order := order) (order' := order').
  - apply ids_after_save with (project := project); auto.
    intros p. apply shifted_id.
  - intros i Hi. now apply add_elsewhere.
Qed.

(** ** Dequeueing keeps the invariant *)


Lemma nonIncreasing_without (l1 l2 : list Project.t) (x : Project.t) :
  nonIncreasing (l1 ++ x :: l2) -> nonIncreasing (l1 ++ l2).
Proof.
  rewrite !nonIncreasing_app. simpl. intros [H1 [[_ H2] H3]].
  repeat split; auto. eapply Forall_impl; [|exact H3].
  intros a Ha. now inversion Ha.
Qed.

(** The members behind the removed project move up, the others stay. *)
Lemma order_close (q : Queue.t) (project : Project.t) (o1 o2 : list Project.t) :
  Forall (fun p => memberOf (Queue._id q) p = true) (o1 ++ project :: o2) ->
  numberedFrom 1 (o1 ++ project :: o2) ->
  map (shifted (Queue.removeFilter q project) (-1)) (o1 ++ o2)
  = o1 ++ map (Project.inc_queuePosition (-1)) o2
  /\ numberedFrom 1 (o1 ++ map (Project.inc_queuePosition (-1)) o2).
Proof.
  intros Hmem Hnum.
  apply numberedFrom_app in Hnum. destruct Hnum as [Hnum1 [Hpos Hnum2]].
  apply Forall_app in Hmem. destruct Hmem as [Hmem1 Hmem2].
  inversion Hmem2 as [|? ? _ Hmem2']; subst.
  split.
  - rewrite map_app. f_equal.
    + apply map_when_none. pose proof (numberedFrom_bounds _ _ Hnum1) as Hb.
      rewrite Forall_forall in *. intros p Hp.
      destruct (Hb p Hp) as [k [Hk Hrange]].
      unfold Queue.removeFilter. rewrite Hpos, Hk. unfold optZ_gtb.
      assert (E : (1 + Z.of_nat (length o1) <? k) = false)
        by (apply Z.ltb_ge; lia).
      rewrite E. apply andb_false_r.
    + apply map_when_all. pose proof (numberedFrom_bounds _ _ Hnum2) as Hb.
      rewrite Forall_forall in *. intros p Hp.
      destruct (Hb p Hp) as [k [Hk Hrange]].
      unfold Queue.removeFilter. fold (memberOf (Queue._id q) p).
      rewrite (Hmem2' p Hp), Hpos, Hk. unfold optZ_gtb. rewrite andb_true_l.
      apply Z.ltb_lt. lia.
  - apply numberedFrom_app. split; [assumption|].
    replace (1 + Z.of_nat (length o1))
      with (1 + Z.of_nat (length o1) + 1 + -1) by lia.
    now apply numberedFrom_shift.
Qed.

(** [removeProject] keeps the invariant of its queue and does not disturb
    the members of any other queue. *)
Lemma removeProject_keeps (q : Queue.t) (project : Project.t) (ps : list Project.t)
  (q1 : Queue.t) (ps1 : list Project.t) :
  NoDup (map Project._id ps) ->
  In project ps ->
  QueueInv q ps ->
  Queue.removeProject q project ps = Ok (q1, ps1) ->
  QueueInv q1 ps1
  /\ q1 = Queue.set_currentSize (Z.max 0 (Queue.currentSize q - 1)) q
  /\ map Project._id ps1 = map Project._id ps
  /\ forall i, i <> Queue._id q -> members i ps1 = members i ps.
Proof.
  intros Hnd Hin [order [Hperm [Hnum [Hsize [Hqueued Hsorted]]]]] Hrem.
  unfold Queue.removeProject in Hrem.
  destruct (ref_is (Project.queueId project) (Queue._id q)) eqn:Hmember;
    simpl in Hrem; [|discriminate].
  injection Hrem as <- <-. fold (dequeued project).
  rewrite updateMany_shifted.
  set (h := shifted (Queue.removeFilter q project) (-1)).
  assert (Hh : forall p, Project._id (h p) = Project._id p)
    by (intros p; apply shifted_id).
  split; [|split; [reflexivity|split]].
  - destruct (members_after_remove (Queue._id q) h (dequeued project) project ps)
      as [m1 [m2 [Hm Hm']]]; auto.
    { intros p. apply shifted_member. }
    assert (Hino : In project order).
    { apply (Permutation_in _ (Permutation_sym Hperm)). rewrite Hm.
      apply in_or_app. right. now left. }
    destruct (in_split _ _ Hino) as [o1 [o2 ->]].
    pose proof (order_members _ _ _ Hperm) as Hmem.
    destruct (order_close q project o1 o2 Hmem Hnum) as [Hmap Hnum'].
    exists (map h (o1 ++ o2)). simpl. split; [|split; [|split; [|split]]].
    + rewrite Hm'. apply Permutation_map.
      rewrite Hm in Hperm. now apply Permutation_app_inv in Hperm.
    + unfold h. now rewrite Hmap.
    + rewrite Hsize, length_map, !length_app. simpl. lia.
    + rewrite Forall_map. apply Forall_app in Hqueued.
      destruct Hqueued as [Hq1 Hq2]. inversion Hq2; subst.
      apply Forall_app. split.
      * eapply Forall_impl; [|exact Hq1]. intros p Hp. simpl.
        unfold h. now rewrite shifted_status.
      * eapply Forall_impl; [|eassumption]. intros p Hp. simpl.
        unfold h. now rewrite shifted_status.
    + intros Hprio. apply nonIncreasing_map.
      * intros p. apply shifted_priority.
      * apply nonIncreasing_without with (x := project). now apply Hsorted.
  - apply ids_after_save with (project := project); auto.
  - intros i Hi. apply members_elsewhere with (project := project); auto.
    + apply memberOf_other with (i := Queue._id q); auto.
    + intros p. apply shifted_member.
    + intros p Hp. unfold h, shifted.
      destruct (Queue.removeFilter q project p) eqn:E; [|reflexivity].
      unfold Queue.removeFilter in E. apply andb_true_iff in E.
      destruct E as [E _]. fold (memberOf (Queue._id q) p) in E.
      rewrite (memberOf_other _ i _ E) in Hp; congruence.
Qed.

(** ** Every request keeps the invariant *)

Lemma QueueInv_same_members (q : Queue.t) (ps ps1 : list Project.t) :
  members (Queue._id q) ps1 = members (Queue._id q) ps ->
  QueueInv q ps -> QueueInv q ps1.
Proof.
  intros Hsame [order H]. exists order. now rewrite Hsame.
Qed.

Lemma queues_after_save (queue q1 : Queue.t) (qs : list Queue.t) :
  In queue qs ->
  Queue._id q1 = Queue._id queue ->
  map Queue._id (save Queue._id q1 qs) = map Queue._id qs
  /\ forall q', In q' (save Queue._id q1 qs) ->
       q' = q1 \/ (In q' qs /\ Queue._id q' <> Queue._id queue).
Proof.
  intros Hin Hid.
  rewrite (save_stored Queue.t Queue._id q1 queue qs Hin (eq_sym Hid)).
  split.
  - apply map_id_replace.
  - intros q' Hq'. apply in_replace in Hq'. rewrite Hid in Hq'. exact Hq'.
Qed.

Lemma StateInv_written (st : QueueService.State) (queue q1 : Queue.t)
  (ps1 : list Project.t) :
  StateInv st ->
  In queue (QueueService.queues st) ->
  Queue._id q1 = Queue._id queue ->
  Queue.autoStart q1 = Queue.autoStart queue ->
  QueueInv q1 ps1 ->
  map Project._id ps1 = map Project._id (QueueService.projects st) ->
  (forall i, i <> Queue._id queue ->
     members i ps1 = members i (QueueService.projects st)) ->
  StateInv (QueueService.mkState (save Queue._id q1 (QueueService.queues st)) ps1).
Proof.
  intros [Hndp [Hndq Hall]] Hin Hid Hauto Hinv Hids Helse.
  destruct (queues_after_save queue q1 (QueueService.queues st) Hin Hid)
    as [Hqids Hqin].
  unfold StateInv. simpl. rewrite Hids, Hqids.
  split; [assumption|]. split; [assumption|].
  intros q' Hq'. destruct (Hqin q' Hq') as [->|[Hold Hne]].
  - split; [|assumption]. rewrite Hauto. apply (Hall queue Hin).
  - destruct (Hall q' Hold) as [Ha Hi]. split; [assumption|].
    apply QueueInv_same_members with (ps := QueueService.projects st); auto.
Qed.

Lemma step_keeps (now : Z) (st : QueueService.State) (r : QueueService.Request) :
  StateInv st -> StateInv (QueueService.step now st r).
Proof.
  intros Hinv. pose proof Hinv as [Hndp [Hndq Hall]].
  destruct r as [queueId projectId|queueId projectId]; simpl.
  - unfold QueueService.addProjectToQueue.
    destruct (findById Queue._id queueId (QueueService.queues st))
      as [queue|] eqn:Hq; [|assumption].
    destruct (Queue.archived queue); [assumption|].
    destruct (findById Project._id projectId (QueueService.projects st))
      as [project|] eqn:Hp; [|assumption].
    destruct (Project.archived project); [assumption|].
    destruct (Project.queueId project) eqn:Hnone; [assumption|].
    destruct (negb (Queue.canAccept (Queue.canAcceptProject queue project)));
      [assumption|].
    apply findById_id in Hq. destruct Hq as [_ Hqin].
    apply findById_id in Hp. destruct Hp as [_ Hpin].
    destruct (Hall queue Hqin) as [Hauto Hqinv].
    destruct (Queue.addProject queue project (QueueService.projects st))
      as [[[position q1] ps1]|msg] eqn:Hadd; simpl; [|assumption].
    destruct (addProject_keeps queue project (QueueService.projects st)
                position q1 ps1 Hndp Hpin Hnone Hqinv Hadd)
      as [Hinv1 [Hq1 [Hids Helse]]].
    assert (Hauto1 : Queue.autoStart q1 = false) by (subst q1; exact Hauto).
    rewrite Hauto1. simpl.
    apply StateInv_written with (queue := queue); auto.
    + now subst q1.
    + congruence.
  - unfold QueueService.removeProjectFromQueue.
    destruct (findById Queue._id queueId (QueueService.queues st))
      as [queue|] eqn:Hq; [|assumption].
    destruct (findById Project._id projectId (QueueService.projects st))
      as [project|] eqn:Hp; [|assumption].
    destruct (negb (ref_is (Project.queueId project) queueId)); [assumption|].
    apply findById_id in Hq. destruct Hq as [_ Hqin].
    apply findById_id in Hp. destruct Hp as [_ Hpin].
    destruct (Hall queue Hqin) as [Hauto Hqinv].
    destruct (Queue.removeProject queue project (QueueService.projects st))
      as [[q1 ps1]|msg] eqn:Hrem; simpl; [|assumption].
    destruct (removeProject_keeps queue project (QueueService.projects st)
                q1 ps1 Hndp Hpin Hqinv Hrem)
      as [Hinv1 [Hq1 [Hids Helse]]].
    apply StateInv_written with (queue := queue); auto.
    + now subst q1.
    + now subst q1.
Qed.

Lemma run_keeps (now : Z) (rs : list QueueService.Request) (st : QueueService.State) :
  StateInv st -> StateInv (QueueService.run now rs st).
Proof.
  unfold QueueService.run. revert st.
  induction rs as [|r rs IH]; simpl; intros st Hinv.
  - assumption.
  - apply IH. now apply step_keeps.
Qed.

Lemma Initial_StateInv (st : QueueService.State) : Initial st -> StateInv st.
Proof.
  intros [Hndp [Hndq [Hqs Hps]]]. split; [assumption|]. split; [assumption|].
  intros q Hq. destruct (Hqs q Hq) as [Hauto Hsize]. split; [assumption|].
  exists []. simpl. split; [|split; [|split; [|split]]]; auto.
  - unfold members. rewrite filter_nothing; [constructor|].
    apply Forall_forall. intros p Hp. unfold memberOf.
    now rewrite (Hps p Hp).
Qed.

(** C1, amended. For every project queue, after any sequence of
    [addProjectToQueue] / [removeProjectFromQueue] requests (to this or to
    any other queue) started with nothing enqueued, the positions of the
    queue's waiting projects are exactly 1..N, each once, N being their
    number. *)
Theorem queue_positions_contiguous :
  forall (now : Z) (rs : list QueueService.Request) (st : QueueService.State)
         (q : Queue.t),
    Initial st ->
    In q (QueueService.queues (QueueService.run now rs st)) ->
    Permutation
      (map Project.queuePosition
         (QueueService.waitingSet q (QueueService.run now rs st)))
      (map Some
         (Zrange 1
            (length (QueueService.waitingSet q (QueueService.run now rs st))))).
Proof.
  intros now rs st q Hinit Hq.
  pose proof (run_keeps now rs st (Initial_StateInv st Hinit)) as [_ [_ Hall]].
  destruct (Hall q Hq) as [_ [order [Hperm [Hnum [_ [Hqueued _]]]]]].
  assert (Hw : QueueService.waitingSet q (QueueService.run now rs st)
               = members (Queue._id q)
                   (QueueService.projects (QueueService.run now rs st))).
  { unfold QueueService.waitingSet, members, Queue.queuedIn.
    apply filter_ext_in. intros p Hp. fold (memberOf (Queue._id q) p).
    destruct (memberOf (Queue._id q) p) eqn:E; [|reflexivity].
    assert (Hin : In p order).
    { apply (Permutation_in _ (Permutation_sym Hperm)).
      apply filter_In. split; assumption. }
    rewrite Forall_forall in Hqueued. now rewrite (Hqueued p Hin). }
  rewrite Hw. rewrite <- Hperm.
  now rewrite (numberedFrom_positions 1 order Hnum).
Qed.

Lemma queue_positions_contiguous_witness :
  Initial (Sample.emptyQueue "priority")
  /\ In (Queue.set_currentSize 2 (Sample.queue "priority"))
       (QueueService.queues
          (QueueService.run 0
             [QueueService.AddProject 1%nat 51%nat;
              QueueService.AddProject 1%nat 52%nat;
              QueueService.AddProject 1%nat 53%nat;
              QueueService.RemoveProject 1%nat 52%nat]
             (Sample.emptyQueue "priority")))
  /\ Permutation
       (map Project.queuePosition
          (QueueService.waitingSet (Queue.set_currentSize 2 (Sample.queue "priority"))
             (QueueService.run 0
                [QueueService.AddProject 1%nat 51%nat;
                 QueueService.AddProject 1%nat 52%nat;
                 QueueService.AddProject 1%nat 53%nat;
                 QueueService.RemoveProject 1%nat 52%nat]
                (Sample.emptyQueue "priority"))))
       (map Some
          (Zrange 1
             (length
                (QueueService.waitingSet
                   (Queue.set_currentSize 2 (Sample.queue "priority"))
                   (QueueService.run 0
                      [QueueService.AddProject 1%nat 51%nat;
                       QueueService.AddProject 1%nat 52%nat;
                       QueueService.AddProject 1%nat 53%nat;
                       QueueService.RemoveProject 1%nat 52%nat]
                      (Sample.emptyQueue "priority")))))).
Proof.
  assert (Hinit : Initial (Sample.emptyQueue "priority")).
  { split; [|split; [|split]].
    - simpl. repeat constructor; simpl; intuition discriminate.
    - simpl. repeat constructor; simpl; intuition.
    - intros q [<-|[]]. split; reflexivity.
    - intros p [<-|[<-|[<-|[]]]]; reflexivity. }
  assert (Hin : In (Queue.set_currentSize 2 (Sample.queue "priority"))
       (QueueService.queues
          (QueueService.run 0
             [QueueService.AddProject 1%nat 51%nat;
              QueueService.AddProject 1%nat 52%nat;
              QueueService.AddProject 1%nat 53%nat;
              QueueService.RemoveProject 1%nat 52%nat]
             (Sample.emptyQueue "priority")))).
  { left. vm_compute. reflexivity. }
  split; [exact Hinit|]. split; [exact Hin|].
  exact (queue_positions_contiguous 0 _ _ _ Hinit Hin).
Defined.

(** ** The priority example *)

(** C3, amended. In a project queue of type [priority], adding A
    (priority 3) and then B (priority 8) leaves B at position 1 and A at
    position 2, and [getNextProject] returns B. Tokens are not placed by
    priority: issued in the same order by [Token.generateToken] they sit at
    positions 1 (A) and 2 (B), yet [callNextToken], which sorts by priority
    first, calls B. *)
Theorem priority_example :
  Sample.positionOf 52%nat
    (QueueService.run 0
       [QueueService.AddProject 1%nat 51%nat; QueueService.AddProject 1%nat 52%nat]
       (Sample.emptyQueue "priority")) = Some (Some 1)
  /\ Sample.positionOf 51%nat
       (QueueService.run 0
          [QueueService.AddProject 1%nat 51%nat; QueueService.AddProject 1%nat 52%nat]
          (Sample.emptyQueue "priority")) = Some (Some 2)
  /\ option_map Project._id
       (Sample.nextOf 1%nat
          (QueueService.run 0
             [QueueService.AddProject 1%nat 51%nat;
              QueueService.AddProject 1%nat 52%nat]
             (Sample.emptyQueue "priority"))) = Some 52%nat
  /\ option_map (fun tk => (Token.priority tk, Token.queuePosition tk))
       (snd (Counter.callNextToken Sample.idleCounter Sample.now
               (Sample.issued [Sample.issue 11%nat 3; Sample.issue 12%nat 8]
                  [])))
     = Some (8, Some 2)
  /\ map (fun tk => (Token.priority tk, Token.queuePosition tk))
       (Sample.issued [Sample.issue 11%nat 3; Sample.issue 12%nat 8] [])
     = [(3, Some 1); (8, Some 2)].
Proof. vm_compute. repeat split. Qed.

(** ** Removal compaction *)

Lemma findById_updateMany (f : Project.t -> bool) (d : Z) (i : ObjectId)
  (ps : list Project.t) :
  findById Project._id i (updateMany f (Project.inc_queuePosition d) ps)
  = option_map (shifted f d) (findById Project._id i ps).
Proof.
  rewrite updateMany_shifted. apply findById_map_other.
  intros p. apply shifted_id.
Qed.

(** C4, amended. [removeProject] moves every other project of the queue
    whose position is greater than the removed project's position down by
    exactly 1 and stores every other project unchanged; the removed project
    is stored without queue and position. (The token handlers never call
    it.) *)
Theorem removeProject_compacts :
  forall (q : Queue.t) (project : Project.t) (ps : list Project.t)
         (q1 : Queue.t) (ps1 : list Project.t) (r : Z),
    Queue.removeProject q project ps = Ok (q1, ps1) ->
    Project.queuePosition project = Some r ->
    findById Project._id (Project._id project) ps1 = Some (dequeued project)
    /\ forall (i : ObjectId) (p : Project.t),
         i <> Project._id project ->
         findById Project._id i ps = Some p ->
         findById Project._id i ps1
         = Some (if memberOf (Queue._id q) p && optZ_gtb (Project.queuePosition p) r
                 then Project.inc_queuePosition (-1) p
                 else p).
Proof.
  intros q project ps q1 ps1 r Hrem Hpos.
  unfold Queue.removeProject in Hrem.
  destruct (negb (ref_is (Project.queueId project) (Queue._id q)));
    [discriminate|].
  injection Hrem as <- <-. fold (dequeued project). split.
  - apply (findById_save_same Project.t Project._id (dequeued project)).
  - intros i p Hi Hfind.
    rewrite findById_save_other by exact Hi.
    rewrite findById_updateMany, Hfind. simpl. unfold shifted.
    unfold Queue.removeFilter. rewrite Hpos. reflexivity.
Qed.

Lemma removeProject_compacts_witness :
  Queue.removeProject (Queue.set_currentSize 3 (Sample.queue "fifo"))
    Sample.queuedB [Sample.queuedA; Sample.queuedB; Sample.queuedC]
  = Ok (Queue.set_currentSize 2 (Sample.queue "fifo"),
        [Sample.queuedA; dequeued Sample.queuedB; Sample.queued 53%nat 5 2])
  /\ Project.queuePosition Sample.queuedB = Some 2
  /\ findById Project._id (Project._id Sample.queuedB)
       [Sample.queuedA; dequeued Sample.queuedB; Sample.queued 53%nat 5 2]
     = Some (dequeued Sample.queuedB)
  /\ forall (i : ObjectId) (p : Project.t),
       i <> Project._id Sample.queuedB ->
       findById Project._id i [Sample.queuedA; Sample.queuedB; Sample.queuedC]
       = Some p ->
       findById Project._id i
         [Sample.queuedA; dequeued Sample.queuedB; Sample.queued 53%nat 5 2]
       = Some (if memberOf (Queue._id (Queue.set_currentSize 3 (Sample.queue "fifo"))) p
                  && optZ_gtb (Project.queuePosition p) 2
               then Project.inc_queuePosition (-1) p
               else p).
Proof.
  split; [reflexivity|]. split; [reflexivity|].
  apply (removeProject_compacts (Queue.set_currentSize 3 (Sample.queue "fifo"))
           Sample.queuedB [Sample.queuedA; Sample.queuedB; Sample.queuedC]
           (Queue.set_currentSize 2 (Sample.queue "fifo"))
           [Sample.queuedA; dequeued Sample.queuedB; Sample.queued 53%nat 5 2] 2);
    reflexivity.
Defined.

(** Removing B from [A=1, B=2, C=3] leaves [A=1, C=2]. *)
Example removeProject_closes_gap :
  map Project.queuePosition
    (QueueService.waitingSet (Sample.queue "fifo")
       (QueueService.run 0 [QueueService.RemoveProject 1%nat 52%nat]
          Sample.fullQueue))
  = [Some 1; Some 2]
  /\ map Project._id
       (QueueService.waitingSet (Sample.queue "fifo")
          (QueueService.run 0 [QueueService.RemoveProject 1%nat 52%nat]
             Sample.fullQueue))
     = [51%nat; 53%nat].
Proof. vm_compute. split; reflexivity. Qed.

(** ** The administrative reorder *)

Lemma set_queuePosition_twice (v w : option Z) (p : Project.t) :
  Project.set_queuePosition v (Project.set_queuePosition w p)
  = Project.set_queuePosition v p.
Proof. reflexivity. Qed.

Lemma oid_eqb_sym (a b : ObjectId) : oid_eqb a b = oid_eqb b a.
Proof. apply Nat.eqb_sym. Qed.

Lemma option_map_same (g : Project.t -> Project.t) (o : option Project.t) :
  (forall p, o = Some p -> g p = p) -> option_map g o = o.
Proof.
  destruct o as [p|]; simpl; intros H; [|reflexivity]. now rewrite H.
Qed.

(** What one [updateOne] of the bulk write does to the document found
    under an identifier. *)
Lemma findById_updateOne (queue : Queue.t) (x : ObjectId) (v : option Z)
  (i : ObjectId) (ps : list Project.t) :
  findById Project._id i
    (QueueService.updateOne (QueueService.reorderFilter queue x)
       (Project.set_queuePosition v) ps)
  = option_map
      (fun p => if oid_eqb x i && memberOf (Queue._id queue) p
                then Project.set_queuePosition v p else p)
      (findById Project._id i ps).
Proof.
  induction ps as [|p ps IH]; simpl; [reflexivity|].
  unfold QueueService.reorderFilter at 1. fold (memberOf (Queue._id queue) p).
  destruct (oid_eqb (Project._id p) x && memberOf (Queue._id queue) p) eqn:Ef.
  - apply andb_true_iff in Ef. destruct Ef as [Ex Em].
    apply oid_eqb_eq in Ex. unfold findById in *. simpl.
    destruct (oid_eqb (Project._id p) i) eqn:Ei.
    + simpl. apply oid_eqb_eq in Ei.
      assert (E : oid_eqb x i = true) by (apply oid_eqb_eq; congruence).
      now rewrite E, Em.
    + symmetry. apply option_map_same. intros p' Hp'.
      assert (E : oid_eqb x i = false).
      { apply oid_eqb_neq. apply oid_eqb_neq in Ei. congruence. }
      now rewrite E.
  - unfold findById in *. simpl.
    destruct (oid_eqb (Project._id p) i) eqn:Ei.
    + simpl. apply oid_eqb_eq in Ei. subst i.
      rewrite (oid_eqb_sym x (Project._id p)). now rewrite Ef.
    + exact IH.
Qed.

(** The document found under an identifier after the whole bulk write. *)
Lemma findById_bulkWrite (queue : Queue.t) (projectOrder : list ObjectId)
  (index : Z) (i : ObjectId) (ps : list Project.t) :
  findById Project._id i (QueueService.bulkWrite queue projectOrder index ps)
  = option_map
      (fun p => match lastIndexFrom index i projectOrder with
                | Some k =>
                  if memberOf (Queue._id queue) p
                  then Project.set_queuePosition (Some (k + 1)) p else p
                | None => p
                end)
      (findById Project._id i ps).
Proof.
  revert index ps. induction projectOrder as [|x rest IH]; intros index ps; simpl.
  - now destruct (findById Project._id i ps).
  - rewrite IH, findById_updateOne.
    destruct (findById Project._id i ps) as [p|]; simpl; [|reflexivity].
    f_equal.
    destruct (lastIndexFrom (index + 1) i rest) as [k|].
    + destruct (oid_eqb x i && memberOf (Queue._id queue) p) eqn:E.
      * apply andb_true_iff in E. destruct E as [_ Em].
        unfold memberOf in *. simpl. now rewrite Em.
      * reflexivity.
    + destruct (oid_eqb x i); simpl; reflexivity.
Qed.

(** C9, as the claim states it, fails: asked by its creator to reorder the
    queue holding A, B and C with the list [C, unknown], which misses A and
    B and names a stranger, the service answers with success and moves C to
    position 1, next to A. *)
Lemma reorderQueue_accepts_any_list :
  exists st1 : QueueService.State,
    QueueService.reorderQueue 1%nat [53%nat; 99%nat]
      (QueueService.IdString 41%nat) Sample.fullQueue
    = Ok (st1, [53%nat; 99%nat])
    /\ map (fun p => (Project._id p, Project.queuePosition p))
         (QueueService.projects st1)
       = [(51%nat, Some 1); (52%nat, Some 2); (53%nat, Some 1)].
Proof. eexists. split; vm_compute; reflexivity. Qed.

(** C9, amended. [reorderQueue] checks who asks, never what is asked.
    Asked by the creator of the queue, the user id given as a string, it
    succeeds on every list and returns the list: each listed identifier of a
    project of the queue gets the position of its (last) place in the list,
    counted from 1; a project that is not listed, or not in this queue, is
    stored unchanged, and an identifier that names no project of the queue
    is skipped. Asked by any other user who sees the queue, or with the
    user id given as an ObjectId, it throws, whatever the list. *)
Theorem reorderQueue_writes_without_validation :
  forall (queueId : ObjectId) (projectOrder : list ObjectId) (creator : ObjectId)
         (st : QueueService.State) (queue : Queue.t),
    QueueService.getQueueById queueId creator st = Some queue ->
    Queue.createdBy queue = creator ->
    (exists st1 : QueueService.State,
        QueueService.reorderQueue queueId projectOrder
          (QueueService.IdString creator) st
        = Ok (st1, projectOrder)
        /\ QueueService.queues st1 = QueueService.queues st
        /\ forall (i : ObjectId) (p : Project.t),
             findById Project._id i (QueueService.projects st) = Some p ->
             findById Project._id i (QueueService.projects st1)
             = Some (match lastIndexFrom 0 i projectOrder with
                     | Some k =>
                       if memberOf (Queue._id queue) p
                       then Project.set_queuePosition (Some (k + 1)) p else p
                     | None => p
                     end))
    /\ (forall (user : ObjectId) (q : Queue.t),
          QueueService.getQueueById queueId user st = Some q ->
          Queue.createdBy q <> user ->
          QueueService.reorderQueue queueId projectOrder
            (QueueService.IdString user) st
          = Err "Insufficient permissions to reorder queue")
    /\ (forall user : ObjectId,
          exists message : string,
            QueueService.reorderQueue queueId projectOrder
              (QueueService.IdObject user) st
            = Err message).
Proof.
  intros queueId projectOrder creator st queue Hqueue Hcreator.
  split; [|split].
  - unfold QueueService.reorderQueue. simpl. rewrite Hqueue. simpl.
    assert (E : oid_eqb (Queue.createdBy queue) creator = true)
      by now apply oid_eqb_eq.
    rewrite E. simpl.
    eexists. split; [reflexivity|]. split; [reflexivity|].
    intros i p Hfind. simpl. now rewrite findById_bulkWrite, Hfind.
  - intros user q Hq Hother.
    unfold QueueService.reorderQueue. simpl. rewrite Hq. simpl.
    assert (E : oid_eqb (Queue.createdBy q) user = false)
      by now apply oid_eqb_neq.
    now rewrite E.
  - intros user. unfold QueueService.reorderQueue. simpl.
    destruct (QueueService.getQueueById queueId user st); eauto.
Qed.

Lemma reorderQueue_writes_without_validation_witness :
  (exists st1 : QueueService.State,
      QueueService.reorderQueue 1%nat [53%nat; 99%nat]
        (QueueService.IdString 41%nat) Sample.fullQueue
      = Ok (st1, [53%nat; 99%nat])
      /\ QueueService.queues st1 = QueueService.queues Sample.fullQueue
      /\ forall (i : ObjectId) (p : Project.t),
           findById Project._id i (QueueService.projects Sample.fullQueue)
           = Some p ->
           findById Project._id i (QueueService.projects st1)
           = Some (match lastIndexFrom 0 i [53%nat; 99%nat] with
                   | Some k =>
                     if memberOf
                          (Queue._id (Queue.set_currentSize 3 (Sample.queue "fifo")))
                          p
                     then Project.set_queuePosition (Some (k + 1)) p else p
                   | None => p
                   end))
  /\ (forall (user : ObjectId) (q : Queue.t),
        QueueService.getQueueById 1%nat user Sample.fullQueue = Some q ->
        Queue.createdBy q <> user ->
        QueueService.reorderQueue 1%nat [53%nat; 99%nat]
          (QueueService.IdString user) Sample.fullQueue
        = Err "Insufficient permissions to reorder queue")
  /\ (forall user : ObjectId,
        exists message : string,
          QueueService.reorderQueue 1%nat [53%nat; 99%nat]
            (QueueService.IdObject user) Sample.fullQueue
          = Err message).
Proof.
  apply (reorderQueue_writes_without_validation 1%nat [53%nat; 99%nat] 41%nat
           Sample.fullQueue (Queue.set_currentSize 3 (Sample.queue "fifo")));
    reflexivity.
Defined.

(** ** Tokens that are only issued *)

Lemma Zrange_snoc (s : Z) (n : nat) :
  Zrange s (S n) = Zrange s n ++ [s + Z.of_nat n].
Proof.
  revert s. induction n as [|n IH]; intros s.
  - simpl. now rewrite Z.add_0_r.
  - change (Zrange s (S (S n))) with (s :: Zrange (s + 1) (S n)).
    rewrite IH.
    change (Zrange s (S n)) with (s :: Zrange (s + 1) n).
    rewrite <- app_comm_cons. do 3 f_equal. lia.
Qed.

Lemma id_below_fresh (tks : list Token.t) (tk : Token.t) :
  In tk tks -> (Token._id tk < Token.freshId tks)%nat.
Proof.
  unfold Token.freshId. induction tks as [|x tks IH]; simpl; [contradiction|].
  intros [->|Hin].
  - lia.
  - specialize (IH Hin). lia.
Qed.

Lemma save_fresh (tk : Token.t) (tks : list Token.t) :
  Token._id tk = Token.freshId tks ->
  save Token._id tk tks = tks ++ [tk].
Proof.
  intros Hid. unfold save.
  assert (H : existsb (fun x => oid_eqb (Token._id x) (Token._id tk)) tks = false).
  { apply not_true_is_false. intros H. apply existsb_exists in H.
    destruct H as [x [Hin Heq]]. apply oid_eqb_eq in Heq.
    pose proof (id_below_fresh tks x Hin). lia. }
  now rewrite H.
Qed.

Lemma today_of_issue (now : Z) (tk : Token.t) :
  Token.businessDate tk = startOfDay now -> Token.today now tk = true.
Proof.
  intros H. unfold Token.today, endOfDay, msPerDay. rewrite H.
  apply andb_true_iff. split; [apply Z.leb_le|apply Z.ltb_lt]; lia.
Qed.

Lemma issue_keeps (depts : list Department.t) (now : Z) (tks : list Token.t)
  (r : Issuance.Request) :
  Issuance.Inv now tks -> Issuance.Inv now (Issuance.step depts now tks r).
Proof.
  intros [Hall Hnum]. unfold Issuance.step, Token.generateToken.
  destruct (Token.generateTokenNumber depts tks (Issuance.departmentId r) now)
    as [[tokenNumber displayNumber]|msg]; simpl; [|now split].
  destruct (Token.numberTaken (toUpperCase tokenNumber) tks); [now split|].
  match goal with |- context [save Token._id ?t tks] => set (tk := t) end.
  assert (Hq : forall d, Token.inQueueOf d now tk
                         = oid_eqb (Issuance.departmentId r) d).
  { intros d. unfold Token.inQueueOf.
    rewrite (today_of_issue now tk eq_refl). simpl. now rewrite !andb_true_r. }
  assert (Hpos : Token.queuePosition tk
                 = Some (1 + Z.of_nat
                           (length (List.filter
                                      (Token.inQueueOf (Issuance.departmentId r) now)
                                      tks)))).
  { unfold tk. cbn [Token.queuePosition]. unfold countDocuments. f_equal. lia. }
  assert (Hnew : Token.status tk = "waiting"
                 /\ Token.businessDate tk = startOfDay now)
    by (split; reflexivity).
  rewrite (save_fresh tk tks eq_refl). clearbody tk.
  split.
  - intros x Hin. apply in_app_or in Hin. destruct Hin as [Hin|[<-|[]]].
    + now apply Hall.
    + exact Hnew.
  - intros d. rewrite filter_app. cbn [List.filter]. rewrite Hq.
    destruct (oid_eqb (Issuance.departmentId r) d) eqn:Ed.
    + apply oid_eqb_eq in Ed. subst d.
      rewrite map_app, length_app, Hnum. cbn [length map].
      rewrite Nat.add_1_r, Zrange_snoc, map_app, Hpos. reflexivity.
    + rewrite app_nil_r. apply Hnum.
Qed.

(** After any sequence of issuances, and nothing else, the waiting tokens
    of every department carry exactly the positions 1..N, in the order of
    their arrival. *)
Lemma issued_positions_contiguous :
  forall (depts : list Department.t) (now : Z) (rs : list Issuance.Request)
         (d : ObjectId),
    map Token.queuePosition
      (List.filter (Token.waitingIn d now) (Issuance.run depts now rs []))
    = map Some
        (Zrange 1
           (length (List.filter (Token.waitingIn d now)
                      (Issuance.run depts now rs [])))).
Proof.
  intros depts now rs d.
  assert (Hinv : Issuance.Inv now (Issuance.run depts now rs [])).
  { unfold Issuance.run.
    assert (H0 : Issuance.Inv now []) by (split; [intros tk []|reflexivity]).
    revert H0. generalize (@nil Token.t).
    induction rs as [|r rs IH]; simpl; intros tks H; [assumption|].
    apply IH. now apply issue_keeps. }
  destruct Hinv as [Hall Hnum].
  assert (Hsame : List.filter (Token.waitingIn d now) (Issuance.run depts now rs [])
                  = List.filter (Token.inQueueOf d now) (Issuance.run depts now rs [])).
  { apply filter_ext_in. intros tk Hin. destruct (Hall tk Hin) as [Hs _].
    unfold Token.waitingIn, Token.inQueueOf. now rewrite Hs. }
  rewrite Hsame. apply Hnum.
Qed.

(** * Further properties *)

(** Discharges [Initial] for the sample states. *)
Ltac sample_initial :=
  split; [|split; [|split]];
  [ simpl; repeat constructor; simpl; intuition discriminate
  | simpl; repeat constructor; simpl; intuition
  | intros q [<-|[]]; split; reflexivity
  | intros p [<-|[<-|[<-|[]]]]; reflexivity ].

(** ** Sorted queries *)

Section SortedQueries.
Variable Doc : Type.
Variable before : Doc -> Doc -> bool.
Hypothesis before_irrefl : forall x, before x x = false.
Hypothesis before_trans :
  forall x y z, before x y = true -> before y z = true -> before x z = true.

Lemma firstBy_in (best : Doc) (rest : list Doc) :
  In (firstBy before best rest) (best :: rest).
Proof.
  revert best. induction rest as [|d rest IH]; intros best; simpl.
  - now left.
  - destruct (IH (if before d best then d else best)) as [H|H].
    + destruct (before d best); [right; left|left]; congruence.
    + right. now right.
Qed.

Lemma firstBy_first (best : Doc) (rest : list Doc) (seen : list Doc) :
  (forall x, In x seen -> before x best = false) ->
  forall x, In x (seen ++ best :: rest) ->
            before x (firstBy before best rest) = false.
Proof.
  revert best seen. induction rest as [|d rest IH]; intros best seen Hseen x Hx; simpl.
  - apply in_app_or in Hx. destruct Hx as [Hx|[<-|[]]]; auto.
  - destruct (before d best) eqn:E.
    + apply (IH d (seen ++ [best])).
      * intros y Hy. apply in_app_or in Hy. destruct Hy as [Hy|[<-|[]]].
        -- destruct (before y d) eqn:Eyd; [|reflexivity].
           rewrite <- (Hseen y Hy). symmetry. now apply before_trans with (y := d).
        -- destruct (before best d) eqn:Ebd; [|reflexivity].
           rewrite <- (before_irrefl best). symmetry.
           now apply before_trans with (y := d).
      * rewrite <- app_assoc. exact Hx.
    + apply (IH best (seen ++ [d])).
      * intros y Hy. apply in_app_or in Hy. destruct Hy as [Hy|[<-|[]]]; auto.
      * apply in_app_or in Hx. apply in_or_app.
        destruct Hx as [Hx|[<-|[<-|Hx]]].
        -- left. apply in_or_app. now left.
        -- right. now left.
        -- left. apply in_or_app. right. now left.
        -- right. now right.
Qed.

(** What [findOne(filter).sort(order)] returns: a matching document that
    no matching document precedes; nothing exactly when nothing matches. *)
Lemma findOneSorted_first (filter : Doc -> bool) (coll : list Doc) (r : Doc) :
  findOneSorted filter before coll = Some r ->
  In r coll /\ filter r = true
  /\ forall x, In x coll -> filter x = true -> before x r = false.
Proof.
  unfold findOneSorted. intros H.
  destruct (List.filter filter coll) as [|d rest] eqn:E; [discriminate|].
  injection H as <-.
  assert (Hin : In (firstBy before d rest) (List.filter filter coll))
    by (rewrite E; apply firstBy_in).
  apply filter_In in Hin. destruct Hin as [Hin Hf].
  split; [assumption|]. split; [assumption|].
  intros x Hx Hfx. apply (firstBy_first d rest []); [intros y []|].
  change (In x (d :: rest)). rewrite <- E. apply filter_In. now split.
Qed.

Lemma findOneSorted_none (filter : Doc -> bool) (coll : list Doc) :
  findOneSorted filter before coll = None <-> List.filter filter coll = [].
Proof.
  unfold findOneSorted. destruct (List.filter filter coll); split; intros H;
    try reflexivity; discriminate.
Qed.

End SortedQueries.

Lemma optZ_ltb_irrefl (a : option Z) : optZ_ltb a a = false.
Proof. destruct a; simpl; [apply Z.ltb_irrefl|reflexivity]. Qed.

Lemma optZ_ltb_trans (a b c : option Z) :
  optZ_ltb a b = true -> optZ_ltb b c = true -> optZ_ltb a c = true.
Proof.
  destruct a, b, c; simpl; try discriminate; auto.
  rewrite !Z.ltb_lt. lia.
Qed.

(** ** What the invariant of a project queue gives *)

Lemma waitingSet_members (st : QueueService.State) (q : Queue.t) :
  StateInv st -> In q (QueueService.queues st) ->
  QueueService.waitingSet q st = members (Queue._id q) (QueueService.projects st).
Proof.
  intros [_ [_ Hall]] Hq.
  destruct (Hall q Hq) as [_ [order [Hperm [_ [_ [Hqueued _]]]]]].
  unfold QueueService.waitingSet, members, Queue.queuedIn.
  apply filter_ext_in. intros p Hp. fold (memberOf (Queue._id q) p).
  destruct (memberOf (Queue._id q) p) eqn:E; [|reflexivity].
  assert (Hin : In p order).
  { apply (Permutation_in _ (Permutation_sym Hperm)).
    apply filter_In. split; assumption. }
  rewrite Forall_forall in Hqueued. now rewrite (Hqueued p Hin).
Qed.

Lemma sorted_positions (s : Z) (l : list Project.t) (a b : Project.t) :
  numberedFrom s l -> nonIncreasing l -> In a l -> In b l ->
  Project.priority b < Project.priority a ->
  optZ_ltb (Project.queuePosition a) (Project.queuePosition b) = true.
Proof.
  revert s. induction l as [|p l IH]; intros s Hnum Hsorted Ha Hb Hlt;
    [contradiction|].
  destruct Hnum as [Hp Hnum]. destruct Hsorted as [Hle Hsorted].
  pose proof (numberedFrom_bounds _ _ Hnum) as Hbounds.
  rewrite Forall_forall in Hle, Hbounds.
  destruct Ha as [<-|Ha], Hb as [<-|Hb].
  - lia.
  - destruct (Hbounds b Hb) as [k [Hk Hrange]]. rewrite Hp, Hk. simpl.
    apply Z.ltb_lt. lia.
  - pose proof (Hle a Ha). simpl in *. lia.
  - now apply (IH (s + 1)).
Qed.

(** X1. In a priority or weighted queue the waiting projects stay ordered
    by priority through every sequence of requests: a project of higher
    priority always has the smaller position. *)
Theorem priority_order_kept :
  forall (now : Z) (rs : list QueueService.Request) (st : QueueService.State)
         (q : Queue.t) (a b : Project.t),
    Initial st ->
    In q (QueueService.queues (QueueService.run now rs st)) ->
    Queue.isPriorityType (Queue.type q) = true ->
    In a (QueueService.waitingSet q (QueueService.run now rs st)) ->
    In b (QueueService.waitingSet q (QueueService.run now rs st)) ->
    Project.priority b < Project.priority a ->
    optZ_ltb (Project.queuePosition a) (Project.queuePosition b) = true.
Proof.
  intros now rs st q a b Hinit Hq Hprio Ha Hb Hlt.
  pose proof (run_keeps now rs st (Initial_StateInv st Hinit)) as Hinv.
  rewrite (waitingSet_members _ q Hinv Hq) in Ha, Hb.
  destruct Hinv as [_ [_ Hall]].
  destruct (Hall q Hq) as [_ [order [Hperm [Hnum [_ [_ Hsorted]]]]]].
  apply (sorted_positions 1 order); auto.
  - now apply (Permutation_in _ (Permutation_sym Hperm)).
  - now apply (Permutation_in _ (Permutation_sym Hperm)).
Qed.

Lemma priority_order_kept_witness :
  optZ_ltb (Project.queuePosition (Sample.queued 52%nat 8 1))
    (Project.queuePosition (Sample.queued 51%nat 3 2)) = true.
Proof.
  apply (priority_order_kept 0 Scenario.addAB (Sample.emptyQueue "priority")
           (Scenario.holding 2 "priority")).
  - sample_initial.
  - left. vm_compute. reflexivity.
  - reflexivity.
  - vm_compute. auto.
  - vm_compute. auto.
  - simpl. lia.
Defined.

(** X2. The size statistic is exact: after every sequence of requests
    [stats.currentSize] is the number of projects waiting in the queue. *)
Theorem currentSize_counts_waiting :
  forall (now : Z) (rs : list QueueService.Request) (st : QueueService.State)
         (q : Queue.t),
    Initial st ->
    In q (QueueService.queues (QueueService.run now rs st)) ->
    Queue.currentSize q
    = Z.of_nat (length (QueueService.waitingSet q (QueueService.run now rs st))).
Proof.
  intros now rs st q Hinit Hq.
  pose proof (run_keeps now rs st (Initial_StateInv st Hinit)) as Hinv.
  rewrite (waitingSet_members _ q Hinv Hq).
  destruct Hinv as [_ [_ Hall]].
  destruct (Hall q Hq) as [_ [order [Hperm [_ [Hsize _]]]]].
  now rewrite Hsize, (Permutation_length Hperm).
Qed.

Lemma currentSize_counts_waiting_witness :
  Queue.currentSize (Scenario.holding 2 "priority")
  = Z.of_nat (length (QueueService.waitingSet (Scenario.holding 2 "priority")
                        (QueueService.run 0 Scenario.addAB
                           (Sample.emptyQueue "priority")))).
Proof.
  apply (currentSize_counts_waiting 0 Scenario.addAB
           (Sample.emptyQueue "priority") (Scenario.holding 2 "priority")).
  - sample_initial.
  - left. vm_compute. reflexivity.
Defined.

Lemma currentSize_is_waiting (st : QueueService.State) (q : Queue.t) :
  StateInv st -> In q (QueueService.queues st) ->
  Queue.currentSize q = Z.of_nat (length (QueueService.waitingSet q st)).
Proof.
  intros Hinv Hq. rewrite (waitingSet_members _ q Hinv Hq).
  destruct Hinv as [_ [_ Hall]].
  destruct (Hall q Hq) as [_ [order [Hperm [_ [Hsize _]]]]].
  now rewrite Hsize, (Permutation_length Hperm).
Qed.

(** ** The capacity of a queue *)

Lemma in_save (Doc : Type) (doc_id : Doc -> ObjectId) (d x : Doc) (coll : list Doc) :
  In x (save doc_id d coll) -> x = d \/ In x coll.
Proof.
  unfold save.
  destruct (existsb (fun y => oid_eqb (doc_id y) (doc_id d)) coll).
  - intros H. apply in_map_iff in H. destruct H as [y [Hy Hin]].
    destruct (oid_eqb (doc_id y) (doc_id d)); [left|right]; congruence.
  - intros H. apply in_app_or in H. destruct H as [H|[<-|[]]]; auto.
Qed.

Lemma canAccept_below_capacity (q : Queue.t) (project : Project.t) :
  Queue.canAccept (Queue.canAcceptProject q project) = true ->
  Queue.currentSize q < Queue.capacity q.
Proof.
  unfold Queue.canAcceptProject.
  destruct (Queue.capacity q <=? Queue.currentSize q) eqn:E; [discriminate|].
  intros _. now apply Z.leb_gt in E.
Qed.

Lemma processNext_fits (queueId : ObjectId) (now : Z) (st : QueueService.State) :
  (forall q, In q (QueueService.queues st) -> QueueAdmin.fits q) ->
  forall q, In q (QueueService.queues
                    (fst (QueueService.processNextProject queueId now st))) ->
            QueueAdmin.fits q.
Proof.
  intros Hall q. unfold QueueService.processNextProject.
  destruct (findById Queue._id queueId (QueueService.queues st))
    as [queue|] eqn:Hq; [|apply Hall].
  destruct (negb (Queue.status queue =? "active")%string); [apply Hall|].
  destruct (Queue.concurrency queue <=? Queue.processing queue); [apply Hall|].
  destruct (Queue.getNextProject queue (QueueService.projects st));
    [|apply Hall].
  simpl. intros Hin. apply in_save in Hin. destruct Hin as [->|Hin].
  - apply findById_id in Hq. destruct Hq as [_ Hq]. exact (Hall queue Hq).
  - now apply Hall.
Qed.

Lemma step_fits (now : Z) (st : QueueService.State) (r : QueueService.Request) :
  (forall q, In q (QueueService.queues st) -> QueueAdmin.fits q) ->
  forall q, In q (QueueService.queues (QueueService.step now st r)) -> QueueAdmin.fits q.
Proof.
  intros Hall. destruct r as [queueId projectId|queueId projectId]; simpl.
  - unfold QueueService.addProjectToQueue.
    destruct (findById Queue._id queueId (QueueService.queues st))
      as [queue|] eqn:Hq; [|assumption].
    destruct (Queue.archived queue); [assumption|].
    destruct (findById Project._id projectId (QueueService.projects st))
      as [project|]; [|assumption].
    destruct (Project.archived project); [assumption|].
    destruct (Project.queueId project); [assumption|].
    destruct (Queue.canAccept (Queue.canAcceptProject queue project)) eqn:Hacc;
      simpl; [|assumption].
    apply findById_id in Hq. destruct Hq as [_ Hq].
    pose proof (canAccept_below_capacity _ _ Hacc) as Hroom.
    unfold Queue.addProject. rewrite Hacc. simpl.
    set (q1 := Queue.set_currentSize (Queue.currentSize queue + 1) queue).
    assert (Hq1 : QueueAdmin.fits q1).
    { destruct (Hall queue Hq) as [_ H0]. split; simpl; [lia|assumption]. }
    assert (Hsaved : forall q,
              In q (save Queue._id q1 (QueueService.queues st)) ->
              QueueAdmin.fits q).
    { intros q Hin. apply in_save in Hin. destruct Hin as [->|Hin]; auto. }
    destruct (Queue.type queue =? "fifo")%string;
      [|destruct (Queue.type queue =? "lifo")%string;
        [|destruct (Queue.isPriorityType (Queue.type queue))]];
      simpl;
      (destruct (Queue.autoStart queue
                 && (Queue.processing queue <? Queue.concurrency queue));
       simpl; [apply processNext_fits|]; exact Hsaved).
  - unfold QueueService.removeProjectFromQueue.
    destruct (findById Queue._id queueId (QueueService.queues st))
      as [queue|] eqn:Hq; [|assumption].
    destruct (findById Project._id projectId (QueueService.projects st))
      as [project|]; [|assumption].
    destruct (negb (ref_is (Project.queueId project) queueId)); [assumption|].
    apply findById_id in Hq. destruct Hq as [_ Hq].
    unfold Queue.removeProject.
    destruct (negb (ref_is (Project.queueId project) (Queue._id queue)));
      simpl; [assumption|].
    intros q Hin. apply in_save in Hin. destruct Hin as [->|Hin]; auto.
    destruct (Hall queue Hq) as [H1 H0]. split; simpl; [lia|assumption].
Qed.

Lemma run_fits (now : Z) (rs : list QueueService.Request) (st : QueueService.State) :
  (forall q, In q (QueueService.queues st) -> QueueAdmin.fits q) ->
  forall q, In q (QueueService.queues (QueueService.run now rs st)) -> QueueAdmin.fits q.
Proof.
  unfold QueueService.run. revert st.
  induction rs as [|r rs IH]; simpl; intros st Hall; [assumption|].
  apply IH. now apply step_fits.
Qed.

(** X3. A queue never holds more than its capacity: with auto-start off on
    every queue, no capacity negative and nothing enqueued at the start,
    after every sequence of add and remove requests the number of waiting
    projects is at most [capacity], and [availableSlots] is exactly what is
    left of it. *)
Theorem waiting_within_capacity :
  forall (now : Z) (rs : list QueueService.Request) (st : QueueService.State)
         (q : Queue.t),
    Initial st ->
    (forall q0, In q0 (QueueService.queues st) -> 0 <= Queue.capacity q0) ->
    In q (QueueService.queues (QueueService.run now rs st)) ->
    Z.of_nat (length (QueueService.waitingSet q (QueueService.run now rs st)))
    <= Queue.capacity q
    /\ QueueAdmin.availableSlots q
       = Queue.capacity q
         - Z.of_nat (length (QueueService.waitingSet q
                               (QueueService.run now rs st))).
Proof.
  intros now rs st q Hinit Hcap Hq.
  pose proof (run_keeps now rs st (Initial_StateInv st Hinit)) as Hinv.
  rewrite <- (currentSize_is_waiting _ q Hinv Hq).
  assert (Hfits : QueueAdmin.fits q).
  { apply (run_fits now rs st); [|assumption].
    intros q0 Hq0. destruct Hinit as [_ [_ [Hqs _]]].
    destruct (Hqs q0 Hq0) as [_ Hzero]. split; [rewrite Hzero|]; now apply Hcap. }
  destruct Hfits as [Hle _]. unfold QueueAdmin.availableSlots. lia.
Qed.

Lemma waiting_within_capacity_witness :
  Z.of_nat (length (QueueService.waitingSet (Scenario.holding 2 "fifo")
                      (QueueService.run 0 Scenario.addAB
                         (Sample.emptyQueue "fifo"))))
  <= Queue.capacity (Scenario.holding 2 "fifo")
  /\ QueueAdmin.availableSlots (Scenario.holding 2 "fifo")
     = Queue.capacity (Scenario.holding 2 "fifo")
       - Z.of_nat (length (QueueService.waitingSet (Scenario.holding 2 "fifo")
                             (QueueService.run 0 Scenario.addAB
                                (Sample.emptyQueue "fifo")))).
Proof.
  apply (waiting_within_capacity 0 Scenario.addAB (Sample.emptyQueue "fifo")
           (Scenario.holding 2 "fifo")).
  - sample_initial.
  - intros q0 [<-|[]]. simpl. lia.
  - left. vm_compute. reflexivity.
Defined.


(** ** The next project *)

Lemma byPositionAsc_irrefl (a : Project.t) : Queue.byPositionAsc a a = false.
Proof. apply optZ_ltb_irrefl. Qed.

Lemma byPositionAsc_trans (a b c : Project.t) :
  Queue.byPositionAsc a b = true -> Queue.byPositionAsc b c = true ->
  Queue.byPositionAsc a c = true.
Proof. apply optZ_ltb_trans. Qed.

Lemma byPositionDesc_irrefl (a : Project.t) : Queue.byPositionDesc a a = false.
Proof. apply optZ_ltb_irrefl. Qed.

Lemma byPositionDesc_trans (a b c : Project.t) :
  Queue.byPositionDesc a b = true -> Queue.byPositionDesc b c = true ->
  Queue.byPositionDesc a c = true.
Proof.
  unfold Queue.byPositionDesc. intros H1 H2.
  now apply optZ_ltb_trans with (b := Project.queuePosition b).
Qed.

(** The list of the waiting projects by position, as the invariant has it. *)
Lemma waiting_order (st : QueueService.State) (q : Queue.t) :
  StateInv st -> In q (QueueService.queues st) ->
  exists order,
    Permutation order (QueueService.waitingSet q st) /\ numberedFrom 1 order.
Proof.
  intros Hinv Hq. rewrite (waitingSet_members _ q Hinv Hq).
  destruct Hinv as [_ [_ Hall]].
  destruct (Hall q Hq) as [_ [order [Hperm [Hnum _]]]]. now exists order.
Qed.

(** X4. With auto-start off on every queue and nothing enqueued at the
    start, after every sequence of add and remove requests [getNextProject]
    returns, in a fifo, priority or weighted queue, the waiting project at
    position 1, and nothing exactly when no project is waiting. *)
Theorem getNextProject_head :
  forall (now : Z) (rs : list QueueService.Request) (st : QueueService.State)
         (q : Queue.t),
    Initial st ->
    In q (QueueService.queues (QueueService.run now rs st)) ->
    ((Queue.type q =? "fifo")%string || Queue.isPriorityType (Queue.type q))
    = true ->
    match Queue.getNextProject q
            (QueueService.projects (QueueService.run now rs st)) with
    | Some p =>
      In p (QueueService.waitingSet q (QueueService.run now rs st))
      /\ Project.queuePosition p = Some 1
    | None => QueueService.waitingSet q (QueueService.run now rs st) = []
    end.
Proof.
  intros now rs st q Hinit Hq Htype.
  pose proof (run_keeps now rs st (Initial_StateInv st Hinit)) as Hinv.
  destruct (waiting_order _ q Hinv Hq) as [order [Hperm Hnum]].
  unfold Queue.getNextProject. rewrite Htype.
  destruct (findOneSorted (Queue.queuedIn q) Queue.byPositionAsc
              (QueueService.projects (QueueService.run now rs st)))
    as [p|] eqn:Hnext.
  - destruct (findOneSorted_first _ _ byPositionAsc_irrefl byPositionAsc_trans
                _ _ _ Hnext) as [Hin [Hf Hfirst]].
    assert (Hw : In p (QueueService.waitingSet q (QueueService.run now rs st)))
      by (apply filter_In; now split).
    split; [assumption|].
    assert (Hpo : In p order)
      by now apply (Permutation_in _ (Permutation_sym Hperm)).
    destruct order as [|h order]; [contradiction|].
    pose proof (numberedFrom_bounds _ _ Hnum) as Hb.
    rewrite Forall_forall in Hb. destruct (Hb p Hpo) as [k [Hk Hrange]].
    destruct Hnum as [Hh _].
    assert (Hhw : In h (QueueService.waitingSet q (QueueService.run now rs st)))
      by (apply (Permutation_in _ Hperm); now left).
    apply filter_In in Hhw. destruct Hhw as [Hhin Hhf].
    pose proof (Hfirst h Hhin Hhf) as Hcmp.
    unfold Queue.byPositionAsc in Hcmp. rewrite Hh, Hk in Hcmp.
    unfold optZ_ltb in Hcmp. apply Z.ltb_ge in Hcmp. rewrite Hk. f_equal. lia.
  - apply (findOneSorted_none _ Queue.byPositionAsc) in Hnext. exact Hnext.
Qed.

Lemma getNextProject_head_witness :
  match Queue.getNextProject (Scenario.holding 2 "priority")
          (QueueService.projects
             (QueueService.run 0 Scenario.addAB (Sample.emptyQueue "priority")))
  with
  | Some p =>
    In p (QueueService.waitingSet (Scenario.holding 2 "priority")
            (QueueService.run 0 Scenario.addAB (Sample.emptyQueue "priority")))
    /\ Project.queuePosition p = Some 1
  | None =>
    QueueService.waitingSet (Scenario.holding 2 "priority")
      (QueueService.run 0 Scenario.addAB (Sample.emptyQueue "priority")) = []
  end.
Proof.
  apply (getNextProject_head 0 Scenario.addAB (Sample.emptyQueue "priority")
           (Scenario.holding 2 "priority")).
  - sample_initial.
  - left. vm_compute. reflexivity.
  - reflexivity.
Defined.

Lemma numberedFrom_last (s : Z) (l : list Project.t) (z : Project.t) :
  numberedFrom s (l ++ [z]) ->
  Project.queuePosition z = Some (s + Z.of_nat (length l)).
Proof.
  intros H. apply numberedFrom_app in H. destruct H as [_ [H _]]. exact H.
Qed.

(** X5. With auto-start off on every queue and nothing enqueued at the
    start, after every sequence of add and remove requests [getNextProject]
    returns, in a lifo queue, the waiting project at the last position N,
    and nothing exactly when no project is waiting. *)
Theorem getNextProject_lifo_last :
  forall (now : Z) (rs : list QueueService.Request) (st : QueueService.State)
         (q : Queue.t),
    Initial st ->
    In q (QueueService.queues (QueueService.run now rs st)) ->
    Queue.type q = "lifo" ->
    match Queue.getNextProject q
            (QueueService.projects (QueueService.run now rs st)) with
    | Some p =>
      In p (QueueService.waitingSet q (QueueService.run now rs st))
      /\ Project.queuePosition p
         = Some (Z.of_nat
                   (length (QueueService.waitingSet q
                              (QueueService.run now rs st))))
    | None => QueueService.waitingSet q (QueueService.run now rs st) = []
    end.
Proof.
  intros now rs st q Hinit Hq Htype.
  pose proof (run_keeps now rs st (Initial_StateInv st Hinit)) as Hinv.
  destruct (waiting_order _ q Hinv Hq) as [order [Hperm Hnum]].
  unfold Queue.getNextProject. rewrite Htype. simpl.
  destruct (findOneSorted (Queue.queuedIn q) Queue.byPositionDesc
              (QueueService.projects (QueueService.run now rs st)))
    as [p|] eqn:Hnext.
  - destruct (findOneSorted_first _ _ byPositionDesc_irrefl byPositionDesc_trans
                _ _ _ Hnext) as [Hin [Hf Hfirst]].
    assert (Hw : In p (QueueService.waitingSet q (QueueService.run now rs st)))
      by (apply filter_In; now split).
    split; [assumption|].
    assert (Hpo : In p order)
      by now apply (Permutation_in _ (Permutation_sym Hperm)).
    rewrite <- (Permutation_length Hperm).
    pose proof (numberedFrom_bounds _ _ Hnum) as Hb.
    rewrite Forall_forall in Hb. destruct (Hb p Hpo) as [k [Hk Hrange]].
    destruct (exists_last (l := order)) as [l [z Hlast]];
      [intros ->; contradiction|].
    rewrite Hlast in Hnum. pose proof (numberedFrom_last _ _ _ Hnum) as Hz.
    assert (Hzw : In z (QueueService.waitingSet q (QueueService.run now rs st))).
    { apply (Permutation_in _ Hperm). rewrite Hlast. apply in_or_app.
      right. now left. }
    apply filter_In in Hzw. destruct Hzw as [Hzin Hzf].
    pose proof (Hfirst z Hzin Hzf) as Hcmp.
    unfold Queue.byPositionDesc in Hcmp. rewrite Hz, Hk in Hcmp.
    unfold optZ_ltb in Hcmp. apply Z.ltb_ge in Hcmp. rewrite Hk. f_equal.
    assert (Hlen : length order = S (length l))
      by (rewrite Hlast, length_app; simpl; lia).
    rewrite Hlen in *. lia.
  - apply (findOneSorted_none _ Queue.byPositionDesc) in Hnext. exact Hnext.
Qed.

Lemma getNextProject_lifo_last_witness :
  match Queue.getNextProject (Scenario.holding 2 "lifo")
          (QueueService.projects
             (QueueService.run 0 Scenario.addAB (Sample.emptyQueue "lifo")))
  with
  | Some p =>
    In p (QueueService.waitingSet (Scenario.holding 2 "lifo")
            (QueueService.run 0 Scenario.addAB (Sample.emptyQueue "lifo")))
    /\ Project.queuePosition p
       = Some (Z.of_nat
                 (length (QueueService.waitingSet (Scenario.holding 2 "lifo")
                            (QueueService.run 0 Scenario.addAB
                               (Sample.emptyQueue "lifo")))))
  | None =>
    QueueService.waitingSet (Scenario.holding 2 "lifo")
      (QueueService.run 0 Scenario.addAB (Sample.emptyQueue "lifo")) = []
  end.
Proof.
  apply (getNextProject_lifo_last 0 Scenario.addAB (Sample.emptyQueue "lifo")
           (Scenario.holding 2 "lifo")).
  - sample_initial.
  - left. vm_compute. reflexivity.
  - reflexivity.
Defined.

(** ** A successful enqueue *)

(** What a successful [addProjectToQueue] has checked and written, for a
    queue that does not start projects by itself. *)
Lemma add_success (queueId projectId : ObjectId) (now : Z)
  (st st2 : QueueService.State) (position : Z) :
  StateInv st ->
  QueueService.addProjectToQueue queueId projectId now st = Ok (st2, position) ->
  exists (queue : Queue.t) (project : Project.t) (ps1 : list Project.t),
    findById Queue._id queueId (QueueService.queues st) = Some queue
    /\ findById Project._id projectId (QueueService.projects st) = Some project
    /\ Project.archived project = false
    /\ Project.queueId project = None
    /\ Queue.addProject queue project (QueueService.projects st)
       = Ok (position, Queue.set_currentSize (Queue.currentSize queue + 1) queue, ps1)
    /\ st2 = QueueService.mkState
               (save Queue._id
                  (Queue.set_currentSize (Queue.currentSize queue + 1) queue)
                  (QueueService.queues st)) ps1.
Proof.
  intros [Hndp [Hndq Hall]]. unfold QueueService.addProjectToQueue.
  destruct (findById Queue._id queueId (QueueService.queues st))
    as [queue|] eqn:Hq; [|discriminate].
  destruct (Queue.archived queue); [discriminate|].
  destruct (findById Project._id projectId (QueueService.projects st))
    as [project|] eqn:Hp; [|discriminate].
  destruct (Project.archived project) eqn:Harch; [discriminate|].
  destruct (Project.queueId project) eqn:Hnone; [discriminate|].
  destruct (negb (Queue.canAccept (Queue.canAcceptProject queue project)));
    [discriminate|].
  pose proof (findById_id _ _ _ _ _ Hq) as [_ Hqin].
  pose proof (findById_id _ _ _ _ _ Hp) as [_ Hpin].
  destruct (Hall queue Hqin) as [Hauto Hqinv].
  destruct (Queue.addProject queue project (QueueService.projects st))
    as [[[position' q1] ps1]|msg] eqn:Hadd; simpl; [|discriminate].
  destruct (addProject_keeps queue project (QueueService.projects st)
              position' q1 ps1 Hndp Hpin Hnone Hqinv Hadd) as [_ [Hq1 _]].
  assert (Hauto1 : Queue.autoStart q1 = false) by (subst q1; exact Hauto).
  rewrite Hauto1. simpl. intros H. injection H as <- <-.
  exists queue, project, ps1. subst q1. repeat split; auto.
Qed.

(** The project as it is stored after a successful [addProject]. *)
Lemma added_project_stored (queue : Queue.t) (project : Project.t)
  (ps ps1 : list Project.t) (position : Z) (q1 : Queue.t) :
  QueueInv queue ps ->
  Queue.addProject queue project ps = Ok (position, q1, ps1) ->
  findById Project._id (Project._id project) ps1
  = Some (enqueued queue position project).
Proof.
  intros [order [Hperm [Hnum [Hsize [Hqueued Hsorted]]]]] Hadd.
  destruct (addProject_shape queue project ps position q1 ps1 order Hperm Hnum
              Hsize Hqueued Hsorted Hadd) as [f [d [order' [-> _]]]].
  apply (findById_save_same Project.t Project._id (enqueued queue position project)).
Qed.

(** X6. A project is not enqueued twice in a row: with auto-start off on
    every queue and nothing enqueued at the start, after every sequence of
    add and remove requests, the request that directly follows a successful
    [addProjectToQueue] for a project, when it is an [addProjectToQueue] for
    the same project, to whatever queue that exists and is not archived, is
    refused with "Project is already in a queue". *)
Theorem second_enqueue_refused :
  forall (now now2 : Z) (rs : list QueueService.Request)
         (st st2 : QueueService.State) (queueId projectId queueId2 : ObjectId)
         (position : Z) (queue2 : Queue.t),
    Initial st ->
    QueueService.addProjectToQueue queueId projectId now
      (QueueService.run now rs st) = Ok (st2, position) ->
    findById Queue._id queueId2 (QueueService.queues st2) = Some queue2 ->
    Queue.archived queue2 = false ->
    QueueService.addProjectToQueue queueId2 projectId now2 st2
    = Err "Project is already in a queue".
Proof.
  intros now now2 rs st st2 queueId projectId queueId2 position queue2
         Hinit Hadd Hq2 Harch2.
  pose proof (run_keeps now rs st (Initial_StateInv st Hinit)) as Hinv.
  destruct (add_success _ _ _ _ _ _ Hinv Hadd)
    as [queue [project [ps1 [Hq [Hp [Harch [Hnone [Haddp ->]]]]]]]].
  pose proof (findById_id _ _ _ _ _ Hq) as [_ Hqin].
  pose proof (findById_id _ _ _ _ _ Hp) as [Hpid _].
  destruct Hinv as [_ [_ Hall]]. destruct (Hall queue Hqin) as [_ Hqinv].
  pose proof (added_project_stored _ _ _ _ _ _ Hqinv Haddp) as Hstored.
  rewrite Hpid in Hstored.
  unfold QueueService.addProjectToQueue. simpl in *.
  rewrite Hq2, Harch2, Hstored. simpl. now rewrite Harch.
Qed.

Lemma second_enqueue_refused_witness :
  QueueService.addProjectToQueue 1%nat 53%nat 60000 (Scenario.afterABC "fifo")
  = Err "Project is already in a queue".
Proof.
  apply (second_enqueue_refused 0 60000 Scenario.addAB (Sample.emptyQueue "fifo")
           (Scenario.afterABC "fifo") 1%nat 53%nat 1%nat 3
           (Scenario.holding 3 "fifo")).
  - sample_initial.
  - vm_compute. reflexivity.
  - vm_compute. reflexivity.
  - reflexivity.
Defined.

(** X7. With auto-start off on every queue and nothing enqueued at the
    start, after every sequence of add and remove requests the position a
    successful [addProjectToQueue] answers is the position stored with the
    project, and it lies between 1 and N + 1, N being the number of projects
    waiting before: N + 1 in a fifo queue, 1 in a lifo queue. *)
Theorem enqueue_position_range :
  forall (now : Z) (rs : list QueueService.Request)
         (st st2 : QueueService.State) (queueId projectId : ObjectId)
         (position : Z) (queue : Queue.t),
    Initial st ->
    findById Queue._id queueId (QueueService.queues (QueueService.run now rs st))
    = Some queue ->
    QueueService.addProjectToQueue queueId projectId now
      (QueueService.run now rs st) = Ok (st2, position) ->
    option_map Project.queuePosition
      (findById Project._id projectId (QueueService.projects st2))
    = Some (Some position)
    /\ 1 <= position
       <= Z.of_nat (length (QueueService.waitingSet queue
                              (QueueService.run now rs st))) + 1
    /\ (Queue.type queue = "fifo" ->
        position
        = Z.of_nat (length (QueueService.waitingSet queue
                              (QueueService.run now rs st))) + 1)
    /\ (Queue.type queue = "lifo" -> position = 1).
Proof.
  intros now rs st st2 queueId projectId position queue Hinit Hfind Hadd.
  pose proof (run_keeps now rs st (Initial_StateInv st Hinit)) as Hinv.
  destruct (add_success _ _ _ _ _ _ Hinv Hadd)
    as [queue' [project [ps1 [Hq [Hp [Harch [Hnone [Haddp ->]]]]]]]].
  rewrite Hfind in Hq. injection Hq as <-.
  pose proof (findById_id _ _ _ _ _ Hfind) as [_ Hqin].
  pose proof (findById_id _ _ _ _ _ Hp) as [Hpid _].
  rewrite <- (currentSize_is_waiting _ queue Hinv Hqin).
  destruct Hinv as [_ [_ Hall]]. destruct (Hall queue Hqin) as [_ Hqinv].
  pose proof (added_project_stored _ _ _ _ _ _ Hqinv Haddp) as Hstored.
  rewrite Hpid in Hstored. simpl. rewrite Hstored.
  split; [reflexivity|].
  destruct Hqinv as [order [Hperm [Hnum [Hsize [Hqueued Hsorted]]]]].
  destruct (addProject_shape queue project _ position _ ps1 order Hperm Hnum
              Hsize Hqueued Hsorted Haddp)
    as [f [d [order' [_ [_ [_ [Hperm' [Hnum' _]]]]]]]].
  split; [|split].
  - pose proof (numberedFrom_bounds _ _ Hnum') as Hb.
    rewrite Forall_forall in Hb.
    destruct (Hb (enqueued queue position project)) as [k [Hk Hrange]].
    { apply (Permutation_in _ (Permutation_sym Hperm')). now left. }
    unfold enqueued in Hk.
    cbn [Project.queuePosition Project.set_status Project.set_queuePosition] in Hk.
    injection Hk as <-.
    assert (Hlen : length order' = S (length order))
      by (rewrite (Permutation_length Hperm'); simpl; now rewrite length_map).
    rewrite Hlen in Hrange. lia.
  - intros Hty. unfold Queue.addProject in Haddp.
    destruct (negb (Queue.canAccept (Queue.canAcceptProject queue project)));
      [discriminate|].
    rewrite Hty in Haddp. simpl in Haddp. now injection Haddp as <- _.
  - intros Hty. unfold Queue.addProject in Haddp.
    destruct (negb (Queue.canAccept (Queue.canAcceptProject queue project)));
      [discriminate|].
    rewrite Hty in Haddp. simpl in Haddp. now injection Haddp as <- _.
Qed.

Lemma enqueue_position_range_witness :
  option_map Project.queuePosition
    (findById Project._id 53%nat
       (QueueService.projects (Scenario.afterABC "priority")))
  = Some (Some 2)
  /\ 1 <= 2
     <= Z.of_nat (length (QueueService.waitingSet (Scenario.holding 2 "priority")
                            (QueueService.run 0 Scenario.addAB
                               (Sample.emptyQueue "priority")))) + 1
  /\ (Queue.type (Scenario.holding 2 "priority") = "fifo" ->
      2 = Z.of_nat (length (QueueService.waitingSet
                              (Scenario.holding 2 "priority")
                              (QueueService.run 0 Scenario.addAB
                                 (Sample.emptyQueue "priority")))) + 1)
  /\ (Queue.type (Scenario.holding 2 "priority") = "lifo" -> 2 = 1).
Proof.
  apply (enqueue_position_range 0 Scenario.addAB (Sample.emptyQueue "priority")
           (Scenario.afterABC "priority") 1%nat 53%nat 2
           (Scenario.holding 2 "priority")).
  - sample_initial.
  - vm_compute. reflexivity.
  - vm_compute. reflexivity.
Defined.

(** ** Deleting projects *)

Lemma deleteOne_ids (i : ObjectId) (ps : list Project.t) :
  NoDup (map Project._id ps) ->
  NoDup (map Project._id (ProjectController.deleteOne i ps)).
Proof.
  unfold ProjectController.deleteOne.
  induction ps as [|p ps IH]; simpl; intros Hnd; [constructor|].
  inversion Hnd as [|? ? Hnotin Hnd']; subst.
  destruct (negb (oid_eqb (Project._id p) i)); simpl; [|now apply IH].
  constructor; [|now apply IH].
  intros Hin. apply Hnotin. apply in_map_iff in Hin.
  destruct Hin as [x [Hx Hin]]. apply filter_In in Hin.
  apply in_map_iff. exists x. tauto.
Qed.

Lemma deleteOne_members (i j : ObjectId) (ps : list Project.t) :
  (forall p, In p ps -> Project._id p = i -> memberOf j p = false) ->
  members j (ProjectController.deleteOne i ps) = members j ps.
Proof.
  unfold members, ProjectController.deleteOne.
  induction ps as [|p ps IH]; simpl; intros H; [reflexivity|].
  assert (IH' : List.filter (memberOf j)
                  (List.filter (fun p0 => negb (oid_eqb (Project._id p0) i)) ps)
                = List.filter (memberOf j) ps)
    by (apply IH; intros x Hx; apply H; now right).
  destruct (oid_eqb (Project._id p) i) eqn:E; simpl.
  - apply oid_eqb_eq in E. rewrite (H p (or_introl eq_refl) E). exact IH'.
  - destruct (memberOf j p); now rewrite IH'.
Qed.

Lemma delete_keeps (i : ObjectId) (st : QueueService.State) :
  StateInv st ->
  (forall p q, In p (QueueService.projects st) -> Project._id p = i ->
               In q (QueueService.queues st) -> memberOf (Queue._id q) p = false) ->
  StateInv (QueueService.mkState (QueueService.queues st)
              (ProjectController.deleteOne i (QueueService.projects st))).
Proof.
  intros [Hndp [Hndq Hall]] Hfree. split; [|split]; simpl.
  - now apply deleteOne_ids.
  - assumption.
  - intros q Hq. destruct (Hall q Hq) as [Hauto Hinv]. split; [assumption|].
    apply QueueInv_same_members with (ps := QueueService.projects st); auto.
    apply deleteOne_members. intros p Hp Hid. now apply (Hfree p q).
Qed.

Lemma findById_none (Doc : Type) (doc_id : Doc -> ObjectId) (i : ObjectId)
  (coll : list Doc) (d : Doc) :
  findById doc_id i coll = None -> In d coll -> doc_id d <> i.
Proof.
  unfold findById. intros Hnone Hin Heq.
  apply (find_none _ _ Hnone) in Hin. apply oid_eqb_neq in Hin. contradiction.
Qed.

Lemma controller_step_keeps (now : Z) (st : QueueService.State)
  (r : ProjectController.Request) :
  StateInv st -> StateInv (ProjectController.step now st r).
Proof.
  intros Hinv. destruct r as [queueId projectId|projectId|canDelete projectId];
    simpl.
  - pose proof (step_keeps now st (QueueService.AddProject queueId projectId) Hinv)
      as H. simpl in H. unfold ProjectController.addToQueue.
    destruct (QueueService.addProjectToQueue queueId projectId now st)
      as [[st1 position]|msg]; exact H.
  - unfold ProjectController.removeFromQueue.
    destruct (findById Project._id projectId (QueueService.projects st))
      as [project|]; [|assumption].
    destruct (Project.queueId project) as [queueId|]; [|assumption].
    pose proof (step_keeps now st (QueueService.RemoveProject queueId projectId)
                  Hinv) as H. simpl in H.
    destruct (QueueService.removeProjectFromQueue queueId projectId st)
      as [st1|msg]; exact H.
  - unfold ProjectController.deleteProject.
    destruct (findById Project._id projectId (QueueService.projects st))
      as [project|] eqn:Hp; [|assumption].
    destruct (negb canDelete); [assumption|].
    pose proof (findById_id _ _ _ _ _ Hp) as [Hpid Hpin].
    pose proof Hinv as [Hndp [Hndq Hall]].
    destruct (Project.queueId project) as [queueId|] eqn:Hqid.
    + destruct (findById Queue._id queueId (QueueService.queues st))
        as [queue|] eqn:Hq.
      * pose proof (findById_id _ _ _ _ _ Hq) as [Hqid' Hqin].
        destruct (Hall queue Hqin) as [Hauto Hqinv].
        destruct (Queue.removeProject queue project (QueueService.projects st))
          as [[q1 ps1]|msg] eqn:Hrem; simpl; [|assumption].
        destruct (removeProject_keeps queue project (QueueService.projects st)
                    q1 ps1 Hndp Hpin Hqinv Hrem) as [Hinv1 [Hq1 [Hids Helse]]].
        assert (Hmid : StateInv (QueueService.mkState
                                   (save Queue._id q1 (QueueService.queues st)) ps1)).
        { apply StateInv_written with (queue := queue); auto; now subst q1. }
        apply (delete_keeps projectId _ Hmid). simpl.
        intros p q Hpin1 Hid _.
        assert (Hstored : findById Project._id (Project._id project) ps1
                          = Some (dequeued project)).
        { unfold Queue.removeProject in Hrem.
          destruct (negb (ref_is (Project.queueId project) (Queue._id queue)));
            [discriminate|].
          injection Hrem as _ <-.
          apply (findById_save_same Project.t Project._id (dequeued project)). }
        pose proof (findById_id _ _ _ _ _ Hstored) as [_ Hdin].
        destruct Hmid as [Hndp1 _]. simpl in Hndp1.
        assert (Hsame : p = dequeued project).
        { apply (NoDup_id_eq Project.t Project._id p (dequeued project) ps1);
            auto. simpl. congruence. }
        subst p. reflexivity.
      * simpl. apply (delete_keeps projectId st Hinv).
        intros p q Hpin1 Hid Hqin.
        assert (Hsame : p = project).
        { apply (NoDup_id_eq Project.t Project._id p project
                   (QueueService.projects st)); auto. congruence. }
        subst p. unfold memberOf. rewrite Hqid. simpl.
        apply oid_eqb_neq. intros Heq.
        apply (findById_none _ _ _ _ q Hq Hqin). congruence.
    + simpl. apply (delete_keeps projectId st Hinv).
      intros p q Hpin1 Hid _.
      assert (Hsame : p = project).
      { apply (NoDup_id_eq Project.t Project._id p project
                 (QueueService.projects st)); auto. congruence. }
      subst p. unfold memberOf. now rewrite Hqid.
Qed.

Lemma controller_run_keeps (now : Z) (rs : list ProjectController.Request)
  (st : QueueService.State) :
  StateInv st -> StateInv (ProjectController.run now rs st).
Proof.
  unfold ProjectController.run. revert st.
  induction rs as [|r rs IH]; simpl; intros st Hinv; [assumption|].
  apply IH. now apply controller_step_keeps.
Qed.

Lemma StateInv_contiguous (st : QueueService.State) (q : Queue.t) :
  StateInv st -> In q (QueueService.queues st) ->
  Permutation (map Project.queuePosition (QueueService.waitingSet q st))
    (map Some (Zrange 1 (length (QueueService.waitingSet q st)))).
Proof.
  intros Hinv Hq. destruct (waiting_order st q Hinv Hq) as [order [Hperm Hnum]].
  rewrite <- Hperm. now rewrite (numberedFrom_positions 1 order Hnum).
Qed.

(** X8. Deleting projects keeps the queues in order as well: with
    auto-start off on every queue and nothing enqueued at the start, after
    any sequence of the project controller's add-to-queue, remove-from-queue
    and delete requests, the positions of every queue's waiting projects are
    exactly 1..N. *)
Theorem positions_contiguous_with_deletes :
  forall (now : Z) (rs : list ProjectController.Request)
         (st : QueueService.State) (q : Queue.t),
    Initial st ->
    In q (QueueService.queues (ProjectController.run now rs st)) ->
    Permutation
      (map Project.queuePosition
         (QueueService.waitingSet q (ProjectController.run now rs st)))
      (map Some
         (Zrange 1
            (length (QueueService.waitingSet q
                       (ProjectController.run now rs st))))).
Proof.
  intros now rs st q Hinit Hq.
  apply StateInv_contiguous; [|assumption].
  apply controller_run_keeps. now apply Initial_StateInv.
Qed.

Lemma positions_contiguous_with_deletes_witness :
  Permutation
    (map Project.queuePosition
       (QueueService.waitingSet (Scenario.holding 2 "fifo")
          (ProjectController.run 0 Scenario.addThenDelete
             (Sample.emptyQueue "fifo"))))
    (map Some
       (Zrange 1
          (length
             (QueueService.waitingSet (Scenario.holding 2 "fifo")
                (ProjectController.run 0 Scenario.addThenDelete
                   (Sample.emptyQueue "fifo")))))).
Proof.
  apply (positions_contiguous_with_deletes 0 Scenario.addThenDelete
           (Sample.emptyQueue "fifo") (Scenario.holding 2 "fifo")).
  - sample_initial.
  - left. vm_compute. reflexivity.
Defined.

(** ** Pausing, resuming and archiving a queue *)

Lemma getQueueById_found (queueId userId : ObjectId) (st : QueueService.State)
  (queue : Queue.t) :
  QueueService.getQueueById queueId userId st = Some queue ->
  In queue (QueueService.queues st) /\ Queue._id queue = queueId
  /\ Queue.archived queue = false.
Proof.
  unfold QueueService.getQueueById. intros H. apply find_some in H.
  destruct H as [Hin H]. apply andb_prop in H. destruct H as [H _].
  apply andb_prop in H. destruct H as [Hid Harch].
  apply oid_eqb_eq in Hid. apply negb_true_iff in Harch. auto.
Qed.

Lemma processNext_started (queueId : ObjectId) (now : Z)
  (st st1 : QueueService.State) (p : Project.t) (q0 : Queue.t) :
  findById Queue._id queueId (QueueService.queues st) = Some q0 ->
  QueueService.processNextProject queueId now st = (st1, Some p) ->
  findById Queue._id queueId (QueueService.queues st1)
  = Some (Queue.set_processing (Queue.processing q0 + 1) (Some now) q0)
  /\ Queue.processing q0 < Queue.concurrency q0.
Proof.
  unfold QueueService.processNextProject. intros Hq. rewrite Hq.
  destruct (negb (Queue.status q0 =? "active")%string); [discriminate|].
  destruct (Queue.concurrency q0 <=? Queue.processing q0) eqn:E; [discriminate|].
  destruct (Queue.getNextProject q0 (QueueService.projects st)); [|discriminate].
  intros H. injection H as <- _. simpl.
  apply Z.leb_gt in E. split; [|assumption].
  destruct (findById_id _ _ _ _ _ Hq) as [Hid _]. rewrite <- Hid.
  apply (findById_save_same Queue.t Queue._id
           (Queue.set_processing (Queue.processing q0 + 1) (Some now) q0)).
Qed.

Lemma processNext_nothing (queueId : ObjectId) (now : Z)
  (st st1 : QueueService.State) (q0 : Queue.t) :
  findById Queue._id queueId (QueueService.queues st) = Some q0 ->
  Queue.status q0 = "active" ->
  QueueService.processNextProject queueId now st = (st1, None) ->
  st1 = st
  /\ (Queue.concurrency q0 <= Queue.processing q0
      \/ Queue.getNextProject q0 (QueueService.projects st) = None).
Proof.
  unfold QueueService.processNextProject. intros Hq Hactive. rewrite Hq, Hactive.
  simpl.
  destruct (Queue.concurrency q0 <=? Queue.processing q0) eqn:E.
  - intros H. injection H as <-. apply Z.leb_le in E. auto.
  - destruct (Queue.getNextProject q0 (QueueService.projects st));
      [discriminate|].
    intros H. injection H as <-. auto.
Qed.

(** The loop of [resumeQueue] ends: every round that starts a project
    raises the stored [stats.processing] by one. *)
Lemma resumeLoop_ends (queue : Queue.t) (queueId : ObjectId) (now : Z) :
  forall (fuel : nat) (st : QueueService.State) (q0 : Queue.t),
    findById Queue._id queueId (QueueService.queues st) = Some q0 ->
    Queue.status q0 = "active" ->
    (Z.to_nat (Queue.concurrency q0 - Queue.processing q0) < fuel)%nat ->
    exists st1 q1,
      QueueAdmin.resumeLoop fuel queue queueId now st = Some st1
      /\ findById Queue._id queueId (QueueService.queues st1) = Some q1
      /\ Queue.status q1 = "active"
      /\ (Queue.processing queue < Queue.concurrency queue ->
          Queue.concurrency q1 <= Queue.processing q1
          \/ Queue.getNextProject q1 (QueueService.projects st1) = None).
Proof.
  induction fuel as [|fuel IH]; intros st q0 Hq Hactive Hfuel; [lia|].
  simpl.
  destruct (Queue.processing queue <? Queue.concurrency queue) eqn:Hloop.
  - destruct (QueueService.processNextProject queueId now st) as [st1 [p|]]
      eqn:Hnext.
    + destruct (processNext_started _ _ _ _ _ _ Hq Hnext) as [Hq1 Hlt].
      apply (IH st1 _ Hq1); [exact Hactive|]. simpl. lia.
    + destruct (processNext_nothing _ _ _ _ _ Hq Hactive Hnext) as [-> Hdone].
      exists st, q0. auto.
  - exists st, q0. repeat split; auto. apply Z.ltb_ge in Hloop. lia.
Qed.

(** X9. Resuming a queue terminates and fills the free slots: with
    [concurrency - processing + 1] rounds the loop of [resumeQueue] has
    ended, the stored queue is [active], and when the loop was entered
    either no processing capacity is left or no project is left to start. *)
Theorem resumeQueue_fills_slots :
  forall (queueId userId : ObjectId) (now : Z) (st : QueueService.State)
         (queue : Queue.t),
    QueueService.getQueueById queueId userId st = Some queue ->
    exists (st1 : QueueService.State) (q1 : Queue.t),
      QueueAdmin.resumeQueue
        (S (Z.to_nat (Queue.concurrency queue - Queue.processing queue)))
        queueId userId now st = Some (Ok st1)
      /\ findById Queue._id queueId (QueueService.queues st1) = Some q1
      /\ Queue.status q1 = "active"
      /\ (Queue.processing queue < Queue.concurrency queue ->
          QueueAdmin.processingCapacity q1 = 0
          \/ Queue.getNextProject q1 (QueueService.projects st1) = None).
Proof.
  intros queueId userId now st queue Hget.
  destruct (getQueueById_found _ _ _ _ Hget) as [Hin [Hid _]].
  unfold QueueAdmin.resumeQueue. rewrite Hget.
  assert (Hstored :
    findById Queue._id queueId
      (QueueService.queues
         (QueueAdmin.with_queues
            (save Queue._id (QueueAdmin.set_status "active" queue)
               (QueueService.queues st)) st))
    = Some (QueueAdmin.set_status "active" queue)).
  { simpl. rewrite <- Hid.
    apply (findById_save_same Queue.t Queue._id
             (QueueAdmin.set_status "active" queue)). }
  destruct (resumeLoop_ends (QueueAdmin.set_status "active" queue) queueId now
              (S (Z.to_nat (Queue.concurrency queue - Queue.processing queue)))
              _ _ Hstored eq_refl) as [st1 [q1 [Hloop [Hq1 [Hact Hdone]]]]].
  { simpl. lia. }
  rewrite Hloop. exists st1, q1. split; [reflexivity|].
  split; [assumption|]. split; [assumption|].
  intros Hentered. destruct (Hdone Hentered) as [Hfull|Hnone]; [left|now right].
  unfold QueueAdmin.processingCapacity. lia.
Qed.

Lemma resumeQueue_fills_slots_witness :
  exists (st1 : QueueService.State) (q1 : Queue.t),
    QueueAdmin.resumeQueue
      (S (Z.to_nat (Queue.concurrency (QueueAdmin.set_status "paused"
                                         (Scenario.holding 3 "fifo"))
                    - Queue.processing (QueueAdmin.set_status "paused"
                                          (Scenario.holding 3 "fifo")))))
      1%nat 41%nat 60000 Scenario.paused = Some (Ok st1)
    /\ findById Queue._id 1%nat (QueueService.queues st1) = Some q1
    /\ Queue.status q1 = "active"
    /\ (Queue.processing (QueueAdmin.set_status "paused"
                           (Scenario.holding 3 "fifo"))
        < Queue.concurrency (QueueAdmin.set_status "paused"
                               (Scenario.holding 3 "fifo")) ->
        QueueAdmin.processingCapacity q1 = 0
        \/ Queue.getNextProject q1 (QueueService.projects st1) = None).
Proof.
  apply (resumeQueue_fills_slots 1%nat 41%nat 60000 Scenario.paused
           (QueueAdmin.set_status "paused" (Scenario.holding 3 "fifo"))).
  reflexivity.
Defined.

(** X10. A paused queue takes no project and starts none: after
    [pauseQueue], adding a project to the queue is refused and
    [processNextProject] returns nothing, both without any write. *)
Theorem paused_queue_is_closed :
  forall (queueId userId projectId : ObjectId) (now : Z)
         (st st1 : QueueService.State),
    QueueAdmin.pauseQueue queueId userId st = Ok st1 ->
    (exists message,
        QueueService.addProjectToQueue queueId projectId now st1 = Err message)
    /\ QueueService.processNextProject queueId now st1 = (st1, None).
Proof.
  intros queueId userId projectId now st st1 Hpause.
  unfold QueueAdmin.pauseQueue in Hpause.
  destruct (QueueService.getQueueById queueId userId st) as [queue|] eqn:Hget;
    [|discriminate].
  injection Hpause as <-.
  destruct (getQueueById_found _ _ _ _ Hget) as [Hin [Hid Harch]].
  assert (Hstored :
    findById Queue._id queueId
      (save Queue._id (QueueAdmin.set_status "paused" queue)
         (QueueService.queues st))
    = Some (QueueAdmin.set_status "paused" queue)).
  { rewrite <- Hid.
    apply (findById_save_same Queue.t Queue._id
             (QueueAdmin.set_status "paused" queue)). }
  split.
  - unfold QueueService.addProjectToQueue. simpl. rewrite Hstored. simpl.
    rewrite Harch.
    destruct (findById Project._id projectId (QueueService.projects st))
      as [project|]; [|eauto].
    destruct (Project.archived project); [eauto|].
    destruct (Project.queueId project); [eauto|].
    unfold Queue.canAcceptProject. simpl.
    destruct (Queue.capacity queue <=? Queue.currentSize queue); simpl; eauto.
  - unfold QueueService.processNextProject. simpl. rewrite Hstored. reflexivity.
Qed.

Lemma paused_queue_is_closed_witness :
  (exists message,
      QueueService.addProjectToQueue 1%nat 54%nat 60000 Scenario.paused
      = Err message)
  /\ QueueService.processNextProject 1%nat 60000 Scenario.paused
     = (Scenario.paused, None).
Proof.
  apply (paused_queue_is_closed 1%nat 41%nat 54%nat 60000 Sample.fullQueue
           Scenario.paused).
  reflexivity.
Defined.

Lemma find_nothing (A : Type) (f : A -> bool) (l : list A) :
  (forall x, In x l -> f x = false) -> find f l = None.
Proof.
  induction l as [|x l IH]; simpl; intros H; [reflexivity|].
  rewrite (H x (or_introl eq_refl)). apply IH. intros y Hy. apply H. now right.
Qed.

Lemma updateMany_released (q : Queue.t) (ps : list Project.t) (p : Project.t) :
  In p (updateMany (Queue.queuedIn q) QueueAdmin.released ps) ->
  Queue.queuedIn q p = false.
Proof.
  unfold updateMany. intros H. apply in_map_iff in H.
  destruct H as [x [Hx _]]. destruct (Queue.queuedIn q x) eqn:E.
  - subst p. unfold Queue.queuedIn, QueueAdmin.released. reflexivity.
  - now subst p.
Qed.

(** X11. Archiving releases the waiting projects and closes the queue:
    afterwards no project is waiting in it, the projects that were not
    waiting in it are stored as they were, every later attempt to add a
    project answers "Queue not found or archived", and no user sees the
    queue any more. *)
Theorem archiveQueue_releases :
  forall (queueId : ObjectId) (userId : QueueService.UserId)
         (st st1 : QueueService.State),
    QueueAdmin.archiveQueue queueId userId st = Ok st1 ->
    (forall q, Queue._id q = queueId -> QueueService.waitingSet q st1 = [])
    /\ (forall q p, Queue._id q = queueId ->
          In p (QueueService.projects st) -> Queue.queuedIn q p = false ->
          In p (QueueService.projects st1))
    /\ (forall projectId now,
          QueueService.addProjectToQueue queueId projectId now st1
          = Err "Queue not found or archived")
    /\ forall user, QueueService.getQueueById queueId user st1 = None.
Proof.
  intros queueId userId st st1 Harchive.
  unfold QueueAdmin.archiveQueue in Harchive.
  destruct (QueueService.getQueueById queueId (QueueService.idOf userId) st)
    as [queue|] eqn:Hget; [|discriminate].
  destruct (negb _); [discriminate|].
  injection Harchive as <-.
  destruct (getQueueById_found _ _ _ _ Hget) as [Hin [Hid Harch]].
  set (queue1 := Queue.mk (Queue._id queue) (Queue.type queue)
                   (Queue.capacity queue) "disabled" (Queue.concurrency queue)
                   (Queue.autoStart queue) (Queue.currentSize queue)
                   (Queue.processing queue) (Queue.lastProcessedAt queue)
                   (Queue.acceptanceCriteria queue) (Queue.permissions queue)
                   (Queue.createdBy queue) true).
  split; [|split; [|split]].
  - intros q Hq. unfold QueueService.waitingSet. simpl.
    apply filter_none. intros p Hp.
    assert (Hsame : Queue.queuedIn q p = Queue.queuedIn queue p)
      by (unfold Queue.queuedIn; now rewrite Hq, Hid).
    rewrite Hsame. now apply updateMany_released with (ps := QueueService.projects st).
  - intros q p Hq Hp Hout. simpl. unfold updateMany. apply in_map_iff.
    exists p. split; [|assumption].
    assert (Hsame : Queue.queuedIn queue p = Queue.queuedIn q p)
      by (unfold Queue.queuedIn; now rewrite Hq, Hid).
    now rewrite Hsame, Hout.
  - intros projectId now. unfold QueueService.addProjectToQueue. simpl.
    assert (Hstored : findById Queue._id queueId
                        (save Queue._id queue1 (QueueService.queues st))
                      = Some queue1).
    { rewrite <- Hid.
      apply (findById_save_same Queue.t Queue._id queue1). }
    rewrite Hstored. reflexivity.
  - intros user. unfold QueueService.getQueueById. simpl.
    apply find_nothing. intros q Hq.
    destruct (oid_eqb (Queue._id q) queueId) eqn:E; [|reflexivity].
    apply oid_eqb_eq in E. simpl.
    assert (Hq1 : q = queue1).
    { rewrite (save_stored Queue.t Queue._id queue1 queue _ Hin eq_refl) in Hq.
      destruct (in_replace Queue.t Queue._id queue1 q _ Hq) as [->|[_ Hne]];
        [reflexivity|].
      simpl in Hne. congruence. }
    subst q. reflexivity.
Qed.

Lemma archiveQueue_releases_witness :
  (forall q, Queue._id q = 1%nat ->
             QueueService.waitingSet q Scenario.archived = [])
  /\ (forall q p, Queue._id q = 1%nat ->
        In p (QueueService.projects Sample.fullQueue) ->
        Queue.queuedIn q p = false ->
        In p (QueueService.projects Scenario.archived))
  /\ (forall projectId now,
        QueueService.addProjectToQueue 1%nat projectId now Scenario.archived
        = Err "Queue not found or archived")
  /\ forall user, QueueService.getQueueById 1%nat user Scenario.archived = None.
Proof.
  apply (archiveQueue_releases 1%nat (QueueService.IdString 41%nat)
           Sample.fullQueue Scenario.archived).
  reflexivity.
Defined.

(** ** Starting the next project *)

Lemma findById_stored (Doc : Type) (doc_id : Doc -> ObjectId) (d : Doc)
  (coll : list Doc) :
  NoDup (map doc_id coll) -> In d coll -> findById doc_id (doc_id d) coll = Some d.
Proof.
  intros Hnd Hin. destruct (findById doc_id (doc_id d) coll) as [x|] eqn:E.
  - destruct (findById_id _ _ _ _ _ E) as [Hid Hx]. f_equal.
    now apply (NoDup_id_eq Doc doc_id x d coll).
  - exfalso. apply (findById_none _ _ _ _ d E Hin). reflexivity.
Qed.

Lemma filter_Permutation (A : Type) (f : A -> bool) (l l' : list A) :
  Permutation l l' -> Permutation (List.filter f l) (List.filter f l').
Proof.
  induction 1 as [|x l l' _ IH|x y l|l l' l'' _ IH1 _ IH2]; simpl.
  - constructor.
  - destruct (f x); [now constructor|assumption].
  - destruct (f x), (f y); try reflexivity. constructor.
  - now transitivity (List.filter f l').
Qed.

(** The waiting set once a project of the queue has left the status
    [queued]. *)
Lemma waiting_after_start (q : Queue.t) (h h1 : Project.t) (ps : list Project.t) :
  In h ps -> Project._id h1 = Project._id h -> Queue.queuedIn q h1 = false ->
  List.filter (Queue.queuedIn q) (save Project._id h1 ps)
  = List.filter (fun p => negb (oid_eqb (Project._id p) (Project._id h)))
      (List.filter (Queue.queuedIn q) ps).
Proof.
  intros Hin Hid Hout.
  rewrite (save_stored Project.t Project._id h1 h ps Hin (eq_sym Hid)).
  rewrite Hid. clear Hin.
  induction ps as [|x ps IH]; simpl; [reflexivity|].
  destruct (oid_eqb (Project._id x) (Project._id h)) eqn:E.
  - rewrite Hout. destruct (Queue.queuedIn q x); simpl; [rewrite E|]; exact IH.
  - destruct (Queue.queuedIn q x); simpl; [rewrite E; simpl; f_equal|]; exact IH.
Qed.

(** What [processNextProject] does to a queue that satisfies the invariant. *)
Lemma start_leaves_gap :
  forall (now : Z) (st : QueueService.State) (q : Queue.t),
    StateInv st ->
    In q (QueueService.queues st) ->
    ((Queue.type q =? "fifo")%string || Queue.isPriorityType (Queue.type q))
    = true ->
    Queue.status q = "active" ->
    Queue.processing q < Queue.concurrency q ->
    QueueService.waitingSet q st <> [] ->
    exists (st1 : QueueService.State) (p : Project.t) (q1 : Queue.t),
      QueueService.processNextProject (Queue._id q) now st = (st1, Some p)
      /\ Project.queuePosition p = Some 1
      /\ Project.status p = "in_progress"
      /\ Permutation
           (map Project.queuePosition (QueueService.waitingSet q st1))
           (map Some (Zrange 2 (length (QueueService.waitingSet q st) - 1)))
      /\ findById Queue._id (Queue._id q) (QueueService.queues st1) = Some q1
      /\ Queue.currentSize q1
         = Z.of_nat (length (QueueService.waitingSet q st)).
Proof.
  intros now st q Hinv Hq Htype Hactive Hslot Hsome.
  pose proof Hinv as [Hndp [Hndq Hall]].
  destruct (waiting_order st q Hinv Hq) as [order [Hperm Hnum]].
  destruct (Hall q Hq) as [_ [order0 [Hperm0 [_ [Hsize _]]]]].
  assert (Hcount : Queue.currentSize q
                   = Z.of_nat (length (QueueService.waitingSet q st))).
  { rewrite (waitingSet_members st q Hinv Hq), Hsize.
    now rewrite (Permutation_length Hperm0). }
  unfold QueueService.processNextProject.
  rewrite (findById_stored Queue.t Queue._id q _ Hndq Hq), Hactive. simpl.
  assert (Hfree : (Queue.concurrency q <=? Queue.processing q) = false)
    by (apply Z.leb_gt; exact Hslot).
  rewrite Hfree. unfold Queue.getNextProject. rewrite Htype.
  destruct (findOneSorted (Queue.queuedIn q) Queue.byPositionAsc
              (QueueService.projects st)) as [h|] eqn:Hnext.
  2:{ apply (findOneSorted_none _ Queue.byPositionAsc) in Hnext.
      contradiction. }
  destruct (findOneSorted_first _ _ byPositionAsc_irrefl byPositionAsc_trans
              _ _ _ Hnext) as [Hin [Hf Hfirst]].
  assert (Hho : In h order).
  { apply (Permutation_in _ (Permutation_sym Hperm)). apply filter_In. now split. }
  destruct order as [|h' rest]; [contradiction|].
  destruct Hnum as [Hh' Hrest].
  pose proof (numberedFrom_bounds _ _ Hrest) as Hbounds.
  rewrite Forall_forall in Hbounds.
  assert (Hh'w : In h' (QueueService.waitingSet q st))
    by (apply (Permutation_in _ Hperm); now left).
  apply filter_In in Hh'w. destruct Hh'w as [Hh'in Hh'f].
  assert (Hpos : Project.queuePosition h = Some 1).
  { destruct Hho as [<-|Hho]; [assumption|].
    destruct (Hbounds h Hho) as [k [Hk Hrange]].
    pose proof (Hfirst h' Hh'in Hh'f) as Hcmp.
    unfold Queue.byPositionAsc in Hcmp. rewrite Hh', Hk in Hcmp.
    unfold optZ_ltb in Hcmp. apply Z.ltb_ge in Hcmp. lia. }
  assert (Hsame : h' = h).
  { destruct Hho as [Hho|Hho]; [assumption|].
    destruct (Hbounds h Hho) as [k [Hk Hrange]]. rewrite Hpos in Hk.
    injection Hk as <-. lia. }
  subst h'.
  set (h1 := Project.set_startedAt (Some now)
               (Project.set_status "in_progress" h)).
  set (q1 := Queue.set_processing (Queue.processing q + 1) (Some now) q).
  exists (QueueService.mkState (save Queue._id q1 (QueueService.queues st))
            (save Project._id h1 (QueueService.projects st))), h1, q1.
  split; [reflexivity|]. split; [exact Hpos|]. split; [reflexivity|].
  split; [|split].
  - unfold QueueService.waitingSet at 1. simpl.
    rewrite (waiting_after_start q h h1 _ Hin eq_refl).
    2:{ unfold Queue.queuedIn, h1. simpl. apply andb_false_r. }
    fold (QueueService.waitingSet q st).
    rewrite <- (filter_Permutation _
                  (fun p => negb (oid_eqb (Project._id p) (Project._id h)))
                  _ _ Hperm).
    simpl. assert (Hrefl : oid_eqb (Project._id h) (Project._id h) = true)
      by apply Nat.eqb_refl.
    rewrite Hrefl. simpl.
    rewrite (filter_all _ _ rest).
    + rewrite (numberedFrom_positions _ _ Hrest).
      rewrite <- (Permutation_length Hperm). simpl.
      now rewrite Nat.sub_0_r.
    + apply Forall_forall. intros x Hx. apply negb_true_iff. apply oid_eqb_neq.
      intros Hid.
      assert (Hxw : In x (QueueService.waitingSet q st))
        by (apply (Permutation_in _ Hperm); now right).
      apply filter_In in Hxw. destruct Hxw as [Hxin _].
      assert (Hxh : x = h)
        by now apply (NoDup_id_eq Project.t Project._id x h
                        (QueueService.projects st)).
      subst x. destruct (Hbounds h Hx) as [k [Hk Hrange]].
      rewrite Hpos in Hk. injection Hk as <-. lia.
  - simpl. apply (findById_save_same Queue.t Queue._id q1).
  - exact Hcount.
Qed.

(** X12. Starting a project does not close the gap it leaves: when an
    active fifo, priority or weighted queue with a free slot has N >= 1
    waiting projects at 1..N, [processNextProject] puts the project at
    position 1 [in_progress], after which the waiting projects hold the
    positions 2..N and the stored [stats.currentSize] is still N. *)
Theorem processNextProject_leaves_gap :
  forall (now at_ : Z) (rs : list QueueService.Request)
         (st : QueueService.State) (q : Queue.t),
    Initial st ->
    In q (QueueService.queues (QueueService.run now rs st)) ->
    ((Queue.type q =? "fifo")%string || Queue.isPriorityType (Queue.type q))
    = true ->
    Queue.status q = "active" ->
    Queue.processing q < Queue.concurrency q ->
    QueueService.waitingSet q (QueueService.run now rs st) <> [] ->
    exists (st1 : QueueService.State) (p : Project.t) (q1 : Queue.t),
      QueueService.processNextProject (Queue._id q) at_
        (QueueService.run now rs st) = (st1, Some p)
      /\ Project.queuePosition p = Some 1
      /\ Project.status p = "in_progress"
      /\ Permutation
           (map Project.queuePosition (QueueService.waitingSet q st1))
           (map Some
              (Zrange 2
                 (length (QueueService.waitingSet q
                            (QueueService.run now rs st)) - 1)))
      /\ findById Queue._id (Queue._id q) (QueueService.queues st1) = Some q1
      /\ Queue.currentSize q1
         = Z.of_nat (length (QueueService.waitingSet q
                               (QueueService.run now rs st))).
Proof.
  intros now at_ rs st q Hinit.
  apply start_leaves_gap.
  apply run_keeps. now apply Initial_StateInv.
Qed.

Lemma processNextProject_leaves_gap_witness :
  exists (st1 : QueueService.State) (p : Project.t) (q1 : Queue.t),
    QueueService.processNextProject (Queue._id (Scenario.holding 3 "fifo")) 60000
      (QueueService.run 0 Scenario.addABC (Sample.emptyQueue "fifo"))
    = (st1, Some p)
    /\ Project.queuePosition p = Some 1
    /\ Project.status p = "in_progress"
    /\ Permutation
         (map Project.queuePosition
            (QueueService.waitingSet (Scenario.holding 3 "fifo") st1))
         (map Some
            (Zrange 2
               (length (QueueService.waitingSet (Scenario.holding 3 "fifo")
                          (QueueService.run 0 Scenario.addABC
                             (Sample.emptyQueue "fifo"))) - 1)))
    /\ findById Queue._id (Queue._id (Scenario.holding 3 "fifo"))
         (QueueService.queues st1) = Some q1
    /\ Queue.currentSize q1
       = Z.of_nat (length (QueueService.waitingSet (Scenario.holding 3 "fifo")
                             (QueueService.run 0 Scenario.addABC
                                (Sample.emptyQueue "fifo")))).
Proof.
  apply (processNextProject_leaves_gap 0 60000 Scenario.addABC
           (Sample.emptyQueue "fifo") (Scenario.holding 3 "fifo")).
  - sample_initial.
  - left. vm_compute. reflexivity.
  - reflexivity.
  - reflexivity.
  - simpl. lia.
  - vm_compute. discriminate.
Defined.


(** ** The token handlers over time *)

Lemma ids_after_replace (t0 t1 : Token.t) (tks : list Token.t) :
  In t0 tks -> Token._id t1 = Token._id t0 ->
  map Token._id (save Token._id t1 tks) = map Token._id tks.
Proof.
  intros Hin Hid.
  rewrite (save_stored Token.t Token._id t1 t0 tks Hin (eq_sym Hid)).
  apply (map_id_replace Token.t Token._id).
Qed.

(** A stored token is kept by the replacement of a token: unchanged when it
    is another one, as the replacement otherwise. *)
Lemma replaced_token (t0 t1 : Token.t) (tks : list Token.t) (i : ObjectId)
  (tk : Token.t) :
  NoDup (map Token._id tks) ->
  findById Token._id (Token._id t0) tks = Some t0 ->
  Token._id t1 = Token._id t0 ->
  TokenDesk.ticket t1 = TokenDesk.ticket t0 ->
  TokenDesk.closed t0 = false ->
  findById Token._id i tks = Some tk ->
  exists tk',
    findById Token._id i (save Token._id t1 tks) = Some tk'
    /\ TokenDesk.ticket tk' = TokenDesk.ticket tk
    /\ (TokenDesk.closed tk = true -> tk' = tk).
Proof.
  intros Hnd H0 Hid Hticket Hopen Hfind.
  destruct (Nat.eq_dec i (Token._id t1)) as [->|Hne].
  - exists t1. rewrite Hid in Hfind. rewrite H0 in Hfind. injection Hfind as <-.
    split; [apply (findById_save_same Token.t Token._id t1)|].
    split; [assumption|]. intros Hclosed. congruence.
  - exists tk. rewrite (findById_save_other Token.t Token._id i t1 tks Hne).
    auto.
Qed.

Lemma Kept_refl (st : TokenState) : TokenDesk.Kept st st.
Proof.
  intros Hnd. split; [assumption|]. intros i tk H. exists tk. auto.
Qed.

Lemma Kept_trans (st st1 st2 : TokenState) :
  TokenDesk.Kept st st1 -> TokenDesk.Kept st1 st2 -> TokenDesk.Kept st st2.
Proof.
  intros H1 H2 Hnd. destruct (H1 Hnd) as [Hnd1 Hk1].
  destruct (H2 Hnd1) as [Hnd2 Hk2]. split; [assumption|].
  intros i tk Hfind. destruct (Hk1 i tk Hfind) as [tk1 [Hf1 [Ht1 Hc1]]].
  destruct (Hk2 i tk1 Hf1) as [tk2 [Hf2 [Ht2 Hc2]]].
  exists tk2. split; [assumption|]. split; [congruence|].
  intros Hclosed. specialize (Hc1 Hclosed). subst tk1. auto.
Qed.

(** A handler that stores a token again under its identifier, with the
    ticket it had, and only when it was not closed. *)
Lemma Kept_set_token (st : TokenState) (tokenId : ObjectId) (t0 t1 : Token.t) :
  findById Token._id tokenId (tokens st) = Some t0 ->
  Token._id t1 = Token._id t0 ->
  TokenDesk.ticket t1 = TokenDesk.ticket t0 ->
  TokenDesk.closed t0 = false ->
  forall (cs : list Counter.t),
    TokenDesk.Kept st
      (mkTokenState (save Token._id t1 (tokens st)) cs (customers st)
         (departments st)).
Proof.
  intros Hfind Hid Hticket Hopen cs Hnd.
  destruct (findById_id _ _ _ _ _ Hfind) as [Hi Hin]. subst tokenId.
  split; simpl.
  - now rewrite (ids_after_replace t0 t1 _ Hin Hid).
  - intros i tk Hi. now apply (replaced_token t0 t1).
Qed.

(** The three handlers that store nothing: the customer endpoint stops at
    [isOpen], POST /api/tokens at [isActive], and [serveToken] at the
    validation of the status it sets. *)
Lemma issue_stores_nothing (customerId departmentId : ObjectId)
  (priority : option Z) (userId : ObjectId) (now : Z) (st : TokenState) :
  exists (message : string) (statusCode : Z),
    CustomerController.generateToken customerId departmentId priority userId
      now st
    = (st, AppError message statusCode).
Proof.
  unfold CustomerController.generateToken.
  destruct (findById Customer._id customerId (customers st)) as [customer|];
    [|eauto].
  destruct (Customer.archived customer); [eauto|].
  destruct (findById Department._id departmentId (departments st))
    as [department|]; [|eauto].
  destruct (Department.archived department); [eauto|].
  unfold Department.isOpen.
  destruct (negb (Department.status department =? "active")%string); eauto.
Qed.

Lemma generate_stores_nothing (customerId departmentId : ObjectId)
  (st : TokenState) :
  exists (message : string) (statusCode : Z),
    TokenDesk.generateToken customerId departmentId st
    = (st, AppError message statusCode).
Proof.
  unfold TokenDesk.generateToken.
  destruct (findById Customer._id customerId (customers st)); [|eauto].
  destruct (findById Department._id departmentId (departments st))
    as [department|]; [|eauto].
  unfold Department.isActive. simpl. eauto.
Qed.

Lemma serve_stores_nothing (tokenId : ObjectId) (st : TokenState) :
  fst (TokenDesk.serveToken tokenId st) = st.
Proof.
  unfold TokenDesk.serveToken.
  destruct (findById Token._id tokenId (tokens st)) as [token|];
    [|reflexivity].
  destruct (negb (Token.status token =? "called")%string); reflexivity.
Qed.

Lemma byPriorityDescPositionAsc_irrefl (a : Token.t) :
  Counter.byPriorityDescPositionAsc a a = false.
Proof.
  unfold Counter.byPriorityDescPositionAsc.
  now rewrite Z.ltb_irrefl, optZ_ltb_irrefl, andb_false_r.
Qed.

Lemma byPriorityDescPositionAsc_trans (a b c : Token.t) :
  Counter.byPriorityDescPositionAsc a b = true ->
  Counter.byPriorityDescPositionAsc b c = true ->
  Counter.byPriorityDescPositionAsc a c = true.
Proof.
  unfold Counter.byPriorityDescPositionAsc. intros H1 H2.
  apply orb_true_iff in H1. apply orb_true_iff in H2. apply orb_true_iff.
  destruct H1 as [H1|H1], H2 as [H2|H2];
    try (apply andb_true_iff in H1; destruct H1 as [E1 P1]; apply Z.eqb_eq in E1);
    try (apply andb_true_iff in H2; destruct H2 as [E2 P2]; apply Z.eqb_eq in E2);
    try apply Z.ltb_lt in H1; try apply Z.ltb_lt in H2.
  - left. apply Z.ltb_lt. lia.
  - left. apply Z.ltb_lt. lia.
  - left. apply Z.ltb_lt. lia.
  - right. apply andb_true_iff. split; [apply Z.eqb_eq; lia|].
    now apply optZ_ltb_trans with (b := Token.queuePosition b).
Qed.

(** The token [callNextToken] picks. *)
Lemma nextWaiting_found (c : Counter.t) (now : Z) (tks : list Token.t)
  (next : Token.t) :
  Counter.nextWaiting c now tks = Some next ->
  In next tks /\ Token.waitingIn (Counter.department c) now next = true
  /\ forall x, In x tks -> Token.waitingIn (Counter.department c) now x = true ->
               Counter.byPriorityDescPositionAsc x next = false.
Proof.
  apply (findOneSorted_first _ _ byPriorityDescPositionAsc_irrefl
           byPriorityDescPositionAsc_trans).
Qed.

Lemma waiting_status (d : ObjectId) (now : Z) (tk : Token.t) :
  Token.waitingIn d now tk = true -> Token.status tk = "waiting".
Proof.
  unfold Token.waitingIn. intros H. apply andb_prop in H. destruct H as [H _].
  apply andb_prop in H. destruct H as [_ H]. now apply String.eqb_eq.
Qed.

Lemma step_kept (st : TokenState) (r : Z * TokenDesk.Request) :
  TokenDesk.Kept st (TokenDesk.step st r).
Proof.
  destruct r as [now r]. unfold TokenDesk.step. simpl.
  destruct r as [customerId departmentId priority userId
                 |customerId departmentId|tokenId counterId
                 |counterId|tokenId|tokenId|tokenId
                 |tokenId targetDepartmentId targetCounterId reason userId].
  - destruct (issue_stores_nothing customerId departmentId priority userId
                now st) as [message [statusCode ->]].
    apply Kept_refl.
  - destruct (generate_stores_nothing customerId departmentId st)
      as [message [statusCode ->]].
    apply Kept_refl.
  - unfold TokenDesk.callToken.
    destruct (findById Token._id tokenId (tokens st)) as [token|] eqn:Hfind;
      [|apply Kept_refl].
    destruct (Token.status token =? "waiting")%string eqn:Hs; simpl;
      [|apply Kept_refl].
    destruct (findById Counter._id counterId (counters st)) as [counter|];
      [|apply Kept_refl].
    destruct (negb (Counter.status counter =? "active")%string);
      [apply Kept_refl|].
    apply String.eqb_eq in Hs.
    apply (Kept_set_token st tokenId token); auto.
    unfold TokenDesk.closed. now rewrite Hs.
  - unfold TokenDesk.callNext.
    destruct (findById Counter._id counterId (counters st)) as [counter|];
      [|apply Kept_refl].
    unfold Counter.callNextToken.
    destruct (Counter.nextWaiting counter now (tokens st)) as [next|] eqn:Hnext;
      [|apply Kept_refl].
    destruct (nextWaiting_found _ _ _ _ Hnext) as [Hin [Hw _]].
    apply waiting_status in Hw.
    intros Hnd.
    apply (Kept_set_token st (Token._id next) next); auto.
    + now apply findById_stored.
    + unfold TokenDesk.closed. now rewrite Hw.
  - rewrite serve_stores_nothing. apply Kept_refl.
  - unfold TokenController.completeToken.
    destruct (findById Token._id tokenId (tokens st)) as [token|] eqn:Hfind;
      [|apply Kept_refl].
    destruct (Token.status token =? "serving")%string eqn:Hs; simpl;
      [|apply Kept_refl].
    apply String.eqb_eq in Hs.
    apply (Kept_set_token st tokenId token); auto.
    unfold TokenDesk.closed. now rewrite Hs.
  - unfold TokenController.cancelToken.
    destruct (findById Token._id tokenId (tokens st)) as [token|] eqn:Hfind;
      [|apply Kept_refl].
    destruct (str_in (Token.status token) ["waiting"; "called"]%string) eqn:Hs;
      simpl; [|apply Kept_refl].
    apply (Kept_set_token st tokenId token); auto.
    unfold TokenDesk.closed. unfold str_in in Hs. simpl in Hs.
    destruct (Token.status token =? "waiting")%string eqn:E1.
    + apply String.eqb_eq in E1. now rewrite E1.
    + destruct (Token.status token =? "called")%string eqn:E2; [|discriminate].
      apply String.eqb_eq in E2. now rewrite E2.
  - unfold TokenController.transferToken.
    destruct (findById Token._id tokenId (tokens st)) as [token|] eqn:Hfind;
      [|apply Kept_refl].
    destruct ((Token.status token =? "completed")%string
              || (Token.status token =? "cancelled")%string) eqn:Hs;
      [apply Kept_refl|].
    apply (Kept_set_token st tokenId token); auto.
Qed.

Lemma run_kept (rs : list (Z * TokenDesk.Request)) (st : TokenState) :
  TokenDesk.Kept st (TokenDesk.run rs st).
Proof.
  unfold TokenDesk.run. revert st.
  induction rs as [|r rs IH]; simpl; intros st; [apply Kept_refl|].
  apply Kept_trans with (st1 := TokenDesk.step st r); [apply step_kept|apply IH].
Qed.

(** X13. No handler rewrites a ticket: whatever requests follow (issue,
    call, call next, serve, complete, cancel, transfer), a stored token stays
    stored under its identifier with the token number, customer, priority,
    queue position, issue time and business date it had. *)
Theorem ticket_never_rewritten :
  forall (rs : list (Z * TokenDesk.Request)) (st : TokenState) (i : ObjectId)
         (tk : Token.t),
    NoDup (map Token._id (tokens st)) ->
    findById Token._id i (tokens st) = Some tk ->
    option_map TokenDesk.ticket
      (findById Token._id i (tokens (TokenDesk.run rs st)))
    = Some (TokenDesk.ticket tk).
Proof.
  intros rs st i tk Hnd Hfind.
  destruct (run_kept rs st Hnd) as [_ Hkept].
  destruct (Hkept i tk Hfind) as [tk' [Hf [Ht _]]].
  rewrite Hf. simpl. now rewrite Ht.
Qed.

Lemma ticket_never_rewritten_witness :
  option_map TokenDesk.ticket
    (findById Token._id 2%nat
       (tokens (TokenDesk.run Scenario.morning Sample.threeWaiting)))
  = Some (TokenDesk.ticket Sample.tokenB).
Proof.
  apply (ticket_never_rewritten Scenario.morning Sample.threeWaiting 2%nat
           Sample.tokenB).
  - simpl. repeat constructor; simpl; intuition discriminate.
  - reflexivity.
Defined.

(** X14. [completed] and [cancelled] are final: whatever requests follow,
    a token in one of these states stays stored exactly as it is. *)
Theorem closed_token_is_final :
  forall (rs : list (Z * TokenDesk.Request)) (st : TokenState) (i : ObjectId)
         (tk : Token.t),
    NoDup (map Token._id (tokens st)) ->
    findById Token._id i (tokens st) = Some tk ->
    TokenDesk.closed tk = true ->
    findById Token._id i (tokens (TokenDesk.run rs st)) = Some tk.
Proof.
  intros rs st i tk Hnd Hfind Hclosed.
  destruct (run_kept rs st Hnd) as [_ Hkept].
  destruct (Hkept i tk Hfind) as [tk' [Hf [_ Hsame]]].
  now rewrite Hf, (Hsame Hclosed).
Qed.

Lemma closed_token_is_final_witness :
  findById Token._id 1%nat
    (tokens (TokenDesk.run Scenario.morning
               (mkTokenState [Scenario.cancelledA; Sample.tokenB; Sample.tokenC]
                  [Sample.idleCounter] [Sample.alice; Sample.bob; Sample.carol]
                  [Sample.deptCS; Sample.deptHR])))
  = Some Scenario.cancelledA.
Proof.
  apply (closed_token_is_final Scenario.morning
           (mkTokenState [Scenario.cancelledA; Sample.tokenB; Sample.tokenC]
              [Sample.idleCounter] [Sample.alice; Sample.bob; Sample.carol]
              [Sample.deptCS; Sample.deptHR]) 1%nat Scenario.cancelledA).
  - simpl. repeat constructor; simpl; intuition discriminate.
  - reflexivity.
  - reflexivity.
Defined.

(** ** Which token is called next *)

(** X15. [callNextToken] calls the best waiting token of the counter's
    department: no token waiting there on that day has a higher priority,
    and none of the same priority has a smaller queue position. *)
Theorem callNextToken_calls_best :
  forall (c c1 : Counter.t) (now : Z) (tks tks1 : list Token.t)
         (called : Token.t),
    Counter.callNextToken c now tks = (c1, tks1, Some called) ->
    exists next : Token.t,
      In next tks
      /\ Token.waitingIn (Counter.department c) now next = true
      /\ called = Token.callToken (Counter._id c) (Counter.currentOperator c)
                    now next
      /\ forall x : Token.t,
           In x tks ->
           Token.waitingIn (Counter.department c) now x = true ->
           Token.priority x <= Token.priority next
           /\ (Token.priority x = Token.priority next ->
               optZ_ltb (Token.queuePosition x) (Token.queuePosition next)
               = false).
Proof.
  intros c c1 now tks tks1 called Hcall. unfold Counter.callNextToken in Hcall.
  destruct (Counter.nextWaiting c now tks) as [next|] eqn:Hnext;
    [|discriminate].
  injection Hcall as _ _ <-.
  destruct (nextWaiting_found _ _ _ _ Hnext) as [Hin [Hw Hbest]].
  exists next. split; [assumption|]. split; [assumption|].
  split; [reflexivity|].
  intros x Hx Hxw. specialize (Hbest x Hx Hxw).
  unfold Counter.byPriorityDescPositionAsc in Hbest.
  apply orb_false_iff in Hbest. destruct Hbest as [Hprio Hpos].
  apply Z.ltb_ge in Hprio. split; [assumption|].
  intros Heq. apply Z.eqb_eq in Heq. now rewrite Heq in Hpos.
Qed.

Lemma callNextToken_calls_best_witness :
  exists next : Token.t,
    In next [Sample.tokenA; Sample.tokenB; Sample.tokenC]
    /\ Token.waitingIn (Counter.department Sample.idleCounter) Sample.now next
       = true
    /\ Token.callToken 21%nat (Some 31%nat) Sample.now Sample.tokenA
       = Token.callToken (Counter._id Sample.idleCounter)
           (Counter.currentOperator Sample.idleCounter) Sample.now next
    /\ forall x : Token.t,
         In x [Sample.tokenA; Sample.tokenB; Sample.tokenC] ->
         Token.waitingIn (Counter.department Sample.idleCounter) Sample.now x
         = true ->
         Token.priority x <= Token.priority next
         /\ (Token.priority x = Token.priority next ->
             optZ_ltb (Token.queuePosition x) (Token.queuePosition next)
             = false).
Proof.
  apply (callNextToken_calls_best Sample.idleCounter
           (fst (fst (Counter.callNextToken Sample.idleCounter Sample.now
                        [Sample.tokenA; Sample.tokenB; Sample.tokenC])))
           Sample.now [Sample.tokenA; Sample.tokenB; Sample.tokenC]
           (snd (fst (Counter.callNextToken Sample.idleCounter Sample.now
                        [Sample.tokenA; Sample.tokenB; Sample.tokenC])))).
  vm_compute. reflexivity.
Defined.

(** ** One active token per customer *)








(** ** The token number generator below 1000 *)

Lemma ascii_compare_refl (c : ascii) : Ascii.compare c c = Eq.
Proof. unfold Ascii.compare. apply N.compare_refl. Qed.

Lemma string_compare_refl (s : string) : String.compare s s = Eq.
Proof.
  induction s as [|c s IH]; simpl; [reflexivity|].
  now rewrite ascii_compare_refl.
Qed.

Lemma string_compare_trans (a b c : string) :
  String.compare a b = Lt -> String.compare b c = Lt -> String.compare a c = Lt.
Proof.
  revert b c. induction a as [|x a IH]; intros [|y b] [|z c]; simpl;
    try discriminate; auto.
  destruct (Ascii.compare x y) eqn:Exy; try discriminate;
    destruct (Ascii.compare y z) eqn:Eyz; try discriminate; intros H1 H2.
  - apply Ascii.compare_eq_iff in Exy, Eyz. subst.
    rewrite ascii_compare_refl. now apply IH with (b := b).
  - apply Ascii.compare_eq_iff in Exy. subst. now rewrite Eyz.
  - apply Ascii.compare_eq_iff in Eyz. subst. now rewrite Exy.
  - unfold Ascii.compare in *. rewrite N.compare_lt_iff in Exy, Eyz.
    assert (E : (N_of_ascii x ?= N_of_ascii z)%N = Lt)
      by (apply N.compare_lt_iff; lia).
    now rewrite E.
Qed.

Lemma string_ltb_lt (a b : string) :
  String.ltb a b = true <-> String.compare a b = Lt.
Proof.
  unfold String.ltb. destruct (String.compare a b); split; congruence.
Qed.

Lemma byTokenNumberDesc_irrefl (a : Token.t) : Token.byTokenNumberDesc a a = false.
Proof.
  unfold Token.byTokenNumberDesc, String.ltb. now rewrite string_compare_refl.
Qed.

Lemma byTokenNumberDesc_trans (a b c : Token.t) :
  Token.byTokenNumberDesc a b = true -> Token.byTokenNumberDesc b c = true ->
  Token.byTokenNumberDesc a c = true.
Proof.
  unfold Token.byTokenNumberDesc. rewrite !string_ltb_lt. intros H1 H2.
  now apply string_compare_trans with (b := Token.tokenNumber b).
Qed.

Lemma string_compare_app (p a b : string) :
  String.compare (p ++ a) (p ++ b) = String.compare a b.
Proof.
  induction p as [|c p IH]; simpl; [reflexivity|].
  now rewrite ascii_compare_refl.
Qed.

Lemma string_app_assoc (a b c : string) :
  ((a ++ b) ++ c = a ++ (b ++ c))%string.
Proof. induction a as [|x a IH]; simpl; [reflexivity|]. now rewrite IH. Qed.

Lemma lastSegment_after_dash (a acc s : string) :
  lastSegment acc (a ++ String "-" s) = lastSegment "" s.
Proof.
  revert acc. induction a as [|c a IH]; intros acc; simpl; [reflexivity|].
  destruct (Ascii.eqb c "-"); apply IH.
Qed.

(** The three-digit numbers, checked one by one: what follows the last dash
    is the number itself, and [parseInt] reads it back. *)
Lemma padded_number (i : N) :
  (i <= 999)%N ->
  lastSegment "" (padStart 3 (decimal i)) = padStart 3 (decimal i)
  /\ parseInt (padStart 3 (decimal i)) = Some i.
Proof.
  intros Hi.
  assert (H : forallb
                (fun k : nat =>
                   let s := padStart 3 (decimal (N.of_nat k)) in
                   (lastSegment "" s =? s)%string
                   && match parseInt s with
                      | Some j => (j =? N.of_nat k)%N
                      | None => false
                      end)
                (seq 0 1000) = true) by (vm_compute; reflexivity).
  rewrite forallb_forall in H. specialize (H (N.to_nat i)).
  rewrite Nnat.N2Nat.id in H. cbv zeta in H.
  assert (Hin : In (N.to_nat i) (seq 0 1000)) by (apply in_seq; lia).
  apply H in Hin. apply andb_prop in Hin. destruct Hin as [Hseg Hparse].
  apply String.eqb_eq in Hseg. split; [assumption|].
  destruct (parseInt (padStart 3 (decimal i))) as [j|]; [|discriminate].
  apply N.eqb_eq in Hparse. now subst j.
Qed.

(** Up to 999 a number sorts before its successor, as strings. *)
Lemma padded_successor (i : N) :
  (i < 999)%N ->
  String.compare (padStart 3 (decimal i)) (padStart 3 (decimal (i + 1))) = Lt.
Proof.
  intros Hi.
  assert (H : forallb
                (fun k : nat =>
                   String.ltb (padStart 3 (decimal (N.of_nat k)))
                     (padStart 3 (decimal (N.of_nat k + 1))))
                (seq 0 999) = true) by (vm_compute; reflexivity).
  rewrite forallb_forall in H. specialize (H (N.to_nat i)).
  rewrite Nnat.N2Nat.id in H. apply string_ltb_lt. apply H. apply in_seq. lia.
Qed.

Lemma padded_order (i j : N) :
  (i < j)%N -> (j <= 999)%N ->
  String.compare (padStart 3 (decimal i)) (padStart 3 (decimal j)) = Lt.
Proof.
  intros Hlt Hj.
  assert (H : forall n : nat,
            (i + N.of_nat n + 1 <= 999)%N ->
            String.compare (padStart 3 (decimal i))
              (padStart 3 (decimal (i + N.of_nat n + 1))) = Lt).
  { induction n as [|n IH]; intros Hn.
    - rewrite N.add_0_r. apply padded_successor. lia.
    - apply string_compare_trans
        with (b := padStart 3 (decimal (i + N.of_nat n + 1))).
      + apply IH. lia.
      + replace (i + N.of_nat (S n) + 1)%N with (i + N.of_nat n + 1 + 1)%N by lia.
        apply padded_successor. lia. }
  replace j with (i + N.of_nat (N.to_nat (j - i - 1)) + 1)%N by lia.
  apply H. lia.
Qed.

(** X17. Below a thousand tokens the generator counts correctly: when the
    tokens of the department and day are numbered with three digits, the
    highest being n <= 999, [generateTokenNumber] answers the number n + 1,
    and 001 when there is none yet. *)
Theorem generateTokenNumber_counts_up :
  forall (depts : list Department.t) (tks : list Token.t) (d : ObjectId)
         (date : Z) (dept : Department.t) (n : N),
    findById Department._id d depts = Some dept ->
    (n <= 999)%N ->
    (forall tk,
        In tk tks ->
        Token.numberedFor (Department.code dept ++ "-" ++ dateStr date ++ "-")
          date tk = true ->
        exists i : N,
          (1 <= i <= n)%N
          /\ Token.tokenNumber tk
             = (Department.code dept ++ "-" ++ dateStr date ++ "-"
                ++ padStart 3 (decimal i))%string) ->
    (n = 0%N
     \/ exists tk,
          In tk tks
          /\ Token.numberedFor (Department.code dept ++ "-" ++ dateStr date ++ "-")
               date tk = true
          /\ Token.tokenNumber tk
             = (Department.code dept ++ "-" ++ dateStr date ++ "-"
                ++ padStart 3 (decimal n))%string) ->
    Token.generateTokenNumber depts tks d date
    = Ok ((Department.code dept ++ "-" ++ dateStr date ++ "-"
           ++ padStart 3 (decimal (n + 1)))%string,
          (Department.code dept ++ padStart 3 (decimal (n + 1)))%string).
Proof.
  intros depts tks d date dept n Hdept Hn Hall Hmax.
  unfold Token.generateTokenNumber. rewrite Hdept.
  set (pre := (Department.code dept ++ "-" ++ dateStr date ++ "-")%string)
    in *.
  assert (Hpre : forall s : string,
            (Department.code dept ++ "-" ++ dateStr date ++ "-" ++ s
             = pre ++ s)%string).
  { intros s. unfold pre. rewrite !string_app_assoc. reflexivity. }
  assert (Hseg : forall s : string,
            lastSegment "" (pre ++ s) = lastSegment "" s).
  { intros s.
    assert (E : (pre ++ s
                 = (Department.code dept ++ String "-" (dateStr date))
                   ++ String "-" s)%string)
      by (unfold pre; rewrite !string_app_assoc; reflexivity).
    rewrite E. apply lastSegment_after_dash. }
  rewrite !Hpre in *.
  destruct (findOneSorted (Token.numberedFor pre date) Token.byTokenNumberDesc
              tks) as [last|] eqn:Hlast.
  - destruct (findOneSorted_first _ _ byTokenNumberDesc_irrefl
                byTokenNumberDesc_trans _ _ _ Hlast) as [Hin [Hnum Hfirst]].
    destruct (Hall last Hin Hnum) as [j [Hj Hnumber]].
    rewrite Hpre in Hnumber.
    assert (Hjn : j = n).
    { destruct Hmax as [->|[tk [Htk [Htknum Htkn]]]]; [lia|].
      try rewrite Hpre in Htkn.
      specialize (Hfirst tk Htk Htknum).
      unfold Token.byTokenNumberDesc in Hfirst.
      rewrite Hnumber, Htkn in Hfirst.
      destruct (N.eq_dec j n) as [E|E]; [assumption|exfalso].
      assert (Hlt : String.ltb (pre ++ padStart 3 (decimal j))
                      (pre ++ padStart 3 (decimal n)) = true).
      { apply string_ltb_lt. rewrite string_compare_app.
        apply padded_order; lia. }
      congruence. }
    subst j. rewrite Hnumber, Hseg.
    destruct (padded_number n Hn) as [Hs Hparse].
    rewrite Hs, Hparse. reflexivity.
  - destruct Hmax as [->|[tk [Htk [Htknum _]]]]; [reflexivity|exfalso].
    apply (findOneSorted_none _ Token.byTokenNumberDesc) in Hlast.
    assert (Hf : In tk (List.filter (Token.numberedFor pre date) tks))
      by (apply filter_In; now split).
    rewrite Hlast in Hf. contradiction.
Qed.

Lemma generateTokenNumber_counts_up_witness :
  Token.generateTokenNumber [Sample.deptCS; Sample.deptHR]
    [Sample.tokenA; Sample.tokenB; Sample.tokenC] 1%nat Sample.now
  = Ok ((Department.code Sample.deptCS ++ "-" ++ dateStr Sample.now ++ "-"
         ++ padStart 3 (decimal (3 + 1)))%string,
        (Department.code Sample.deptCS ++ padStart 3 (decimal (3 + 1)))%string).
Proof.
  apply (generateTokenNumber_counts_up [Sample.deptCS; Sample.deptHR]
           [Sample.tokenA; Sample.tokenB; Sample.tokenC] 1%nat Sample.now
           Sample.deptCS 3).
  - reflexivity.
  - lia.
  - intros tk [<-|[<-|[<-|[]]]] _;
      [exists 1%N|exists 2%N|exists 3%N]; (split; [lia|vm_compute; reflexivity]).
  - right. exists Sample.tokenC. split; [simpl; auto|].
    split; vm_compute; reflexivity.
Defined.

(** ** Enqueueing moves the tail *)

Lemma member_position (q : Queue.t) (ps : list Project.t) (p : Project.t) :
  QueueInv q ps -> In p ps -> memberOf (Queue._id q) p = true ->
  exists k, Project.queuePosition p = Some k /\ 1 <= k <= Queue.currentSize q.
Proof.
  intros [order [Hperm [Hnum [Hsize _]]]] Hin Hmem.
  assert (Hpo : In p order).
  { apply (Permutation_in _ (Permutation_sym Hperm)). apply filter_In. now split. }
  pose proof (numberedFrom_bounds _ _ Hnum) as Hb. rewrite Forall_forall in Hb.
  destruct (Hb p Hpo) as [k [Hk Hrange]]. exists k. split; [assumption|lia].
Qed.

(** In a priority queue the projects at or behind the insertion position
    are those of at most the new project's priority. *)
Lemma behind_is_lower (q : Queue.t) (project : Project.t) (ps : list Project.t)
  (p : Project.t) (k : Z) :
  QueueInv q ps -> Queue.isPriorityType (Queue.type q) = true ->
  In p ps -> memberOf (Queue._id q) p = true ->
  Project.queuePosition p = Some k ->
  countDocuments (Queue.higherPriorityFilter q project) ps + 1 <= k ->
  Project.priority p <= Project.priority project.
Proof.
  intros [order [Hperm [Hnum [_ [Hqueued Hsorted]]]]] Hprio Hin Hmem Hk Hge.
  rewrite (higher_count q project order ps Hperm Hqueued) in Hge.
  assert (Hpo : In p order).
  { apply (Permutation_in _ (Permutation_sym Hperm)). apply filter_In. now split. }
  destruct (nonIncreasing_split (Project.priority project) _ (Hsorted Hprio))
    as [o1 [o2 [-> [Hhigh Hlow]]]].
  rewrite filter_app in Hge.
  rewrite (filter_all _ (higherThan project) o1) in Hge.
  2:{ eapply Forall_impl; [|exact Hhigh]. intros x Hx. simpl in Hx.
      apply Z.ltb_lt. exact Hx. }
  rewrite (filter_nothing _ (higherThan project) o2) in Hge.
  2:{ eapply Forall_impl; [|exact Hlow]. intros x Hx. simpl in Hx.
      apply Z.ltb_ge. exact Hx. }
  rewrite app_nil_r in Hge.
  apply numberedFrom_app in Hnum. destruct Hnum as [Hnum1 _].
  apply in_app_or in Hpo. destruct Hpo as [Hp1|Hp2].
  - pose proof (numberedFrom_bounds _ _ Hnum1) as Hb.
    rewrite Forall_forall in Hb. destruct (Hb p Hp1) as [k' [Hk' Hrange]].
    rewrite Hk in Hk'. injection Hk' as <-. lia.
  - rewrite Forall_forall in Hlow. exact (Hlow p Hp2).
Qed.

(** How [addProject] moves the other projects. *)
Lemma addProject_moves :
  forall (q : Queue.t) (project : Project.t) (ps : list Project.t)
         (position : Z) (q1 : Queue.t) (ps1 : list Project.t),
    QueueInv q ps ->
    Queue.addProject q project ps = Ok (position, q1, ps1) ->
    forall (i : ObjectId) (p : Project.t),
      i <> Project._id project ->
      findById Project._id i ps = Some p ->
      findById Project._id i ps1
      = Some (if memberOf (Queue._id q) p
                 && optZ_geb (Project.queuePosition p) position
              then Project.inc_queuePosition 1 p
              else p).
Proof.
  intros q project ps position q1 ps1 Hinv Hadd i p Hi Hfind.
  destruct (findById_id _ _ _ _ _ Hfind) as [_ Hin].
  assert (Hlast : memberOf (Queue._id q) p
                  && optZ_geb (Project.queuePosition p) (Queue.currentSize q + 1)
                  = false).
  { destruct (memberOf (Queue._id q) p) eqn:Hmem; [|reflexivity].
    destruct (member_position q ps p Hinv Hin Hmem) as [k [Hk Hrange]].
    rewrite Hk. simpl. apply Z.leb_gt. lia. }
  unfold Queue.addProject in Hadd.
  destruct (negb (Queue.canAccept (Queue.canAcceptProject q project)));
    [discriminate|].
  fold (enqueued q) in Hadd.
  destruct (Queue.type q =? "fifo")%string eqn:Efifo;
    [|destruct (Queue.type q =? "lifo")%string eqn:Elifo;
      [|destruct (Queue.isPriorityType (Queue.type q)) eqn:Eprio]];
    simpl in Hadd; injection Hadd as <- <- <-;
    rewrite (findById_save_other Project.t Project._id) by exact Hi.
  - now rewrite Hfind, Hlast.
  - rewrite findById_updateMany, Hfind. reflexivity.
  - rewrite findById_updateMany, Hfind. simpl. f_equal. unfold shifted.
    unfold Queue.lowerPriorityFilter. fold (memberOf (Queue._id q) p).
    destruct (memberOf (Queue._id q) p) eqn:Hmem; [|reflexivity]. simpl.
    destruct (Project.queuePosition p) as [k|] eqn:Hk;
      [|simpl; now rewrite andb_false_r].
    simpl.
    destruct (countDocuments (Queue.higherPriorityFilter q project) ps + 1 <=? k)
      eqn:Hge; [|now rewrite andb_false_r].
    apply Z.leb_le in Hge.
    pose proof (behind_is_lower q project ps p k Hinv Eprio Hin Hmem Hk Hge)
      as Hlow.
    apply Z.leb_le in Hlow. now rewrite Hlow.
  - now rewrite Hfind, Hlast.
Qed.

(** X18. Enqueueing into a queue that is in order moves exactly the tail:
    when the projects of the queue are all waiting, at the positions 1..N,
    N being the stored size, and by priority in a priority or weighted
    queue, then after [addProject] has put a project at position P, every
    other project of the queue that was at position P or behind is one
    position further back, and every other stored project, of this queue or
    another, is unchanged. *)
Theorem addProject_shifts_tail :
  forall (q : Queue.t) (project : Project.t) (ps : list Project.t)
         (position : Z) (q1 : Queue.t) (ps1 : list Project.t),
    QueueInv q ps ->
    Queue.addProject q project ps = Ok (position, q1, ps1) ->
    forall (i : ObjectId) (p : Project.t),
      i <> Project._id project ->
      findById Project._id i ps = Some p ->
      findById Project._id i ps1
      = Some (if memberOf (Queue._id q) p
                 && optZ_geb (Project.queuePosition p) position
              then Project.inc_queuePosition 1 p
              else p).
Proof. exact addProject_moves. Qed.

Lemma addProject_shifts_tail_witness :
  findById Project._id 52%nat
    [Sample.queued 51%nat 5 2; Sample.queued 52%nat 5 3;
     Sample.queued 53%nat 5 4; Sample.queued 54%nat 5 1]
  = Some (if memberOf (Queue._id (Scenario.holding 3 "lifo")) Sample.queuedB
             && optZ_geb (Project.queuePosition Sample.queuedB) 1
          then Project.inc_queuePosition 1 Sample.queuedB
          else Sample.queuedB).
Proof.
  apply (addProject_shifts_tail (Scenario.holding 3 "lifo") Scenario.projectD
           Scenario.withD 1 (Scenario.holding 4 "lifo")
           [Sample.queued 51%nat 5 2; Sample.queued 52%nat 5 3;
            Sample.queued 53%nat 5 4; Sample.queued 54%nat 5 1]).
  - exists [Sample.queuedA; Sample.queuedB; Sample.queuedC].
    split; [apply Permutation_refl|].
    split; [simpl; auto|]. split; [reflexivity|].
    split; [repeat constructor|discriminate].
  - reflexivity.
  - simpl. lia.
  - reflexivity.
Defined.

(** ** Enqueue and remove again *)

Lemma shift_back (p : Project.t) :
  Project.queuePosition p <> None ->
  Project.inc_queuePosition (-1) (Project.inc_queuePosition 1 p) = p.
Proof.
  destruct p as [i pr s [k|] qi c t sa ca ar]; intros H; [|contradiction].
  unfold Project.inc_queuePosition, Project.set_queuePosition. simpl.
  do 2 f_equal. lia.
Qed.

(** X19. Enqueueing a project and removing it again restores the queue:
    with auto-start off on every queue and nothing enqueued at the start,
    after every sequence of add and remove requests and a successful
    [addProjectToQueue], the removal succeeds, every other project is stored
    exactly as before the two calls, and the queue has its size statistic
    back. The project itself comes back without queue and position, but in
    status [queued]. *)
Theorem enqueue_then_remove_restores :
  forall (now : Z) (rs : list QueueService.Request)
         (st st2 : QueueService.State) (queueId projectId : ObjectId)
         (position : Z) (queue : Queue.t) (project : Project.t),
    Initial st ->
    findById Queue._id queueId (QueueService.queues (QueueService.run now rs st))
    = Some queue ->
    findById Project._id projectId
      (QueueService.projects (QueueService.run now rs st)) = Some project ->
    QueueService.addProjectToQueue queueId projectId now
      (QueueService.run now rs st) = Ok (st2, position) ->
    exists st3 : QueueService.State,
      QueueService.removeProjectFromQueue queueId projectId st2 = Ok st3
      /\ (forall i : ObjectId,
             i <> projectId ->
             findById Project._id i (QueueService.projects st3)
             = findById Project._id i
                 (QueueService.projects (QueueService.run now rs st)))
      /\ findById Project._id projectId (QueueService.projects st3)
         = Some (Project.set_queuePosition None
                   (Project.set_status "queued" project))
      /\ findById Queue._id queueId (QueueService.queues st3) = Some queue.
Proof.
  intros now rs st st2 queueId projectId position queue project
         Hinit Hq Hp Hadd.
  pose proof (run_keeps now rs st (Initial_StateInv st Hinit)) as Hinv.
  set (st0 := QueueService.run now rs st) in *.
  destruct (add_success _ _ _ _ _ _ Hinv Hadd)
    as [queue' [project' [ps1 [Hq' [Hp' [Harch [Hnone [Haddp ->]]]]]]]].
  rewrite Hq in Hq'. injection Hq' as <-.
  rewrite Hp in Hp'. injection Hp' as <-.
  destruct (findById_id _ _ _ _ _ Hq) as [Hqid Hqin].
  destruct (findById_id _ _ _ _ _ Hp) as [Hpid Hpin].
  pose proof Hinv as [Hndp [Hndq Hall]].
  destruct (Hall queue Hqin) as [_ Hqinv].
  pose proof (added_project_stored _ _ _ _ _ _ Hqinv Haddp) as Hstored.
  set (q1 := Queue.set_currentSize (Queue.currentSize queue + 1) queue) in *.
  assert (Hq1 : findById Queue._id queueId
                  (save Queue._id q1 (QueueService.queues st0)) = Some q1).
  { rewrite <- Hqid.
    apply (findById_save_same Queue.t Queue._id q1). }
  unfold QueueService.removeProjectFromQueue. simpl.
  rewrite Hq1. rewrite <- Hpid, Hstored.
  assert (Hmem : ref_is (Project.queueId (enqueued queue position project))
                   queueId = true).
  { unfold enqueued. simpl. rewrite <- Hqid. apply Nat.eqb_refl. }
  rewrite Hmem. simpl.
  assert (Hmem1 : ref_is (Project.queueId (enqueued queue position project))
                    (Queue._id q1) = true).
  { unfold enqueued. simpl. apply Nat.eqb_refl. }
  unfold Queue.removeProject. rewrite Hmem1. simpl.
  eexists. split; [reflexivity|]. simpl. split; [|split].
  - intros i Hi.
    rewrite (findById_save_other Project.t Project._id i).
    2:{ simpl. congruence. }
    rewrite findById_updateMany.
    destruct (findById Project._id i (QueueService.projects st0)) as [p|] eqn:Hfind.
    + assert (Hi' : i <> Project._id project) by congruence.
      rewrite (addProject_moves queue project _ position _ ps1 Hqinv
                 Haddp i p Hi' Hfind).
      cbn [option_map]. f_equal. unfold shifted.
      destruct (memberOf (Queue._id queue) p
                && optZ_geb (Project.queuePosition p) position) eqn:Hmoved.
      * apply andb_prop in Hmoved. destruct Hmoved as [Hm Hge].
        destruct (Project.queuePosition p) as [k|] eqn:Hk; [|discriminate].
        simpl in Hge. apply Z.leb_le in Hge.
        assert (E : Queue.removeFilter q1 (enqueued queue position project)
                      (Project.inc_queuePosition 1 p) = true).
        { unfold Queue.removeFilter, Project.inc_queuePosition. rewrite Hk.
          simpl. fold (memberOf (Queue._id queue) p). rewrite Hm. simpl.
          apply Z.ltb_lt. lia. }
        rewrite E. apply shift_back. congruence.
      * assert (E : Queue.removeFilter q1 (enqueued queue position project) p
                    = false).
        { unfold Queue.removeFilter. simpl.
          fold (memberOf (Queue._id queue) p).
          destruct (memberOf (Queue._id queue) p); [|reflexivity].
          destruct (Project.queuePosition p) as [k|]; [|reflexivity].
          simpl in *. apply Z.leb_gt in Hmoved. apply Z.ltb_ge. lia. }
        now rewrite E.
    + destruct (findById Project._id i ps1) as [p1|] eqn:Hfind1; [|reflexivity].
      exfalso.
      destruct (findById_id _ _ _ _ _ Hfind1) as [Hid1 Hin1].
      destruct (addProject_keeps queue project _ position _ ps1 Hndp Hpin Hnone
                  Hqinv Haddp) as [_ [_ [Hids _]]].
      assert (Hin0 : In i (map Project._id (QueueService.projects st0))).
      { rewrite <- Hids. apply in_map_iff. now exists p1. }
      apply in_map_iff in Hin0. destruct Hin0 as [x [Hx Hxin]].
      apply (findById_none _ _ _ _ x Hfind Hxin Hx).
  - rewrite Hpid.
    replace projectId with
      (Project._id (Project.set_queuePosition None
                      (Project.set_queueId None
                         (enqueued queue position project))))
      by (simpl; exact Hpid).
    rewrite (findById_save_same Project.t Project._id). f_equal.
    destruct project. simpl in Hnone. subst. reflexivity.
  - replace queueId with
      (Queue._id (Queue.set_currentSize (Z.max 0 (Queue.currentSize q1 - 1)) q1))
      by (simpl; exact Hqid).
    rewrite (findById_save_same Queue.t Queue._id). f_equal.
    unfold q1. destruct queue. unfold Queue.set_currentSize. simpl.
    f_equal.
    destruct Hqinv as [order [_ [_ [Hsize _]]]]. simpl in Hsize. lia.
Qed.

Lemma enqueue_then_remove_restores_witness :
  exists st3 : QueueService.State,
    QueueService.removeProjectFromQueue 1%nat 53%nat
      (Scenario.afterABC "priority") = Ok st3
    /\ (forall i : ObjectId,
           i <> 53%nat ->
           findById Project._id i (QueueService.projects st3)
           = findById Project._id i
               (QueueService.projects
                  (QueueService.run 0 Scenario.addAB
                     (Sample.emptyQueue "priority"))))
    /\ findById Project._id 53%nat (QueueService.projects st3)
       = Some (Project.set_queuePosition None
                 (Project.set_status "queued" Sample.projectC))
    /\ findById Queue._id 1%nat (QueueService.queues st3)
       = Some (Scenario.holding 2 "priority").
Proof.
  apply (enqueue_then_remove_restores 0 Scenario.addAB
           (Sample.emptyQueue "priority") (Scenario.afterABC "priority")
           1%nat 53%nat 2 (Scenario.holding 2 "priority") Sample.projectC).
  - sample_initial.
  - vm_compute. reflexivity.
  - vm_compute. reflexivity.
  - vm_compute. reflexivity.
Defined.

(** ** A valid reorder *)

Lemma lastIndexFrom_absent (index : Z) (i : ObjectId) (l : list ObjectId) :
  ~ In i l -> lastIndexFrom index i l = None.
Proof.
  revert index. induction l as [|x l IH]; intros index Hnot; simpl;
    [reflexivity|].
  rewrite IH by (intros H; apply Hnot; now right).
  destruct (oid_eqb x i) eqn:E; [|reflexivity].
  apply oid_eqb_eq in E. exfalso. apply Hnot. now left.
Qed.

(** In a list without repetition the last place of an identifier is its
    place. *)
Lemma lastIndexFrom_place (index : Z) (i : ObjectId) (l : list ObjectId)
  (k : nat) :
  NoDup l -> nth_error l k = Some i ->
  lastIndexFrom index i l = Some (index + Z.of_nat k).
Proof.
  revert index k. induction l as [|x l IH]; intros index k Hnd Hk;
    [destruct k; discriminate|].
  inversion Hnd as [|? ? Hnotin Hnd']; subst. destruct k as [|k]; simpl in *.
  - injection Hk as ->. rewrite (lastIndexFrom_absent _ _ _ Hnotin).
    assert (E : oid_eqb i i = true) by apply Nat.eqb_refl.
    rewrite E. f_equal. lia.
  - rewrite (IH (index + 1) k Hnd' Hk). f_equal. lia.
Qed.

Lemma updateOne_ids (f : Project.t -> bool) (v : option Z) (ps : list Project.t) :
  map Project._id (QueueService.updateOne f (Project.set_queuePosition v) ps)
  = map Project._id ps.
Proof.
  induction ps as [|p ps IH]; simpl; [reflexivity|].
  destruct (f p); simpl; [reflexivity|]. now rewrite IH.
Qed.

Lemma bulkWrite_ids (queue : Queue.t) (projectOrder : list ObjectId) (index : Z)
  (ps : list Project.t) :
  map Project._id (QueueService.bulkWrite queue projectOrder index ps)
  = map Project._id ps.
Proof.
  revert index ps. induction projectOrder as [|x rest IH]; intros index ps;
    simpl; [reflexivity|].
  now rewrite IH, updateOne_ids.
Qed.

Lemma Zrange_In (s : Z) (n : nat) (x : Z) :
  In x (Zrange s n) <-> s <= x < s + Z.of_nat n.
Proof.
  revert s. induction n as [|n IH]; intros s.
  - simpl. lia.
  - change (Zrange s (S n)) with (s :: Zrange (s + 1) n). simpl In.
    rewrite IH. lia.
Qed.

Lemma Zrange_NoDup (s : Z) (n : nat) : NoDup (Zrange s n).
Proof.
  revert s. induction n as [|n IH]; intros s; [constructor|].
  change (Zrange s (S n)) with (s :: Zrange (s + 1) n). constructor; [|apply IH].
  rewrite Zrange_In. lia.
Qed.

(** What a project of the queue looks like after the bulk write of a valid
    order. *)
Lemma reordered_member (queue : Queue.t) (order : list ObjectId)
  (ps : list Project.t) (p1 : Project.t) :
  NoDup (map Project._id ps) ->
  NoDup order ->
  (forall i, In i order <->
             exists p, In p ps /\ Project._id p = i
                       /\ memberOf (Queue._id queue) p = true) ->
  In p1 (QueueService.bulkWrite queue order 0 ps) ->
  memberOf (Queue._id queue) p1 = true ->
  exists k, nth_error order k = Some (Project._id p1)
            /\ Project.queuePosition p1 = Some (Z.of_nat k + 1).
Proof.
  intros Hnd Hord Hvalid Hin Hmem.
  assert (Hnd1 : NoDup (map Project._id (QueueService.bulkWrite queue order 0 ps)))
    by now rewrite bulkWrite_ids.
  pose proof (findById_stored Project.t Project._id p1 _ Hnd1 Hin) as Hfind.
  rewrite findById_bulkWrite in Hfind.
  destruct (findById Project._id (Project._id p1) ps) as [p|] eqn:Hp;
    [|discriminate].
  destruct (findById_id _ _ _ _ _ Hp) as [Hid Hpin].
  simpl in Hfind. injection Hfind as Hp1.
  assert (Hmemp : memberOf (Queue._id queue) p = true).
  { destruct (lastIndexFrom 0 (Project._id p1) order);
      [destruct (memberOf (Queue._id queue) p) eqn:E; [reflexivity|]|];
      subst p1; congruence. }
  assert (Hlisted : In (Project._id p1) order).
  { apply Hvalid. exists p. auto. }
  apply In_nth_error in Hlisted. destruct Hlisted as [k Hk].
  exists k. split; [assumption|].
  rewrite (lastIndexFrom_place 0 _ _ k Hord Hk), Hmemp in Hp1.
  subst p1. simpl. f_equal; lia.
Qed.

(** X21. A valid reorder asked by the creator is carried out as asked:
    when the stored projects have distinct identifiers, the caller is the
    creator of the queue, the user id given as a string, and the list names
    every project of the queue exactly once and nothing else, [reorderQueue]
    stores the k-th listed project at position k, and the positions of the
    queue's projects are exactly 1..N afterwards. *)
Theorem reorderQueue_valid_order :
  forall (queueId : ObjectId) (order : list ObjectId) (creator : ObjectId)
         (st : QueueService.State) (queue : Queue.t),
    NoDup (map Project._id (QueueService.projects st)) ->
    QueueService.getQueueById queueId creator st = Some queue ->
    Queue.createdBy queue = creator ->
    NoDup order ->
    (forall i, In i order <->
               exists p, In p (QueueService.projects st)
                         /\ Project._id p = i
                         /\ memberOf (Queue._id queue) p = true) ->
    exists st1 : QueueService.State,
      QueueService.reorderQueue queueId order (QueueService.IdString creator)
        st = Ok (st1, order)
      /\ (forall (k : nat) (i : ObjectId),
             nth_error order k = Some i ->
             option_map Project.queuePosition
               (findById Project._id i (QueueService.projects st1))
             = Some (Some (Z.of_nat k + 1)))
      /\ Permutation
           (map Project.queuePosition
              (members (Queue._id queue) (QueueService.projects st1)))
           (map Some (Zrange 1 (length order))).
Proof.
  intros queueId order creator st queue Hnd Hget Hcreator Hord Hvalid.
  unfold QueueService.reorderQueue. simpl. rewrite Hget. simpl.
  assert (Hallowed : oid_eqb (Queue.createdBy queue) creator = true)
    by now apply oid_eqb_eq.
  rewrite Hallowed. simpl.
  eexists. split; [reflexivity|]. simpl.
  set (ps := QueueService.projects st) in *.
  set (ps1 := QueueService.bulkWrite queue order 0 ps).
  assert (Hnd1 : NoDup (map Project._id ps1))
    by (unfold ps1; now rewrite bulkWrite_ids).
  assert (Hplace : forall k i,
            nth_error order k = Some i ->
            exists p1, findById Project._id i ps1 = Some p1
                       /\ memberOf (Queue._id queue) p1 = true
                       /\ Project.queuePosition p1 = Some (Z.of_nat k + 1)).
  { intros k i Hk.
    destruct (proj1 (Hvalid i) (nth_error_In _ _ Hk)) as [p [Hpin [Hid Hmem]]].
    unfold ps1. rewrite findById_bulkWrite.
    rewrite <- Hid, (findById_stored Project.t Project._id p ps Hnd Hpin).
    cbn [option_map].
    rewrite Hid, (lastIndexFrom_place 0 _ _ k Hord Hk), Hmem.
    eexists. split; [reflexivity|]. split; [exact Hmem|]. simpl. f_equal; lia. }
  split.
  - intros k i Hk. destruct (Hplace k i Hk) as [p1 [Hfind [_ Hpos]]].
    now rewrite Hfind, <- Hpos.
  - apply NoDup_Permutation.
    + apply Finite.Injective_map_NoDup_in.
      * intros a b Ha Hb Hsame. apply filter_In in Ha, Hb.
        destruct Ha as [Ha Hma], Hb as [Hb Hmb].
        destruct (reordered_member queue order ps a Hnd Hord Hvalid Ha Hma)
          as [ka [Hka Hpa]].
        destruct (reordered_member queue order ps b Hnd Hord Hvalid Hb Hmb)
          as [kb [Hkb Hpb]].
        rewrite Hpa, Hpb in Hsame. injection Hsame as Hk.
        assert (ka = kb) by lia. subst kb.
        apply (NoDup_id_eq Project.t Project._id a b ps1); auto. congruence.
      * apply NoDup_filter. apply (NoDup_map_inv Project._id). exact Hnd1.
    + apply Finite.Injective_map_NoDup_in; [|apply Zrange_NoDup].
      intros a b _ _ H. now injection H.
    + intros x. split; intros Hx; apply in_map_iff in Hx;
        destruct Hx as [y [Hy Hin]]; apply in_map_iff.
      * apply filter_In in Hin. destruct Hin as [Hin Hmem].
        destruct (reordered_member queue order ps y Hnd Hord Hvalid Hin Hmem)
          as [k [Hk Hpos]].
        exists (Z.of_nat k + 1). split; [congruence|].
        apply Zrange_In.
        assert (k < length order)%nat by (apply nth_error_Some; congruence).
        lia.
      * apply Zrange_In in Hin.
        destruct (nth_error order (Z.to_nat (y - 1))) as [i|] eqn:Hk.
        2:{ apply nth_error_None in Hk. lia. }
        destruct (Hplace _ _ Hk) as [p1 [Hfind [Hmem Hpos]]].
        destruct (findById_id _ _ _ _ _ Hfind) as [_ Hp1].
        exists p1. split.
        -- rewrite Hpos, <- Hy. f_equal. lia.
        -- apply filter_In. now split.
Qed.

Lemma reorderQueue_valid_order_witness :
  exists st1 : QueueService.State,
    QueueService.reorderQueue 1%nat [53%nat; 51%nat; 52%nat]
      (QueueService.IdString 41%nat) Sample.fullQueue
    = Ok (st1, [53%nat; 51%nat; 52%nat])
    /\ (forall (k : nat) (i : ObjectId),
           nth_error [53%nat; 51%nat; 52%nat] k = Some i ->
           option_map Project.queuePosition
             (findById Project._id i (QueueService.projects st1))
           = Some (Some (Z.of_nat k + 1)))
    /\ Permutation
         (map Project.queuePosition
            (members (Queue._id (Scenario.holding 3 "fifo"))
               (QueueService.projects st1)))
         (map Some (Zrange 1 (length [53%nat; 51%nat; 52%nat]))).
Proof.
  apply (reorderQueue_valid_order 1%nat [53%nat; 51%nat; 52%nat] 41%nat
           Sample.fullQueue (Scenario.holding 3 "fifo")).
  - simpl. repeat constructor; simpl; intuition discriminate.
  - reflexivity.
  - reflexivity.
  - repeat constructor; simpl; intuition discriminate.
  - intros i. split.
    + intros [<-|[<-|[<-|[]]]];
        [exists Sample.queuedC|exists Sample.queuedA|exists Sample.queuedB];
        simpl; auto 6.
    + intros [p [[<-|[<-|[<-|[]]]] [<- _]]]; simpl; auto.
Defined.
